(** * Deformetrica: the diffeomorphic deformation engine

    A shallow embedding of [core/model_tools/deformations/exponential.py]
    and [core/model_tools/deformations/geodesic.py].

    Scalars are real numbers, and rounding is outside the model.  The
    exceptional floating-point values are not computed with: where
    [parallel_transport] divides by zero, or solves with a singular factor,
    the run ends with the outcome [NonFinite], except for the NaN that
    fails its assertion, which is followed to the [AssertionError].  Python
    exceptions are explicit outcomes, the emitted warnings are logged, and
    the methods of the two classes are computations in a state monad over
    the object they mutate. *)

From Stdlib Require Import Reals Lra Lia ZArith List Bool.
Import ListNotations.
Open Scope R_scope.

Set Implicit Arguments.

(* ================================================================== *)
(** * Tensors *)
(* ================================================================== *)

(** A torch tensor of rank one or two.  Control points, momenta and
    template points are [Mat] values with one row per point. *)
Inductive tensor : Type :=
| Vec (v : list R)
| Mat (m : list (list R)).

Fixpoint zip_with {A B C : Type} (f : A -> B -> C) (l1 : list A) (l2 : list B)
  : list C :=
  match l1, l2 with
  | a :: l1', b :: l2' => f a b :: zip_with f l1' l2'
  | _, _ => []
  end.

Definition sum_list (l : list R) : R := fold_right Rplus 0 l.

Definition dotv (x y : list R) : R := sum_list (zip_with Rmult x y).

(** A rank-one tensor takes part in a binary operation as a single row. *)
Definition rows (t : tensor) : list (list R) :=
  match t with
  | Vec v => [v]
  | Mat m => m
  end.

(** [t.view(-1)]. *)
Definition view1 (t : tensor) : list R :=
  match t with
  | Vec v => v
  | Mat m => concat m
  end.

(** [t.size()]. *)
Definition size (t : tensor) : list nat :=
  match t with
  | Vec v => [length v]
  | Mat m => [length m; length (hd [] m)]
  end.

(** [len(t)]: the extent of the first axis. *)
Definition len (t : tensor) : nat :=
  match t with
  | Vec v => length v
  | Mat m => length m
  end.

(** Broadcasting: an axis of extent one is repeated to the extent of the
    other operand. *)
Definition expand {A : Type} (n : nat) (l : list A) : list A :=
  match l with
  | [x] => repeat x n
  | _ => l
  end.

Definition bc_row (f : R -> R -> R) (r1 r2 : list R) : list R :=
  let n := Nat.max (length r1) (length r2) in
  zip_with f (expand n r1) (expand n r2).

Definition bc_rows (f : R -> R -> R) (m1 m2 : list (list R)) : list (list R) :=
  let n := Nat.max (length m1) (length m2) in
  zip_with (bc_row f) (expand n m1) (expand n m2).

(** An out-of-place pointwise operation [a (f) b]. *)
Definition tbin (f : R -> R -> R) (a b : tensor) : tensor :=
  match a, b with
  | Vec v, Vec w => Vec (bc_row f v w)
  | _, _ => Mat (bc_rows f (rows a) (rows b))
  end.

Definition tadd : tensor -> tensor -> tensor := tbin Rplus.
Definition tsub : tensor -> tensor -> tensor := tbin Rminus.

(** The in-place [a -= b]: [a] keeps its size; a rank-one [a] is updated
    element by element from the entries of [b]. *)
Definition isub (a b : tensor) : tensor :=
  match a with
  | Vec v => Vec (zip_with Rminus v (view1 b))
  | Mat m => Mat (bc_rows Rminus m (rows b))
  end.

Definition tmap (f : R -> R) (t : tensor) : tensor :=
  match t with
  | Vec v => Vec (map f v)
  | Mat m => Mat (map (map f) m)
  end.

(** [s * t] for a number or a one-element tensor [s]. *)
Definition smul (s : R) (t : tensor) : tensor := tmap (Rmult s) t.

(** [t * s]. *)
Definition muls (t : tensor) (s : R) : tensor := tmap (fun x => x * s) t.

(** [t / s]. *)
Definition sdiv (t : tensor) (s : R) : tensor := tmap (fun x => x / s) t.

(** [- t]. *)
Definition tneg (t : tensor) : tensor := tmap Ropp t.

(** [torch.dot(a, b)] on the flattened operands. *)
Definition dot (a b : tensor) : R := dotv (view1 a) (view1 b).

(** [t.squeeze()]: every axis of extent one is dropped (a tensor keeps at
    least one axis). *)
Definition squeeze (t : tensor) : tensor :=
  match t with
  | Vec v => Vec v
  | Mat [r] => Vec r
  | Mat m => if forallb (fun r => Nat.eqb (length r) 1) m
             then Vec (concat m) else Mat m
  end.

Definition size_eqb (s1 s2 : list nat) : bool :=
  if list_eq_dec Nat.eq_dec s1 s2 then true else false.

(* ------------------------------------------------------------------ *)
(** ** Cholesky factorisation: the numbers [torch.potrf] and [torch.potrs]
    compute *)

Fixpoint transpose (m : list (list R)) : list (list R) :=
  match m with
  | [] => []
  | [r] => map (fun x => [x]) r
  | r :: m' => zip_with cons r (transpose m')
  end.

(** Row [i] of the lower factor, left of the diagonal, from the rows
    above it. *)
Fixpoint chol_offdiag (prev : list (list R)) (ai acc : list R) : list R :=
  match prev, ai with
  | lj :: prev', aij :: ai' =>
      chol_offdiag prev' ai' (acc ++ [(aij - dotv acc lj) / last lj 0])
  | _, _ => acc
  end.

Definition chol_next (prev : list (list R)) (ai : list R) : list R :=
  let off := chol_offdiag prev ai [] in
  off ++ [sqrt (nth (length prev) ai 0 - dotv off off)].

(** The lower factor, row [i] holding its [i+1] leading entries. *)
Definition cholesky_lower (a : list (list R)) : list (list R) :=
  fold_left (fun ls ai => ls ++ [chol_next ls ai]) a [].

Definition pad (n : nat) (r : list R) : list R :=
  r ++ repeat 0 (n - length r).

(** The upper factor [u] with [a = u^T u] that [torch.potrf(a)] returns
    when it returns. *)
Definition cholesky_factor (a : tensor) : tensor :=
  let l := cholesky_lower (rows a) in
  Mat (transpose (map (pad (length l)) l)).

(** The pivots of the factorisation, in the order in which it meets them:
    the numbers whose square roots make the diagonal of the factor. *)
Fixpoint chol_pivots (prev a : list (list R)) : list R :=
  match a with
  | [] => []
  | ai :: a' =>
      let off := chol_offdiag prev ai [] in
      (nth (length prev) ai 0 - dotv off off)
        :: chol_pivots (prev ++ [chol_next prev ai]) a'
  end.

(** The diagonal of a matrix. *)
Definition diagonal (m : list (list R)) : list R :=
  map (fun i => nth i (nth i m []) 0) (seq 0 (length m)).

(** Forward substitution with a lower-triangular system. *)
Fixpoint forward_subst (l : list (list R)) (b acc : list R) : list R :=
  match l, b with
  | li :: l', bi :: b' =>
      forward_subst l' b' (acc ++ [(bi - dotv acc li) / nth (length acc) li 0])
  | _, _ => acc
  end.

Definition backward_subst (u : list (list R)) (y : list R) : list R :=
  rev (forward_subst (map (@rev R) (rev u)) (rev y) []).

(** The solution [x] of [u^T u x = b], column by column, that
    [torch.potrs(b, u)] returns when no diagonal entry of [u] is zero. *)
Definition cholesky_solve (b u : tensor) : tensor :=
  let um := rows u in
  Mat (transpose
         (map (fun col => backward_subst um (forward_subst (transpose um) col []))
              (transpose (rows b)))).

(* ================================================================== *)
(** * Kernels *)
(* ================================================================== *)

(** The interface the deformation engine uses of a kernel object. *)
Record Kernel : Type := {
  kernel_width : R;
  convolve : tensor -> tensor -> tensor -> tensor;
  convolve_gradient : tensor -> tensor -> tensor;
  get_kernel_matrix : tensor -> tensor
}.

Definition squared_distance (x y : list R) : R :=
  sum_list (zip_with (fun a b => (a - b) * (a - b)) x y).

(** Modelled from the spec: the kernel classes of [support/kernels] are not
    part of the sources at hand.  The Gaussian radial basis function
    [K(x,y) = exp(-|x-y|^2 / width^2)]. *)
Definition gaussian (w : R) (x y : list R) : R :=
  exp (- squared_distance x y / (w * w)).

Fixpoint vsum (l : list (list R)) : list R :=
  match l with
  | [] => []
  | [v] => v
  | v :: vs => zip_with Rplus v (vsum vs)
  end.

(** Modelled from the spec: [convolve(query_points, source_points, weights)]
    is the vector field [sum_j K(x_i, y_j) w_j] sampled at the query points. *)
Definition gaussian_convolve (w : R) (x y p : tensor) : tensor :=
  Mat (map (fun xi =>
              vsum (zip_with (fun yj pj => map (Rmult (gaussian w xi yj)) pj)
                             (rows y) (rows p)))
           (rows x)).

(** Modelled from the spec: [convolve_gradient(weights, points)] is the
    gradient of the quadratic form [sum_ij w_i . K(x_i,x_j) . w_j] with respect
    to the points. *)
Definition gaussian_convolve_gradient (w : R) (p x : tensor) : tensor :=
  Mat (zip_with
         (fun pi xi =>
            vsum (zip_with
                    (fun pj xj =>
                       map (Rmult (2 * dotv pi pj * (- 2 / (w * w)) * gaussian w xi xj))
                           (zip_with Rminus xi xj))
                    (rows p) (rows x)))
         (rows p) (rows x)).

(** Modelled from the spec: the Gram matrix [K(x_i, x_j)] of a point set. *)
Definition gaussian_kernel_matrix (w : R) (x : tensor) : tensor :=
  Mat (map (fun xi => map (gaussian w xi) (rows x)) (rows x)).

(** Modelled from the spec: [create_kernel('exact', width)], the dense
    Gaussian kernel. *)
Definition create_kernel_exact (w : R) : Kernel :=
  {| kernel_width := w;
     convolve := gaussian_convolve w;
     convolve_gradient := gaussian_convolve_gradient w;
     get_kernel_matrix := gaussian_kernel_matrix w |}.

(* ================================================================== *)
(** * Python computations: exceptions, warnings, mutable objects *)
(* ================================================================== *)

Inductive exn : Type :=
| AssertionError
| ZeroDivisionError
| TypeError
| AttributeError
| IndexError
| RuntimeError
| NonFinite.

(** [NonFinite] is no exception of Python.  A division of tensors or of
    [numpy] numbers by zero raises nothing: it gives an infinity or a NaN, and
    the code carries on with it.  The numbers of this development are real
    numbers; a run that produces such a value is followed no further and
    ends with [Raise NonFinite], about which nothing is stated below.  The one
    case followed to its end is the NaN that fails the assertion of
    [parallel_transport], every comparison with a NaN being false. *)

Inductive outcome (A : Type) : Type :=
| Ok (a : A)
| Raise (e : exn).

Arguments Ok {A} a.
Arguments Raise {A} e.

(** The quotient [x / y] of two floating-point numbers held by tensors or
    by [numpy]: a zero divisor gives a NaN for a zero dividend and an
    infinity otherwise. *)
Inductive quotient : Type :=
| Finite (x : R)
| Infinite
| NaN.

Definition divide (x y : R) : quotient :=
  if Req_dec_T y 0
  then if Req_dec_T x 0 then NaN else Infinite
  else Finite (x / y).

(** The messages handed to [warnings.warn], and the [RuntimeWarning] with
    which [numpy] reports a division by zero. *)
Inductive warning : Type :=
| NothingToFlow
| StaleNormRead
| LargeRenormalization (factor : quotient)
| NumpyRuntimeWarning
| GeodesicStaleTemplate
| GeodesicStaleTrajectory
| GeodesicStaleTransport.

(** A method on an object of class [S]: the outcome, the object as the
    call leaves it (also when it raises) and the warnings emitted. *)
Definition M (S A : Type) : Type := S -> outcome A * S * list warning.

Definition ret {S A : Type} (a : A) : M S A := fun s => (Ok a, s, []).

Definition bind {S A B : Type} (m : M S A) (f : A -> M S B) : M S B :=
  fun s =>
    match m s with
    | (Ok a, s1, w1) =>
        match f a s1 with
        | (r, s2, w2) => (r, s2, w1 ++ w2)
        end
    | (Raise e, s1, w1) => (Raise e, s1, w1)
    end.

Declare Scope py_scope.
Delimit Scope py_scope with py.
Notation "x <- c1 ;; c2" := (bind c1 (fun x => c2))
  (at level 100, c1 at next level, right associativity) : py_scope.
Notation "c1 ;; c2" := (bind c1 (fun _ => c2))
  (at level 100, right associativity) : py_scope.
Open Scope py_scope.

Definition raise {S A : Type} (e : exn) : M S A := fun s => (Raise e, s, []).
Definition warn {S : Type} (w : warning) : M S unit := fun s => (Ok tt, s, [w]).
Definition get {S : Type} : M S S := fun s => (Ok s, s, []).
Definition modify {S : Type} (f : S -> S) : M S unit := fun s => (Ok tt, f s, []).

(** [assert b]. *)
Definition assert {S : Type} (b : bool) : M S unit :=
  if b then ret tt else raise AssertionError.

(** Using an attribute that may still hold [None]. *)
Definition require {S A : Type} (e : exn) (o : option A) : M S A :=
  match o with
  | Some a => ret a
  | None => raise e
  end.

(** [for i in range(n)] threading the local variables [a]. *)
Fixpoint for_loop {S A : Type} (body : nat -> A -> M S A) (i n : nat) (a : A)
  : M S A :=
  match n with
  | O => ret a
  | Datatypes.S n' => a' <- body i a ;; for_loop body (Datatypes.S i) n' a'
  end.

Definition for_range {S A : Type} (n : nat) (body : nat -> A -> M S A) (a : A)
  : M S A :=
  for_loop body 0 n a.

Definition outcome_of {S A : Type} (x : outcome A * S * list warning) : outcome A :=
  fst (fst x).
Definition state_of {S A : Type} (x : outcome A * S * list warning) : S :=
  snd (fst x).
Definition warnings_of {S A : Type} (x : outcome A * S * list warning)
  : list warning :=
  snd x.

(** [l[i]] for a Python integer [i]: negative indices count from the end. *)
Definition py_index {S A : Type} (l : list A) (i : Z) : M S A :=
  let j := (if i <? 0 then Z.of_nat (length l) + i else i)%Z in
  if (j <? 0)%Z then raise IndexError
  else require IndexError (nth_error l (Z.to_nat j)).

(** Python's float division [x / y]. *)
Definition float_div {S : Type} (x y : R) : M S R :=
  if Req_dec_T y 0 then raise ZeroDivisionError else ret (x / y).

Definition Rltb (x y : R) : bool := if Rlt_dec x y then true else false.
Definition Rleb (x y : R) : bool := if Rle_dec x y then true else false.
Definition Reqb (x y : R) : bool := if Req_dec_T x y then true else false.

(** A quotient the code goes on computing with. *)
Definition finite {S : Type} (q : quotient) : M S R :=
  match q with
  | Finite x => ret x
  | Infinite | NaN => raise NonFinite
  end.

(** [torch.potrf] goes through when every pivot is positive, and raises
    otherwise: the matrix is not positive definite. *)
Definition positive_definite (a : tensor) : bool :=
  forallb (Rltb 0) (chol_pivots [] (rows a)).

(** [torch.potrf(a)]. *)
Definition potrf {S : Type} (a : tensor) : M S tensor :=
  if positive_definite a then ret (cholesky_factor a) else raise RuntimeError.

(** [torch.potrs] divides by the diagonal entries of the factor. *)
Definition nonsingular (u : tensor) : bool :=
  forallb (fun x => negb (Reqb x 0)) (diagonal (rows u)).

(** [torch.potrs(b, u)]. *)
Definition potrs {S : Type} (b u : tensor) : M S tensor :=
  if nonsingular u then ret (cholesky_solve b u) else raise NonFinite.

(** Truth value of an attribute that holds [None] or a Boolean. *)
Definition truthy (o : option bool) : bool :=
  match o with
  | Some b => b
  | None => false
  end.

Definition is_some {A : Type} (o : option A) : bool :=
  match o with
  | Some _ => true
  | None => false
  end.

(* ================================================================== *)
(** * Exponential *)
(* ================================================================== *)

Module Exponential.

Record t : Type := {
  kernel : option Kernel;
  number_of_time_points : option Z;
  initial_control_points : option tensor;
  control_points_t : option (list tensor);
  initial_momenta : option tensor;
  momenta_t : option (list tensor);
  initial_template_data : option tensor;
  template_data_t : option (list tensor);
  shoot_is_modified : bool;
  flow_is_modified : bool;
  use_rk2 : option bool;
  norm_squared : option R;
  cholesky_kernel_matrices : list tensor
}.

(** [Exponential.__init__]. *)
Definition init : t :=
  {| kernel := None;
     number_of_time_points := None;
     initial_control_points := None;
     control_points_t := None;
     initial_momenta := None;
     momenta_t := None;
     initial_template_data := None;
     template_data_t := None;
     shoot_is_modified := true;
     flow_is_modified := true;
     use_rk2 := None;
     norm_squared := None;
     cholesky_kernel_matrices := [] |}.

(** Attribute assignments [self.x = v]. *)
Definition with_kernel (v : option Kernel) (e : t) : t :=
  {| kernel := v;
     number_of_time_points := number_of_time_points e;
     initial_control_points := initial_control_points e;
     control_points_t := control_points_t e;
     initial_momenta := initial_momenta e;
     momenta_t := momenta_t e;
     initial_template_data := initial_template_data e;
     template_data_t := template_data_t e;
     shoot_is_modified := shoot_is_modified e;
     flow_is_modified := flow_is_modified e;
     use_rk2 := use_rk2 e;
     norm_squared := norm_squared e;
     cholesky_kernel_matrices := cholesky_kernel_matrices e |}.

Definition with_number_of_time_points (v : option Z) (e : t)
  : t :=
  {| kernel := kernel e;
     number_of_time_points := v;
     initial_control_points := initial_control_points e;
     control_points_t := control_points_t e;
     initial_momenta := initial_momenta e;
     momenta_t := momenta_t e;
     initial_template_data := initial_template_data e;
     template_data_t := template_data_t e;
     shoot_is_modified := shoot_is_modified e;
     flow_is_modified := flow_is_modified e;
     use_rk2 := use_rk2 e;
     norm_squared := norm_squared e;
     cholesky_kernel_matrices := cholesky_kernel_matrices e |}.

Definition with_initial_control_points (v : option tensor) (e : t)
  : t :=
  {| kernel := kernel e;
     number_of_time_points := number_of_time_points e;
     initial_control_points := v;
     control_points_t := control_points_t e;
     initial_momenta := initial_momenta e;
     momenta_t := momenta_t e;
     initial_template_data := initial_template_data e;
     template_data_t := template_data_t e;
     shoot_is_modified := shoot_is_modified e;
     flow_is_modified := flow_is_modified e;
     use_rk2 := use_rk2 e;
     norm_squared := norm_squared e;
     cholesky_kernel_matrices := cholesky_kernel_matrices e |}.

Definition with_control_points_t (v : option (list tensor)) (e : t)
  : t :=
  {| kernel := kernel e;
     number_of_time_points := number_of_time_points e;
     initial_control_points := initial_control_points e;
     control_points_t := v;
     initial_momenta := initial_momenta e;
     momenta_t := momenta_t e;
     initial_template_data := initial_template_data e;
     template_data_t := template_data_t e;
     shoot_is_modified := shoot_is_modified e;
     flow_is_modified := flow_is_modified e;
     use_rk2 := use_rk2 e;
     norm_squared := norm_squared e;
     cholesky_kernel_matrices := cholesky_kernel_matrices e |}.

Definition with_initial_momenta (v : option tensor) (e : t)
  : t :=
  {| kernel := kernel e;
     number_of_time_points := number_of_time_points e;
     initial_control_points := initial_control_points e;
     control_points_t := control_points_t e;
     initial_momenta := v;
     momenta_t := momenta_t e;
     initial_template_data := initial_template_data e;
     template_data_t := template_data_t e;
     shoot_is_modified := shoot_is_modified e;
     flow_is_modified := flow_is_modified e;
     use_rk2 := use_rk2 e;
     norm_squared := norm_squared e;
     cholesky_kernel_matrices := cholesky_kernel_matrices e |}.

Definition with_momenta_t (v : option (list tensor)) (e : t)
  : t :=
  {| kernel := kernel e;
     number_of_time_points := number_of_time_points e;
     initial_control_points := initial_control_points e;
     control_points_t := control_points_t e;
     initial_momenta := initial_momenta e;
     momenta_t := v;
     initial_template_data := initial_template_data e;
     template_data_t := template_data_t e;
     shoot_is_modified := shoot_is_modified e;
     flow_is_modified := flow_is_modified e;
     use_rk2 := use_rk2 e;
     norm_squared := norm_squared e;
     cholesky_kernel_matrices := cholesky_kernel_matrices e |}.

Definition with_initial_template_data (v : option tensor) (e : t)
  : t :=
  {| kernel := kernel e;
     number_of_time_points := number_of_time_points e;
     initial_control_points := initial_control_points e;
     control_points_t := control_points_t e;
     initial_momenta := initial_momenta e;
     momenta_t := momenta_t e;
     initial_template_data := v;
     template_data_t := template_data_t e;
     shoot_is_modified := shoot_is_modified e;
     flow_is_modified := flow_is_modified e;
     use_rk2 := use_rk2 e;
     norm_squared := norm_squared e;
     cholesky_kernel_matrices := cholesky_kernel_matrices e |}.

Definition with_template_data_t (v : option (list tensor)) (e : t)
  : t :=
  {| kernel := kernel e;
     number_of_time_points := number_of_time_points e;
     initial_control_points := initial_control_points e;
     control_points_t := control_points_t e;
     initial_momenta := initial_momenta e;
     momenta_t := momenta_t e;
     initial_template_data := initial_template_data e;
     template_data_t := v;
     shoot_is_modified := shoot_is_modified e;
     flow_is_modified := flow_is_modified e;
     use_rk2 := use_rk2 e;
     norm_squared := norm_squared e;
     cholesky_kernel_matrices := cholesky_kernel_matrices e |}.

Definition with_shoot_is_modified (v : bool) (e : t) : t :=
  {| kernel := kernel e;
     number_of_time_points := number_of_time_points e;
     initial_control_points := initial_control_points e;
     control_points_t := control_points_t e;
     initial_momenta := initial_momenta e;
     momenta_t := momenta_t e;
     initial_template_data := initial_template_data e;
     template_data_t := template_data_t e;
     shoot_is_modified := v;
     flow_is_modified := flow_is_modified e;
     use_rk2 := use_rk2 e;
     norm_squared := norm_squared e;
     cholesky_kernel_matrices := cholesky_kernel_matrices e |}.

Definition with_flow_is_modified (v : bool) (e : t) : t :=
  {| kernel := kernel e;
     number_of_time_points := number_of_time_points e;
     initial_control_points := initial_control_points e;
     control_points_t := control_points_t e;
     initial_momenta := initial_momenta e;
     momenta_t := momenta_t e;
     initial_template_data := initial_template_data e;
     template_data_t := template_data_t e;
     shoot_is_modified := shoot_is_modified e;
     flow_is_modified := v;
     use_rk2 := use_rk2 e;
     norm_squared := norm_squared e;
     cholesky_kernel_matrices := cholesky_kernel_matrices e |}.

Definition with_use_rk2 (v : option bool) (e : t) : t :=
  {| kernel := kernel e;
     number_of_time_points := number_of_time_points e;
     initial_control_points := initial_control_points e;
     control_points_t := control_points_t e;
     initial_momenta := initial_momenta e;
     momenta_t := momenta_t e;
     initial_template_data := initial_template_data e;
     template_data_t := template_data_t e;
     shoot_is_modified := shoot_is_modified e;
     flow_is_modified := flow_is_modified e;
     use_rk2 := v;
     norm_squared := norm_squared e;
     cholesky_kernel_matrices := cholesky_kernel_matrices e |}.

Definition with_norm_squared (v : option R) (e : t) : t :=
  {| kernel := kernel e;
     number_of_time_points := number_of_time_points e;
     initial_control_points := initial_control_points e;
     control_points_t := control_points_t e;
     initial_momenta := initial_momenta e;
     momenta_t := momenta_t e;
     initial_template_data := initial_template_data e;
     template_data_t := template_data_t e;
     shoot_is_modified := shoot_is_modified e;
     flow_is_modified := flow_is_modified e;
     use_rk2 := use_rk2 e;
     norm_squared := v;
     cholesky_kernel_matrices := cholesky_kernel_matrices e |}.

Definition with_cholesky_kernel_matrices (v : list tensor) (e : t)
  : t :=
  {| kernel := kernel e;
     number_of_time_points := number_of_time_points e;
     initial_control_points := initial_control_points e;
     control_points_t := control_points_t e;
     initial_momenta := initial_momenta e;
     momenta_t := momenta_t e;
     initial_template_data := initial_template_data e;
     template_data_t := template_data_t e;
     shoot_is_modified := shoot_is_modified e;
     flow_is_modified := flow_is_modified e;
     use_rk2 := use_rk2 e;
     norm_squared := norm_squared e;
     cholesky_kernel_matrices := v |}.

(* ------------------------------------------------------------------ *)
(** ** Encapsulation methods *)

Definition set_use_rk2 (b : option bool) : M t unit :=
  modify (with_shoot_is_modified true) ;;
  modify (with_use_rk2 b).

Definition set_kernel (k : option Kernel) : M t unit :=
  modify (with_kernel k).

Definition set_initial_template_data (td : option tensor) : M t unit :=
  modify (with_initial_template_data td) ;;
  modify (with_flow_is_modified true).

Definition set_initial_control_points (cps : option tensor) : M t unit :=
  modify (with_shoot_is_modified true) ;;
  modify (with_initial_control_points cps).

Definition set_initial_momenta (mom : option tensor) : M t unit :=
  modify (with_shoot_is_modified true) ;;
  modify (with_initial_momenta mom).

(** [get_template_data(time_index=None)]. *)
Definition get_template_data (time_index : option Z) : M t tensor :=
  e <- get ;;
  (if flow_is_modified e then assert false else ret tt) ;;
  tdt <- require TypeError (template_data_t e) ;;
  match time_index with
  | None => py_index tdt (-1)
  | Some i => py_index tdt i
  end.

Definition get_norm_squared : M t (option R) :=
  e <- get ;;
  (if shoot_is_modified e then warn StaleNormRead else ret tt) ;;
  ret (norm_squared e).

(* ------------------------------------------------------------------ *)
(** ** Integration steps *)

(** [_euler_step(cp, mom, h)]. *)
Definition _euler_step (k : Kernel) (cp mom : tensor) (h : R) : tensor * tensor :=
  (tadd cp (smul h (convolve k cp cp mom)),
   tsub mom (smul h (convolve_gradient k mom cp))).

(** [_rk2_step(cp, mom, h, return_mom)]: the momenta at [t+h] are computed
    only when asked for. *)
Definition _rk2_step (k : Kernel) (cp mom : tensor) (h : R) (return_mom : bool)
  : tensor * option tensor :=
  let mid_cp := tadd cp (smul (h / 2) (convolve k cp cp mom)) in
  let mid_mom := tsub mom (smul (h / 2) (convolve_gradient k mom cp)) in
  if return_mom
  then (tadd cp (smul h (convolve k mid_cp mid_cp mid_mom)),
        Some (tsub mom (smul h (convolve_gradient k mid_mom mid_cp))))
  else (tadd cp (smul h (convolve k mid_cp mid_cp mid_mom)), None).

Definition append_control_points (x : tensor) : M t unit :=
  e <- get ;;
  l <- require AttributeError (control_points_t e) ;;
  modify (with_control_points_t (Some (l ++ [x]))).

Definition append_momenta (x : tensor) : M t unit :=
  e <- get ;;
  l <- require AttributeError (momenta_t e) ;;
  modify (with_momenta_t (Some (l ++ [x]))).

Definition append_template_data (x : tensor) : M t unit :=
  e <- get ;;
  l <- require AttributeError (template_data_t e) ;;
  modify (with_template_data_t (Some (l ++ [x]))).

(** [self.template_data_t[-1] = x]. *)
Definition replace_last_template_data (x : tensor) : M t unit :=
  e <- get ;;
  l <- require TypeError (template_data_t e) ;;
  match l with
  | [] => raise IndexError
  | _ => modify (with_template_data_t (Some (removelast l ++ [x])))
  end.

Definition control_points_at (i : nat) : M t tensor :=
  e <- get ;;
  l <- require TypeError (control_points_t e) ;;
  py_index l (Z.of_nat i).

Definition momenta_at (i : nat) : M t tensor :=
  e <- get ;;
  l <- require TypeError (momenta_t e) ;;
  py_index l (Z.of_nat i).

Definition template_data_at (i : Z) : M t tensor :=
  e <- get ;;
  l <- require TypeError (template_data_t e) ;;
  py_index l i.

Definition the_kernel : M t Kernel :=
  e <- get ;;
  require AttributeError (kernel e).

Definition time_points : M t Z :=
  e <- get ;;
  require TypeError (number_of_time_points e).

(** The body of the loop of [_shoot]. *)
Definition shoot_step (dt : R) (i : nat) (_ : unit) : M t unit :=
  e <- get ;;
  cp <- control_points_at i ;;
  mom <- momenta_at i ;;
  k <- the_kernel ;;
  (if truthy (use_rk2 e)
   then match _rk2_step k cp mom dt true with
        | (new_cp, Some new_mom) =>
            append_control_points new_cp ;; append_momenta new_mom
        | (_, None) => raise TypeError
        end
   else let (new_cp, new_mom) := _euler_step k cp mom dt in
        append_control_points new_cp ;; append_momenta new_mom).

(** [_shoot]: the flow of momenta and control points. *)
Definition _shoot : M t unit :=
  e <- get ;;
  cps <- require TypeError (initial_control_points e) ;;
  assert (0 <? len cps)%nat ;;
  mom <- require TypeError (initial_momenta e) ;;
  assert (0 <? len mom)%nat ;;
  modify (with_control_points_t (Some [])) ;;
  modify (with_momenta_t (Some [])) ;;
  append_control_points cps ;;
  append_momenta mom ;;
  T <- time_points ;;
  dt <- float_div 1 (IZR (T - 1)) ;;
  for_range (Z.to_nat (T - 1)) (shoot_step dt) tt ;;
  k <- the_kernel ;;
  modify (with_norm_squared
            (Some (dotv (view1 mom) (view1 (convolve k cps cps mom))))).

(** The body of the loop of [_flow]. *)
Definition flow_step (dt : R) (i : nat) (_ : unit) : M t unit :=
  e <- get ;;
  k <- the_kernel ;;
  x <- template_data_at (Z.of_nat i) ;;
  cp <- control_points_at i ;;
  mom <- momenta_at i ;;
  let d_pos := convolve k x cp mom in
  append_template_data (tadd x (smul dt d_pos)) ;;
  (if truthy (use_rk2 e)
   then y <- template_data_at (-1) ;;
        cp' <- control_points_at (i + 1) ;;
        mom' <- momenta_at (i + 1) ;;
        replace_last_template_data
          (tadd x (smul (dt / 2) (tadd (convolve k y cp' mom') d_pos)))
   else ret tt).

(** [_flow]: the trajectory of the landmark points. *)
Definition _flow : M t unit :=
  e <- get ;;
  assert (negb (shoot_is_modified e)) ;;
  cpt <- require TypeError (control_points_t e) ;;
  assert (0 <? length cpt)%nat ;;
  momt <- require TypeError (momenta_t e) ;;
  assert (0 <? length momt)%nat ;;
  T <- time_points ;;
  dt <- float_div 1 (IZR (T - 1)) ;;
  td <- require TypeError (initial_template_data e) ;;
  modify (with_template_data_t (Some [])) ;;
  append_template_data td ;;
  for_range (Z.to_nat (T - 1)) (flow_step dt) tt.

(** The flowing part shared by the two branches of [update]. *)
Definition flow_if_template : M t unit :=
  e <- get ;;
  if is_some (initial_template_data e)
  then _flow ;; modify (with_flow_is_modified false)
  else warn NothingToFlow.

(** [update]: shoot and flow, depending on what is needed. *)
Definition update : M t unit :=
  T <- time_points ;;
  assert (0 <? T)%Z ;;
  e <- get ;;
  (if shoot_is_modified e
   then modify (with_cholesky_kernel_matrices []) ;;
        _shoot ;;
        modify (with_shoot_is_modified false) ;;
        flow_if_template
   else ret tt) ;;
  e' <- get ;;
  (if flow_is_modified e' then flow_if_template else ret tt).

(* ------------------------------------------------------------------ *)
(** ** Parallel transport *)

(** [self.get_norm_squared()] used as a divisor. *)
Definition norm_squared_value : M t R :=
  ns <- get_norm_squared ;;
  require TypeError ns.

Definition append_cholesky (c : tensor) : M t unit :=
  e <- get ;;
  modify (with_cholesky_kernel_matrices (cholesky_kernel_matrices e ++ [c])).

(** The cotangent version of [approx_velocity] at step [i]: with the stored
    Cholesky factor when the store is complete, otherwise with a factor
    computed and stored now. *)
Definition cotangent (exact : Kernel) (i : nat) (approx_velocity : tensor)
  : M t tensor :=
  e <- get ;;
  T <- time_points ;;
  if (Z.of_nat (length (cholesky_kernel_matrices e)) =? T - 1)%Z
  then c <- py_index (cholesky_kernel_matrices e) (Z.of_nat i) ;;
       potrs approx_velocity c
  else cp' <- control_points_at (i + 1) ;;
       let kernel_matrix := get_kernel_matrix exact cp' in
       cholesky_kernel_matrix <- potrf kernel_matrix ;;
       append_cholesky cholesky_kernel_matrix ;;
       x <- potrs approx_velocity cholesky_kernel_matrix ;;
       ret (squeeze x).

(** The warning about a large renormalization: the factor is a quotient
    of [numpy] numbers, which [numpy] reports where the divisor is zero; an
    infinite factor is large, and a NaN passes the comparison unnoticed. *)
Definition renormalization_check (norm_approx_momenta initial_norm : R)
  : M t unit :=
  match divide norm_approx_momenta initial_norm with
  | Finite f =>
      if Rltb 0.02 (Rabs (f - 1))
      then warn (LargeRenormalization (Finite f))
      else ret tt
  | Infinite =>
      warn NumpyRuntimeWarning ;; warn (LargeRenormalization Infinite)
  | NaN => warn NumpyRuntimeWarning
  end.

(** The body of the loop of [parallel_transport]; [pt] is
    [parallel_transport_t]. *)
Definition transport_step (exact : Kernel) (h epsilon initial_norm : R)
    (i : nat) (pt : list tensor) : M t (list tensor) :=
  cp <- control_points_at i ;;
  mom <- momenta_at i ;;
  last_pt <- py_index pt (-1) ;;
  k <- the_kernel ;;
  let cp_eps_pos := fst (_rk2_step k cp (tadd mom (smul epsilon last_pt)) h false) in
  let cp_eps_neg := fst (_rk2_step k cp (tsub mom (smul epsilon last_pt)) h false) in
  let approx_velocity := sdiv (tsub cp_eps_pos cp_eps_neg) (2 * epsilon * h) in
  approx_momenta <- cotangent exact i approx_velocity ;;
  cp' <- control_points_at (i + 1) ;;
  mom' <- momenta_at (i + 1) ;;
  ns <- norm_squared_value ;;
  scalar_prod_with_velocity <-
    finite (divide (dot approx_momenta (convolve exact cp' cp' mom')) ns) ;;
  let approx_momenta := isub approx_momenta (smul scalar_prod_with_velocity mom') in
  let norm_approx_momenta :=
    dot approx_momenta (convolve exact cp' cp' approx_momenta) in
  renormalization_check norm_approx_momenta initial_norm ;;
  (if Reqb norm_approx_momenta 0 then raise NonFinite else ret tt) ;;
  let renormalized_momenta :=
    sdiv (muls approx_momenta initial_norm) norm_approx_momenta in
  ret (pt ++ [renormalized_momenta]).

(** [[pt[i] + sp * self.momenta_t[i] for i in range(T)]]. *)
Definition add_tangential (sp : R) (pt : list tensor) (i : nat)
    (acc : list tensor) : M t (list tensor) :=
  x <- py_index pt (Z.of_nat i) ;;
  mom <- momenta_at i ;;
  ret (acc ++ [tadd x (smul sp mom)]).

(** [parallel_transport(momenta_to_transport, with_tangential_component)].
    Where [sp] is a NaN, zero divided by a zero [norm_squared], every entry
    of the projection is a NaN and so is [sp_for_assert]: the assertion on
    it fails, nothing having changed. *)
Definition parallel_transport (momenta_to_transport : tensor)
    (with_tangential_component : bool) : M t (list tensor) :=
  e <- get ;;
  assert (negb (shoot_is_modified e)) ;;
  imom <- require AttributeError (initial_momenta e) ;;
  assert (size_eqb (size momenta_to_transport) (size imom)) ;;
  k <- the_kernel ;;
  let exact := create_kernel_exact (kernel_width k) in
  T <- time_points ;;
  h <- float_div 1 (IZR T - 1) ;;
  let epsilon := h in
  icp <- require TypeError (initial_control_points e) ;;
  ns <- norm_squared_value ;;
  sp <- match divide (dot momenta_to_transport (convolve exact icp icp imom)) ns with
        | Finite sp => ret sp
        | NaN => raise AssertionError
        | Infinite => raise NonFinite
        end ;;
  let momenta_to_transport_orthogonal := tsub momenta_to_transport (smul sp imom) in
  ns' <- norm_squared_value ;;
  orthogonal <-
    match divide (dot momenta_to_transport_orthogonal
                      (convolve exact icp icp imom)) ns' with
    | Finite sp_for_assert => ret (Rltb sp_for_assert 1e-5)
    | NaN => warn NumpyRuntimeWarning ;; ret false
    | Infinite => raise NonFinite
    end ;;
  assert orthogonal ;;
  let initial_norm :=
    dot momenta_to_transport_orthogonal
        (convolve exact icp icp momenta_to_transport_orthogonal) in
  pt <- for_range (Z.to_nat (T - 1))
                  (transport_step exact h epsilon initial_norm)
                  [momenta_to_transport_orthogonal] ;;
  e' <- get ;;
  momt <- require TypeError (momenta_t e') ;;
  assert (length pt =? length momt)%nat ;;
  if with_tangential_component
  then for_range (Z.to_nat T) (add_tangential sp pt) []
  else ret pt.

End Exponential.

(* ================================================================== *)
(** * Geodesic *)
(* ================================================================== *)

(** Python's [int(x)] on a float: truncation towards zero. *)
Definition py_int (x : R) : Z :=
  if Rle_dec 0 x then Zfloor x else Zceil x.

(** Python's [round(x)]: the nearest integer, a tie going to the even one. *)
Definition py_round (x : R) : Z :=
  let f := Zfloor x in
  if Rlt_dec (x - IZR f) (1 / 2) then f
  else if Rlt_dec (1 / 2) (x - IZR f) then (f + 1)%Z
  else if Z.even f then f else (f + 1)%Z.

(** [np.linspace(start, stop, num).tolist()]. *)
Definition linspace (start stop : R) (num : nat) : list R :=
  match num with
  | O => []
  | 1%nat => [start]
  | Datatypes.S n =>
      map (fun i => INR i * ((stop - start) / INR n) + start) (seq 0 n) ++ [stop]
  end.

(** The index of the first least element, scanning from position [i]. *)
Fixpoint argmin_from (best_i : nat) (best : R) (i : nat) (l : list R) : nat :=
  match l with
  | [] => best_i
  | x :: l' =>
      if Rlt_dec x best then argmin_from i x (Datatypes.S i) l'
      else argmin_from best_i best (Datatypes.S i) l'
  end.

(** The index [torch.min(v, 0)] returns; an empty tensor has none. *)
Definition argmin (l : list R) : option nat :=
  match l with
  | [] => None
  | x :: l' => Some (argmin_from 0 x 1 l')
  end.

Module Geodesic.

Record t : Type := {
  concentration_of_time_points : option R;
  t0 : option R;
  tmax : option R;
  tmin : option R;
  control_points_t0 : option tensor;
  momenta_t0 : option tensor;
  template_data_t0 : option tensor;
  backward_exponential : Exponential.t;
  forward_exponential : Exponential.t;
  shoot_is_modified : bool;
  flow_is_modified : bool
}.

(** [Geodesic.__init__]. *)
Definition init : t :=
  {| concentration_of_time_points := None;
     t0 := None;
     tmax := None;
     tmin := None;
     control_points_t0 := None;
     momenta_t0 := None;
     template_data_t0 := None;
     backward_exponential := Exponential.init;
     forward_exponential := Exponential.init;
     shoot_is_modified := true;
     flow_is_modified := true |}.

Definition with_concentration_of_time_points (v : option R) (g : t) : t :=
  {| concentration_of_time_points := v;
     t0 := t0 g; tmax := tmax g; tmin := tmin g;
     control_points_t0 := control_points_t0 g;
     momenta_t0 := momenta_t0 g;
     template_data_t0 := template_data_t0 g;
     backward_exponential := backward_exponential g;
     forward_exponential := forward_exponential g;
     shoot_is_modified := shoot_is_modified g;
     flow_is_modified := flow_is_modified g |}.

Definition with_t0 (v : option R) (g : t) : t :=
  {| concentration_of_time_points := concentration_of_time_points g;
     t0 := v; tmax := tmax g; tmin := tmin g;
     control_points_t0 := control_points_t0 g;
     momenta_t0 := momenta_t0 g;
     template_data_t0 := template_data_t0 g;
     backward_exponential := backward_exponential g;
     forward_exponential := forward_exponential g;
     shoot_is_modified := shoot_is_modified g;
     flow_is_modified := flow_is_modified g |}.

Definition with_tmax (v : option R) (g : t) : t :=
  {| concentration_of_time_points := concentration_of_time_points g;
     t0 := t0 g; tmax := v; tmin := tmin g;
     control_points_t0 := control_points_t0 g;
     momenta_t0 := momenta_t0 g;
     template_data_t0 := template_data_t0 g;
     backward_exponential := backward_exponential g;
     forward_exponential := forward_exponential g;
     shoot_is_modified := shoot_is_modified g;
     flow_is_modified := flow_is_modified g |}.

Definition with_tmin (v : option R) (g : t) : t :=
  {| concentration_of_time_points := concentration_of_time_points g;
     t0 := t0 g; tmax := tmax g; tmin := v;
     control_points_t0 := control_points_t0 g;
     momenta_t0 := momenta_t0 g;
     template_data_t0 := template_data_t0 g;
     backward_exponential := backward_exponential g;
     forward_exponential := forward_exponential g;
     shoot_is_modified := shoot_is_modified g;
     flow_is_modified := flow_is_modified g |}.

Definition with_control_points_t0 (v : option tensor) (g : t) : t :=
  {| concentration_of_time_points := concentration_of_time_points g;
     t0 := t0 g; tmax := tmax g; tmin := tmin g;
     control_points_t0 := v;
     momenta_t0 := momenta_t0 g;
     template_data_t0 := template_data_t0 g;
     backward_exponential := backward_exponential g;
     forward_exponential := forward_exponential g;
     shoot_is_modified := shoot_is_modified g;
     flow_is_modified := flow_is_modified g |}.

Definition with_momenta_t0 (v : option tensor) (g : t) : t :=
  {| concentration_of_time_points := concentration_of_time_points g;
     t0 := t0 g; tmax := tmax g; tmin := tmin g;
     control_points_t0 := control_points_t0 g;
     momenta_t0 := v;
     template_data_t0 := template_data_t0 g;
     backward_exponential := backward_exponential g;
     forward_exponential := forward_exponential g;
     shoot_is_modified := shoot_is_modified g;
     flow_is_modified := flow_is_modified g |}.

Definition with_template_data_t0 (v : option tensor) (g : t) : t :=
  {| concentration_of_time_points := concentration_of_time_points g;
     t0 := t0 g; tmax := tmax g; tmin := tmin g;
     control_points_t0 := control_points_t0 g;
     momenta_t0 := momenta_t0 g;
     template_data_t0 := v;
     backward_exponential := backward_exponential g;
     forward_exponential := forward_exponential g;
     shoot_is_modified := shoot_is_modified g;
     flow_is_modified := flow_is_modified g |}.

Definition with_backward_exponential (v : Exponential.t) (g : t) : t :=
  {| concentration_of_time_points := concentration_of_time_points g;
     t0 := t0 g; tmax := tmax g; tmin := tmin g;
     control_points_t0 := control_points_t0 g;
     momenta_t0 := momenta_t0 g;
     template_data_t0 := template_data_t0 g;
     backward_exponential := v;
     forward_exponential := forward_exponential g;
     shoot_is_modified := shoot_is_modified g;
     flow_is_modified := flow_is_modified g |}.

Definition with_forward_exponential (v : Exponential.t) (g : t) : t :=
  {| concentration_of_time_points := concentration_of_time_points g;
     t0 := t0 g; tmax := tmax g; tmin := tmin g;
     control_points_t0 := control_points_t0 g;
     momenta_t0 := momenta_t0 g;
     template_data_t0 := template_data_t0 g;
     backward_exponential := backward_exponential g;
     forward_exponential := v;
     shoot_is_modified := shoot_is_modified g;
     flow_is_modified := flow_is_modified g |}.

Definition with_shoot_is_modified (v : bool) (g : t) : t :=
  {| concentration_of_time_points := concentration_of_time_points g;
     t0 := t0 g; tmax := tmax g; tmin := tmin g;
     control_points_t0 := control_points_t0 g;
     momenta_t0 := momenta_t0 g;
     template_data_t0 := template_data_t0 g;
     backward_exponential := backward_exponential g;
     forward_exponential := forward_exponential g;
     shoot_is_modified := v;
     flow_is_modified := flow_is_modified g |}.

Definition with_flow_is_modified (v : bool) (g : t) : t :=
  {| concentration_of_time_points := concentration_of_time_points g;
     t0 := t0 g; tmax := tmax g; tmin := tmin g;
     control_points_t0 := control_points_t0 g;
     momenta_t0 := momenta_t0 g;
     template_data_t0 := template_data_t0 g;
     backward_exponential := backward_exponential g;
     forward_exponential := forward_exponential g;
     shoot_is_modified := shoot_is_modified g;
     flow_is_modified := v |}.

(** A method call on [self.backward_exponential]. *)
Definition on_backward {A : Type} (m : M Exponential.t A) : M t A :=
  fun g =>
    match m (backward_exponential g) with
    | (r, e, w) => (r, with_backward_exponential e g, w)
    end.

(** A method call on [self.forward_exponential]. *)
Definition on_forward {A : Type} (m : M Exponential.t A) : M t A :=
  fun g =>
    match m (forward_exponential g) with
    | (r, e, w) => (r, with_forward_exponential e g, w)
    end.

(* ------------------------------------------------------------------ *)
(** ** Encapsulation methods *)

Definition set_use_rk2 (b : option bool) : M t unit :=
  on_backward (Exponential.set_use_rk2 b) ;;
  on_forward (Exponential.set_use_rk2 b).

Definition set_kernel (k : option Kernel) : M t unit :=
  on_backward (modify (Exponential.with_kernel k)) ;;
  on_forward (modify (Exponential.with_kernel k)).

Definition set_t0 (v : option R) : M t unit :=
  modify (with_t0 v) ;; modify (with_shoot_is_modified true).

Definition set_tmin (v : option R) : M t unit :=
  modify (with_tmin v) ;; modify (with_shoot_is_modified true).

Definition set_tmax (v : option R) : M t unit :=
  modify (with_tmax v) ;; modify (with_shoot_is_modified true).

Definition set_template_data_t0 (td : option tensor) : M t unit :=
  modify (with_template_data_t0 td) ;; modify (with_flow_is_modified true).

Definition set_control_points_t0 (cp : option tensor) : M t unit :=
  modify (with_control_points_t0 cp) ;; modify (with_shoot_is_modified true).

Definition set_momenta_t0 (mom : option tensor) : M t unit :=
  modify (with_momenta_t0 mom) ;; modify (with_shoot_is_modified true).

(* ------------------------------------------------------------------ *)
(** ** Private methods *)

(** [exponential.number_of_time_points > 1]. *)
Definition more_than_one_point (e : Exponential.t) : M t bool :=
  n <- require TypeError (Exponential.number_of_time_points e) ;;
  ret (1 <? n)%Z.

Definition _get_times : M t (list R) :=
  g <- get ;;
  bwd <- more_than_one_point (backward_exponential g) ;;
  times_backward <-
    (if bwd
     then a <- require TypeError (t0 g) ;;
          b <- require TypeError (tmin g) ;;
          n <- require TypeError
                 (Exponential.number_of_time_points (backward_exponential g)) ;;
          ret (linspace a b (Z.to_nat n))
     else ret []) ;;
  fwd <- more_than_one_point (forward_exponential g) ;;
  times_forward <-
    (if fwd
     then a <- require TypeError (t0 g) ;;
          b <- require TypeError (tmax g) ;;
          n <- require TypeError
                 (Exponential.number_of_time_points (forward_exponential g)) ;;
          ret (linspace a b (Z.to_nat n))
     else ret []) ;;
  ret (rev times_backward ++ tl times_forward).

Definition _get_control_points_trajectory : M t (list tensor) :=
  g <- get ;;
  (if shoot_is_modified g then warn GeodesicStaleTrajectory else ret tt) ;;
  bwd <- more_than_one_point (backward_exponential g) ;;
  backward_control_points_t <-
    (if bwd
     then require TypeError (Exponential.control_points_t (backward_exponential g))
     else ret []) ;;
  fwd <- more_than_one_point (forward_exponential g) ;;
  forward_control_points_t <-
    (if fwd
     then require TypeError (Exponential.control_points_t (forward_exponential g))
     else ret []) ;;
  ret (rev backward_control_points_t ++ tl forward_control_points_t).

Definition _get_momenta_trajectory : M t (list tensor) :=
  g <- get ;;
  (if shoot_is_modified g then warn GeodesicStaleTrajectory else ret tt) ;;
  bwd <- more_than_one_point (backward_exponential g) ;;
  backward_momenta_t <-
    (if bwd
     then a <- require TypeError (t0 g) ;;
          b <- require TypeError (tmin g) ;;
          let backward_length := a - b in
          l <- require TypeError (Exponential.momenta_t (backward_exponential g)) ;;
          ret (map (fun elt => sdiv elt backward_length) l)
     else ret []) ;;
  fwd <- more_than_one_point (forward_exponential g) ;;
  forward_momenta_t <-
    (if fwd
     then b <- require TypeError (tmax g) ;;
          a <- require TypeError (t0 g) ;;
          let forward_length := b - a in
          l <- require TypeError (Exponential.momenta_t (forward_exponential g)) ;;
          ret (map (fun elt => sdiv elt forward_length) l)
     else ret []) ;;
  ret (rev backward_momenta_t ++ tl forward_momenta_t).

Definition _get_template_trajectory : M t (list tensor) :=
  g <- get ;;
  (if shoot_is_modified g || flow_is_modified g
   then warn GeodesicStaleTrajectory else ret tt) ;;
  bwd <- more_than_one_point (backward_exponential g) ;;
  backward_template_t <-
    (if bwd
     then require TypeError (Exponential.template_data_t (backward_exponential g))
     else ret []) ;;
  fwd <- more_than_one_point (forward_exponential g) ;;
  forward_template_t <-
    (if fwd
     then require TypeError (Exponential.template_data_t (forward_exponential g))
     else ret []) ;;
  ret (rev backward_template_t ++ tl forward_template_t).

(* ------------------------------------------------------------------ *)
(** ** Main methods *)

(** [get_template_data(time)], with the index it selected. *)
Definition get_template_data_with_index (time : R) : M t (tensor * nat) :=
  g <- get ;;
  lo <- require TypeError (tmin g) ;;
  hi <- require TypeError (tmax g) ;;
  assert (Rleb lo time && Rleb time hi) ;;
  (if shoot_is_modified g || flow_is_modified g
   then warn GeodesicStaleTemplate else ret tt) ;;
  times <- _get_times ;;
  index <- require RuntimeError
             (argmin (map (fun x => (x - time) * (x - time)) times)) ;;
  traj <- _get_template_trajectory ;;
  x <- py_index traj (Z.of_nat index) ;;
  ret (squeeze x, index).

Definition get_template_data (time : R) : M t tensor :=
  r <- get_template_data_with_index time ;;
  ret (fst r).

(** The set-up of one side in [update]: its number of time points, and
    its initial state where the geodesic was modified. *)
Definition number_of_points (delta_t concentration : R) : Z :=
  Z.max 1 (py_int (delta_t * concentration + 1.5)).

Definition update : M t unit :=
  g <- get ;;
  a <- require TypeError (t0 g) ;;
  lo <- require TypeError (tmin g) ;;
  assert (Rleb lo a) ;;
  hi <- require TypeError (tmax g) ;;
  assert (Rleb a hi) ;;
  (* Backward exponential *)
  let delta_t := a - lo in
  c <- require TypeError (concentration_of_time_points g) ;;
  on_backward (modify (Exponential.with_number_of_time_points
                         (Some (number_of_points delta_t c)))) ;;
  (if shoot_is_modified g
   then mom <- require TypeError (momenta_t0 g) ;;
        on_backward (Exponential.set_initial_momenta
                       (Some (muls (tneg mom) delta_t))) ;;
        on_backward (Exponential.set_initial_control_points (control_points_t0 g))
   else ret tt) ;;
  (if flow_is_modified g
   then on_backward (Exponential.set_initial_template_data (template_data_t0 g))
   else ret tt) ;;
  (if (1 <? number_of_points delta_t c)%Z
   then on_backward Exponential.update
   else ret tt) ;;
  (* Forward exponential *)
  let delta_t := hi - a in
  on_forward (modify (Exponential.with_number_of_time_points
                        (Some (number_of_points delta_t c)))) ;;
  (if shoot_is_modified g
   then mom <- require TypeError (momenta_t0 g) ;;
        on_forward (Exponential.set_initial_momenta (Some (muls mom delta_t))) ;;
        on_forward (Exponential.set_initial_control_points (control_points_t0 g))
   else ret tt) ;;
  (if flow_is_modified g
   then on_forward (Exponential.set_initial_template_data (template_data_t0 g))
   else ret tt) ;;
  (if (1 <? number_of_points delta_t c)%Z
   then on_forward Exponential.update
   else ret tt) ;;
  modify (with_shoot_is_modified false) ;;
  modify (with_flow_is_modified false).

Definition get_norm_squared : M t (option R) :=
  on_forward Exponential.get_norm_squared.

Definition parallel_transport (momenta_to_transport_t0 : tensor)
    (with_tangential_component : bool) : M t (list tensor) :=
  g <- get ;;
  (if shoot_is_modified g then warn GeodesicStaleTransport else ret tt) ;;
  bwd <- more_than_one_point (backward_exponential g) ;;
  backward_transport <-
    (if bwd
     then on_backward (Exponential.parallel_transport momenta_to_transport_t0
                                                      with_tangential_component)
     else ret []) ;;
  g' <- get ;;
  fwd <- more_than_one_point (forward_exponential g') ;;
  forward_transport <-
    (if fwd
     then on_forward (Exponential.parallel_transport momenta_to_transport_t0
                                                     with_tangential_component)
     else ret []) ;;
  ret (rev backward_transport ++ tl forward_transport).

End Geodesic.

(* ================================================================== *)
(** * Specification functions and predicates *)
(* ================================================================== *)

(** One step of the shooting loop under either integrator policy. *)
Definition shoot_next (k : Kernel) (rk2 : bool) (dt : R) (cp mom : tensor)
  : tensor * tensor :=
  if rk2
  then let mid_cp := tadd cp (smul (dt / 2) (convolve k cp cp mom)) in
       let mid_mom := tsub mom (smul (dt / 2) (convolve_gradient k mom cp)) in
       (tadd cp (smul dt (convolve k mid_cp mid_cp mid_mom)),
        tsub mom (smul dt (convolve_gradient k mid_mom mid_cp)))
  else (tadd cp (smul dt (convolve k cp cp mom)),
        tsub mom (smul dt (convolve_gradient k mom cp))).

(** The [n] states that follow [(cp, mom)]. *)
Fixpoint shoot_from (k : Kernel) (rk2 : bool) (dt : R) (n : nat) (cp mom : tensor)
  : list tensor * list tensor :=
  match n with
  | O => ([], [])
  | Datatypes.S n' =>
      let next := shoot_next k rk2 dt cp mom in
      let rest := shoot_from k rk2 dt n' (fst next) (snd next) in
      (fst next :: fst rest, snd next :: snd rest)
  end.

(** The trajectories that [_shoot] stores for [T] time points. *)
Definition shoot_control_points (k : Kernel) (rk2 : bool) (T : Z)
    (cps mom : tensor) : list tensor :=
  cps :: fst (shoot_from k rk2 (1 / IZR (T - 1)) (Z.to_nat (T - 1)) cps mom).

Definition shoot_momenta (k : Kernel) (rk2 : bool) (T : Z)
    (cps mom : tensor) : list tensor :=
  mom :: snd (shoot_from k rk2 (1 / IZR (T - 1)) (Z.to_nat (T - 1)) cps mom).

(** One step of the flow loop: the Euler update of the template points,
    with Heun's correction under the RK2 policy. *)
Definition flow_next (k : Kernel) (rk2 : bool) (dt : R)
    (x cp mom cp' mom' : tensor) : tensor :=
  let d_pos := convolve k x cp mom in
  let y := tadd x (smul dt d_pos) in
  if rk2 then tadd x (smul (dt / 2) (tadd (convolve k y cp' mom') d_pos)) else y.

(** The [n] template snapshots that follow [x], along the shot
    trajectories from their current entries on. *)
Fixpoint flow_from (k : Kernel) (rk2 : bool) (dt : R) (n : nat) (x : tensor)
    (cpt momt : list tensor) : list tensor :=
  match n, cpt, momt with
  | Datatypes.S n', cp :: cpt', mom :: momt' =>
      let y := flow_next k rk2 dt x cp mom (hd cp cpt') (hd mom momt') in
      y :: flow_from k rk2 dt n' y cpt' momt'
  | _, _, _ => []
  end.

(** The trajectory that [_flow] stores for [T] time points. *)
Definition flow_template_data (k : Kernel) (rk2 : bool) (T : Z) (td : tensor)
    (cpt momt : list tensor) : list tensor :=
  td :: flow_from k rk2 (1 / IZR (T - 1)) (Z.to_nat (T - 1)) td cpt momt.


Definition shoot_trajectory (k : Kernel) (rk2 : bool) (dt : R)
    (cpt momt : list tensor) : Prop :=
  forall i cp mom,
    nth_error cpt i = Some cp ->
    nth_error momt i = Some mom ->
    (Datatypes.S i < length cpt)%nat ->
    nth_error cpt (Datatypes.S i) = Some (fst (shoot_next k rk2 dt cp mom)) /\
    nth_error momt (Datatypes.S i) = Some (snd (shoot_next k rk2 dt cp mom)).

(** The finite difference of the two perturbed geodesics at one step of
    [parallel_transport]: [approx_velocity]. *)
Definition transport_velocity (k : Kernel) (h epsilon : R) (cp mom last : tensor)
  : tensor :=
  sdiv (tsub (fst (Exponential._rk2_step k cp (tadd mom (smul epsilon last)) h false))
             (fst (Exponential._rk2_step k cp (tsub mom (smul epsilon last)) h false)))
       (2 * epsilon * h).

(** From the cotangent vector [approx_momenta] to the entry appended to
    [parallel_transport_t]: the component along the geodesic is removed and
    the result is rescaled by [initial_norm / norm_approx_momenta]. *)
Definition transport_finish (exact : Kernel) (initial_norm ns : R)
    (cp' mom' approx_momenta : tensor) : tensor :=
  let scalar_prod_with_velocity :=
    dot approx_momenta (convolve exact cp' cp' mom') / ns in
  let approx_momenta := isub approx_momenta (smul scalar_prod_with_velocity mom') in
  let norm_approx_momenta :=
    dot approx_momenta (convolve exact cp' cp' approx_momenta) in
  sdiv (muls approx_momenta initial_norm) norm_approx_momenta.

(** The [n] entries that follow [last] when no Cholesky factor is stored:
    each factor is computed from the next control points, and the solution
    is squeezed. *)
Fixpoint transport_fresh (k exact : Kernel) (h epsilon initial_norm ns : R)
    (n : nat) (last : tensor) (cpt momt : list tensor) : list tensor :=
  match n, cpt, momt with
  | Datatypes.S n', cp :: cpt', mom :: momt' =>
      let cp' := hd cp cpt' in
      let mom' := hd mom momt' in
      let factor := cholesky_factor (get_kernel_matrix exact cp') in
      let r := transport_finish exact initial_norm ns cp' mom'
                 (squeeze (cholesky_solve (transport_velocity k h epsilon cp mom last) factor)) in
      r :: transport_fresh k exact h epsilon initial_norm ns n' r cpt' momt'
  | _, _, _ => []
  end.

(** The factors those [n] steps store. *)
Fixpoint fresh_factors (exact : Kernel) (n : nat) (cpt : list tensor) : list tensor :=
  match n, cpt with
  | Datatypes.S n', cp :: cpt' =>
      cholesky_factor (get_kernel_matrix exact (hd cp cpt')) :: fresh_factors exact n' cpt'
  | _, _ => []
  end.

(** The [n] entries that follow [last] when the factors [chs] are stored:
    the solution is used as [cholesky_solve] returns it. *)
Fixpoint transport_cached (k exact : Kernel) (h epsilon initial_norm ns : R)
    (n : nat) (last : tensor) (cpt momt chs : list tensor) : list tensor :=
  match n, cpt, momt, chs with
  | Datatypes.S n', cp :: cpt', mom :: momt', c :: chs' =>
      let cp' := hd cp cpt' in
      let mom' := hd mom momt' in
      let r := transport_finish exact initial_norm ns cp' mom'
                 (cholesky_solve (transport_velocity k h epsilon cp mom last) c) in
      r :: transport_cached k exact h epsilon initial_norm ns n' r cpt' momt' chs'
  | _, _, _, _ => []
  end.

(** One step stays within the real numbers: [norm_squared] is not zero, and
    neither is the squared norm of the cotangent vector once its component
    along the geodesic is removed. *)
Definition finish_defined (exact : Kernel) (ns : R)
    (cp' mom' approx_momenta : tensor) : Prop :=
  let scalar_prod_with_velocity :=
    dot approx_momenta (convolve exact cp' cp' mom') / ns in
  let approx_momenta := isub approx_momenta (smul scalar_prod_with_velocity mom') in
  ns <> 0 /\ dot approx_momenta (convolve exact cp' cp' approx_momenta) <> 0.

(** The [n] steps that follow [last] go through when no Cholesky factor is
    stored: every kernel matrix is positive definite, so that [torch.potrf]
    returns, and no step divides by zero. *)
Fixpoint fresh_defined (k exact : Kernel) (h epsilon initial_norm ns : R)
    (n : nat) (last : tensor) (cpt momt : list tensor) : Prop :=
  match n, cpt, momt with
  | Datatypes.S n', cp :: cpt', mom :: momt' =>
      let cp' := hd cp cpt' in
      let mom' := hd mom momt' in
      let a := get_kernel_matrix exact cp' in
      let x := squeeze (cholesky_solve (transport_velocity k h epsilon cp mom last)
                                       (cholesky_factor a)) in
      positive_definite a = true /\
      nonsingular (cholesky_factor a) = true /\
      finish_defined exact ns cp' mom' x /\
      fresh_defined k exact h epsilon initial_norm ns n'
        (transport_finish exact initial_norm ns cp' mom' x) cpt' momt'
  | _, _, _ => True
  end.

(** The same with the stored factors [chs]. *)
Fixpoint cached_defined (k exact : Kernel) (h epsilon initial_norm ns : R)
    (n : nat) (last : tensor) (cpt momt chs : list tensor) : Prop :=
  match n, cpt, momt, chs with
  | Datatypes.S n', cp :: cpt', mom :: momt', c :: chs' =>
      let cp' := hd cp cpt' in
      let mom' := hd mom momt' in
      let x := cholesky_solve (transport_velocity k h epsilon cp mom last) c in
      nonsingular c = true /\
      finish_defined exact ns cp' mom' x /\
      cached_defined k exact h epsilon initial_norm ns n'
        (transport_finish exact initial_norm ns cp' mom' x) cpt' momt' chs'
  | _, _, _, _ => True
  end.

(** An exponential whose shoot is up to date: both trajectories hold one
    snapshot per time point. *)
Definition shot (e : Exponential.t) : Prop :=
  exists k T cpt momt,
    Exponential.kernel e = Some k /\
    Exponential.number_of_time_points e = Some T /\
    (1 < T)%Z /\
    Exponential.control_points_t e = Some cpt /\
    Exponential.momenta_t e = Some momt /\
    length cpt = Z.to_nat T /\
    length momt = Z.to_nat T /\
    Exponential.shoot_is_modified e = false.

(** What [parallel_transport] reads of an exponential whose shoot is up
    to date. *)
Definition transport_ready (k : Kernel) (T : Z) (cpt momt : list tensor) (ns : R)
    (s : Exponential.t) : Prop :=
  Exponential.kernel s = Some k /\
  Exponential.number_of_time_points s = Some T /\
  Exponential.control_points_t s = Some cpt /\
  Exponential.momenta_t s = Some momt /\
  Exponential.shoot_is_modified s = false /\
  Exponential.norm_squared s = Some ns.

(** A computation that leaves the attribute [f] of its object as it
    found it, whether it returns or raises. *)
Definition preserves {S A X : Type} (f : S -> X) (m : M S A) : Prop :=
  forall s, f (state_of (m s)) = f s.

(** The outcome of a call and the object as the call leaves it. *)
Definition run {S A : Type} (m : M S A) (s : S) : outcome A * S :=
  (outcome_of (m s), state_of (m s)).

(** One side of a geodesic as [Geodesic.update] prepares it when both of
    the geodesic's flags are up: [n] time points, the shared control points,
    the rescaled momenta and the template data. *)
Definition side_prepared (e : Exponential.t) (n : Z) (cps mom : tensor)
    (td : option tensor) : Exponential.t :=
  Exponential.Build_t
    (Exponential.kernel e) (Some n) (Some cps) (Exponential.control_points_t e)
    (Some mom) (Exponential.momenta_t e) td (Exponential.template_data_t e)
    true true (Exponential.use_rk2 e) (Exponential.norm_squared e)
    (Exponential.cholesky_kernel_matrices e).

(** The same side after [Geodesic.update]: shot and flowed when it has more
    than one time point, left as prepared otherwise. *)
Definition side_updated (k : Kernel) (e : Exponential.t) (n : Z)
    (cps mom : tensor) (td : option tensor) : Exponential.t :=
  if (1 <? n)%Z
  then
    let rk := truthy (Exponential.use_rk2 e) in
    let cpt := shoot_control_points k rk n cps mom in
    let momt := shoot_momenta k rk n cps mom in
    Exponential.Build_t
      (Some k) (Some n) (Some cps) (Some cpt) (Some mom) (Some momt) td
      (match td with
       | Some x => Some (flow_template_data k rk n x cpt momt)
       | None => Exponential.template_data_t e
       end)
      false
      (match td with Some _ => false | None => true end)
      (Exponential.use_rk2 e)
      (Some (dot mom (convolve k cps cps mom))) []
  else side_prepared e n cps mom td.

(** The number of time points of each side of a geodesic. *)
Definition backward_points (g : Geodesic.t) : option Z :=
  Exponential.number_of_time_points (Geodesic.backward_exponential g).

Definition forward_points (g : Geodesic.t) : option Z :=
  Exponential.number_of_time_points (Geodesic.forward_exponential g).

(* ================================================================== *)
(** * Concrete objects *)
(* ================================================================== *)

(** A geodesic configured through its setters, both sides sharing the
    kernel [k]. *)
Definition geodesic_with (k : Kernel) (c a lo hi : R) (cps mom : tensor)
    (td : option tensor) : Geodesic.t :=
  state_of
    ((Geodesic.set_kernel (Some k) ;;
      Geodesic.set_use_rk2 (Some false) ;;
      modify (Geodesic.with_concentration_of_time_points (Some c)) ;;
      Geodesic.set_t0 (Some a) ;;
      Geodesic.set_tmin (Some lo) ;;
      Geodesic.set_tmax (Some hi) ;;
      Geodesic.set_control_points_t0 (Some cps) ;;
      Geodesic.set_momenta_t0 (Some mom) ;;
      Geodesic.set_template_data_t0 td) Geodesic.init).

(** An exponential configured through its setters. *)
Definition exponential_with (k : Kernel) (rk2 : bool) (T : Z) (cps mom : tensor)
    (td : option tensor) : Exponential.t :=
  state_of
    ((Exponential.set_kernel (Some k) ;;
      Exponential.set_use_rk2 (Some rk2) ;;
      modify (Exponential.with_number_of_time_points (Some T)) ;;
      Exponential.set_initial_control_points (Some cps) ;;
      Exponential.set_initial_momenta (Some mom) ;;
      Exponential.set_initial_template_data td) Exponential.init).

(** One control point at the origin of the line, one unit of momentum,
    a template point on the control point. *)
Definition origin_1d : tensor := Mat [[0]].
Definition unit_momentum_1d : tensor := Mat [[1]].

(** The geodesic of the counterexample to the rounding formula: the
    backward side spans [0.6] time units at concentration [1]. *)
Definition geodesic_c3 : Geodesic.t :=
  geodesic_with (create_kernel_exact 1) 1 0.6 0 0.6 origin_1d unit_momentum_1d None.

(** A kernel that is linear in its weights, as every convolution with a
    scalar kernel function is. *)
Definition linear_in_weights (k : Kernel) : Prop :=
  forall (s : R) (x p : tensor),
    convolve k x x (tmap (Rmult s) p) = tmap (Rmult s) (convolve k x x p).

(** The geodesic of the counterexample to the equality of the two
    norms: one time unit backward, two forward. *)
Definition geodesic_c4 : Geodesic.t :=
  geodesic_with (create_kernel_exact 1) 1 0 (-1) 2 origin_1d unit_momentum_1d None.

(** The scenario of one Euler step: one control point at the origin of
    the line with momentum [1], a Gaussian kernel of width [1], two time
    points, and a template point on the control point. *)
Definition exponential_c10 : Exponential.t :=
  exponential_with (create_kernel_exact 1) false 2 origin_1d unit_momentum_1d
                   (Some origin_1d).

(** A geodesic whose reference time is its lower time bound, so that
    the backward side has a single time point and is skipped: one control
    point at the origin of the plane with momentum [(1, 0)], and a template
    of two points. *)
Definition template_c5 : tensor := Mat [[0; 0]; [0; 1]].

Definition geodesic_c5 : Geodesic.t :=
  geodesic_with (create_kernel_exact 1) 1 0 0 1 (Mat [[0; 0]]) (Mat [[1; 0]])
                (Some template_c5).

(** A single control point in the plane, two time points; the vector to
    transport is orthogonal to the momentum. *)
Definition exponential_c7 : Exponential.t :=
  exponential_with (create_kernel_exact 1) false 2 (Mat [[0; 0]]) (Mat [[1; 0]]) None.

Definition momenta_to_transport_c7 : tensor := Mat [[0; 1]].

(** Two control points one unit apart on a line of the plane, pushed
    towards each other with unit speed, two time points, Euler policy; the
    vector to transport pushes both points the same way. *)
Definition kernel_value_c2 : R := exp (- 1).

Definition weight_c2 : R := 1 / (1 - kernel_value_c2).

Definition control_points_c2 : tensor := Mat [[- (1 / 2); 0]; [1 / 2; 0]].

Definition momenta_c2 : tensor := Mat [[weight_c2; 0]; [- weight_c2; 0]].

Definition momenta_to_transport_c2 : tensor := Mat [[weight_c2; 0]; [weight_c2; 0]].

Definition exponential_c2 : Exponential.t :=
  exponential_with (create_kernel_exact 1) false 2 control_points_c2 momenta_c2 None.

(** What [get_norm_squared] reads of an exponential: whether its shoot is
    stale, and its stored norm. *)
Definition norm_record (e : Exponential.t) : bool * option R :=
  (Exponential.shoot_is_modified e, Exponential.norm_squared e).

(** A computation that keeps the attribute [f] wherever [f] has the value
    [x], whether it returns or raises. *)
Definition keeps {S A X : Type} (f : S -> X) (x : X) (m : M S A) : Prop :=
  forall s, f s = x -> f (state_of (m s)) = x.

(** The same of the forward exponential of a geodesic, with the shoot flag
    of the geodesic. *)
Definition forward_norm_record (g : Geodesic.t) : bool * (bool * option R) :=
  (Geodesic.shoot_is_modified g, norm_record (Geodesic.forward_exponential g)).

(* ================================================================== *)
(** * Integration schemes *)
(* ================================================================== *)

(** The midpoint scheme of geodesic shooting, step [dt]: the state moves
    by the velocity and the force taken at the half step. *)
Definition rk2_trajectory (k : Kernel) (dt : R) (cpt momt : list tensor) : Prop :=
  forall i cp mom,
    nth_error cpt i = Some cp ->
    nth_error momt i = Some mom ->
    (Datatypes.S i < length cpt)%nat ->
    let mid_cp := tadd cp (smul (dt / 2) (convolve k cp cp mom)) in
    let mid_mom := tsub mom (smul (dt / 2) (convolve_gradient k mom cp)) in
    nth_error cpt (Datatypes.S i)
      = Some (tadd cp (smul dt (convolve k mid_cp mid_cp mid_mom))) /\
    nth_error momt (Datatypes.S i)
      = Some (tsub mom (smul dt (convolve_gradient k mid_mom mid_cp))).

(** The explicit Euler scheme of the flow of the template points along
    shot trajectories: [x' = x + dt K(x, cp, mom)]. *)
Definition euler_flow (k : Kernel) (dt : R) (tdl cpt momt : list tensor) : Prop :=
  forall i x cp mom,
    nth_error tdl i = Some x ->
    nth_error cpt i = Some cp ->
    nth_error momt i = Some mom ->
    (Datatypes.S i < length tdl)%nat ->
    nth_error tdl (Datatypes.S i) = Some (tadd x (smul dt (convolve k x cp mom))).

(** Heun's scheme of the flow: the mean of the velocity at [x] and of the
    velocity at the Euler prediction, taken with the next control points and
    momenta. *)
Definition heun_flow (k : Kernel) (dt : R) (tdl cpt momt : list tensor) : Prop :=
  forall i x cp mom cp' mom',
    nth_error tdl i = Some x ->
    nth_error cpt i = Some cp ->
    nth_error momt i = Some mom ->
    nth_error cpt (Datatypes.S i) = Some cp' ->
    nth_error momt (Datatypes.S i) = Some mom' ->
    (Datatypes.S i < length tdl)%nat ->
    let d_pos := convolve k x cp mom in
    let y := tadd x (smul dt d_pos) in
    nth_error tdl (Datatypes.S i)
      = Some (tadd x (smul (dt / 2) (tadd (convolve k y cp' mom') d_pos))).

(** A transport of [v] without tangential component goes through on an
    exponential shot by [update] over [T] time points from [cps] and [mom]
    with the kernel [k], of a width other than zero, and the Euler policy,
    its store of Cholesky factors empty: [v] has the size of the momenta,
    the two assertions pass, and the run stays within the real numbers. *)
Definition transport_goes_through (k : Kernel) (T : Z) (cps mom v : tensor)
  : Prop :=
  let exact := create_kernel_exact (kernel_width k) in
  let ns := dot mom (convolve k cps cps mom) in
  let sp := dot v (convolve exact cps cps mom) / ns in
  let vo := tsub v (smul sp mom) in
  let h := 1 / (IZR T - 1) in
  kernel_width k <> 0 /\
  size_eqb (size v) (size mom) = true /\
  ns <> 0 /\
  dot vo (convolve exact cps cps mom) / ns < 1e-5 /\
  fresh_defined k exact h h (dot vo (convolve exact cps cps vo)) ns
                (Z.to_nat (T - 1)) vo
                (shoot_control_points k false T cps mom)
                (shoot_momenta k false T cps mom).

(** Two control points one unit apart on a line of the plane, both pushed
    across that line with unit speed, and a vector that pushes both along
    it; one time unit on each side of the reference time. *)
Definition momenta_x20 : tensor := Mat [[0; 1]; [0; 1]].

Definition momenta_to_transport_x20 : tensor := Mat [[1; 0]; [1; 0]].

Definition geodesic_x20 : Geodesic.t :=
  geodesic_with (create_kernel_exact 1) 1 0 (-1) 1 control_points_c2 momenta_x20
                None.

(** An exponential shot with momenta zero: one control point at the origin
    of the line. *)
Definition exponential_at_rest : Exponential.t :=
  exponential_with (create_kernel_exact 1) false 2 origin_1d (Mat [[0]]) None.

(** Two control points at the same place, the first one pushed: they move
    together, and their kernel matrix has two equal rows. *)
Definition control_points_together : tensor := Mat [[0; 0]; [0; 0]].

Definition momenta_together : tensor := Mat [[1; 0]; [0; 0]].

Definition momenta_to_transport_together : tensor := Mat [[0; 1]; [0; 0]].

Definition exponential_together : Exponential.t :=
  exponential_with (create_kernel_exact 1) false 2 control_points_together
                   momenta_together None.

(* ================================================================== *)
(** * Running the computations *)
(* ================================================================== *)

Unset Implicit Arguments.

(** Attribute reads and writes on an explicit object. *)
Ltac exp_fields :=
  cbv [Exponential.with_kernel Exponential.with_number_of_time_points
       Exponential.with_initial_control_points
       Exponential.with_control_points_t Exponential.with_initial_momenta
       Exponential.with_momenta_t Exponential.with_initial_template_data
       Exponential.with_template_data_t Exponential.with_shoot_is_modified
       Exponential.with_flow_is_modified Exponential.with_use_rk2
       Exponential.with_norm_squared
       Exponential.with_cholesky_kernel_matrices Exponential.kernel
       Exponential.number_of_time_points Exponential.initial_control_points
       Exponential.control_points_t Exponential.initial_momenta
       Exponential.momenta_t Exponential.initial_template_data
       Exponential.template_data_t Exponential.shoot_is_modified
       Exponential.flow_is_modified Exponential.use_rk2
       Exponential.norm_squared Exponential.cholesky_kernel_matrices].

Ltac py_unfold :=
  unfold bind, get, require, assert, modify, ret, raise, warn.

Lemma py_index_nat (S A : Type) (l : list A) (i : nat) (x : A) :
  nth_error l i = Some x ->
  @py_index S A l (Z.of_nat i) = ret x.
Proof.
  intros H. unfold py_index.
  assert (Hi : (Z.of_nat i <? 0)%Z = false) by (apply Z.ltb_ge; lia).
  rewrite Hi, Hi, Nat2Z.id, H. reflexivity.
Qed.

Lemma py_index_last (S A : Type) (l : list A) (x : A) :
  @py_index S A (l ++ [x]) (-1) = ret x.
Proof.
  unfold py_index.
  change (-1 <? 0)%Z with true. cbv iota.
  rewrite length_app. cbn [length].
  assert (Hj : (Z.of_nat (length l + 1) + -1 = Z.of_nat (length l))%Z) by lia.
  rewrite Hj.
  assert (Hi : (Z.of_nat (length l) <? 0)%Z = false) by (apply Z.ltb_ge; lia).
  rewrite Hi, Nat2Z.id, nth_error_app2, Nat.sub_diag by lia. reflexivity.
Qed.

Lemma nth_error_snoc (A : Type) (l : list A) (x : A) :
  nth_error (l ++ [x]) (length l) = Some x.
Proof. rewrite nth_error_app2, Nat.sub_diag by lia. reflexivity. Qed.

Lemma truthy_false_cases (o : option bool) :
  truthy o = false -> o = Some false \/ o = None.
Proof. destruct o as [[|]|]; cbn; intros H; auto; discriminate. Qed.


(* ------------------------------------------------------------------ *)
(** ** Shooting *)

Section Shooting.

Variables (k : Kernel) (dt : R).

Lemma shoot_step_run i T icp cpt imom momt itd tdt sm fm rk ns ch cp mom :
  nth_error cpt i = Some cp ->
  nth_error momt i = Some mom ->
  Exponential.shoot_step dt i tt
    (Exponential.Build_t (Some k) T icp (Some cpt) imom (Some momt)
                         itd tdt sm fm rk ns ch)
  = (Ok tt,
     Exponential.Build_t (Some k) T icp
       (Some (cpt ++ [fst (shoot_next k (truthy rk) dt cp mom)])) imom
       (Some (momt ++ [snd (shoot_next k (truthy rk) dt cp mom)]))
       itd tdt sm fm rk ns ch,
     []).
Proof.
  intros Hcp Hmom.
  unfold Exponential.shoot_step, Exponential.control_points_at,
    Exponential.momenta_at, Exponential.the_kernel.
  unfold bind, get, require. cbn -[py_index].
  rewrite (py_index_nat _ _ _ _ _ Hcp). cbn -[py_index].
  rewrite (py_index_nat _ _ _ _ _ Hmom). cbn -[py_index].
  unfold shoot_next. destruct (truthy rk); reflexivity.
Qed.

Lemma shoot_loop n :
  forall i T icp cpt imom momt itd tdt sm fm rk ns ch cp mom,
    length cpt = Datatypes.S i ->
    length momt = Datatypes.S i ->
    nth_error cpt i = Some cp ->
    nth_error momt i = Some mom ->
    for_loop (Exponential.shoot_step dt) i n tt
      (Exponential.Build_t (Some k) T icp (Some cpt) imom (Some momt)
                           itd tdt sm fm rk ns ch)
    = (Ok tt,
       Exponential.Build_t (Some k) T icp
         (Some (cpt ++ fst (shoot_from k (truthy rk) dt n cp mom))) imom
         (Some (momt ++ snd (shoot_from k (truthy rk) dt n cp mom)))
         itd tdt sm fm rk ns ch,
       []).
Proof.
  induction n as [|n IH];
    intros i T icp cpt imom momt itd tdt sm fm rk ns ch cp mom Hc Hm Hcp Hmom.
  - cbn. rewrite !app_nil_r. reflexivity.
  - cbn [for_loop shoot_from fst snd]. unfold bind at 1.
    rewrite (shoot_step_run i T icp cpt imom momt itd tdt sm fm rk ns ch cp mom
               Hcp Hmom).
    rewrite (IH (Datatypes.S i) T icp _ imom _ itd tdt sm fm rk ns ch
               (fst (shoot_next k (truthy rk) dt cp mom))
               (snd (shoot_next k (truthy rk) dt cp mom))).
    + rewrite <- !app_assoc. reflexivity.
    + rewrite length_app. cbn [length]. lia.
    + rewrite length_app. cbn [length]. lia.
    + rewrite <- Hc. apply nth_error_snoc.
    + rewrite <- Hm. apply nth_error_snoc.
Qed.

Lemma shoot_from_length rk n :
  forall cp mom,
    length (fst (shoot_from k rk dt n cp mom)) = n /\
    length (snd (shoot_from k rk dt n cp mom)) = n.
Proof.
  induction n as [|n IH]; intros cp mom; cbn [shoot_from fst snd length].
  - auto.
  - destruct (IH (fst (shoot_next k rk dt cp mom)) (snd (shoot_next k rk dt cp mom)))
      as [H1 H2].
    rewrite H1, H2. auto.
Qed.

Lemma shoot_from_trajectory rk n :
  forall cp mom,
    shoot_trajectory k rk dt
      (cp :: fst (shoot_from k rk dt n cp mom))
      (mom :: snd (shoot_from k rk dt n cp mom)).
Proof.
  induction n as [|n IH]; intros cp mom i cp' mom' Hc Hm Hlt.
  - cbn in Hlt. lia.
  - cbn [shoot_from fst snd] in *.
    destruct i as [|i].
    + cbn in Hc, Hm. injection Hc as <-. injection Hm as <-.
      split; reflexivity.
    + cbn [nth_error] in Hc, Hm.
      change (nth_error (?a :: ?l) (Datatypes.S ?j)) with (nth_error l j).
      apply (IH _ _ i cp' mom' Hc Hm). cbn [length] in *. lia.
Qed.

End Shooting.

Lemma float_div_nonzero (S : Type) (x y : R) :
  y <> 0 -> @float_div S x y = ret (x / y).
Proof.
  intros H. unfold float_div.
  destruct (Req_dec_T y 0); [contradiction | reflexivity].
Qed.

Lemma shoot_run k T cps cpt0 mom momt0 itd tdt sm fm rk ns ch :
  (1 < T)%Z -> (0 < len cps)%nat -> (0 < len mom)%nat ->
  Exponential._shoot
    (Exponential.Build_t (Some k) (Some T) (Some cps) cpt0 (Some mom) momt0
                         itd tdt sm fm rk ns ch)
  = (Ok tt,
     Exponential.Build_t (Some k) (Some T) (Some cps)
       (Some (shoot_control_points k (truthy rk) T cps mom)) (Some mom)
       (Some (shoot_momenta k (truthy rk) T cps mom)) itd tdt sm fm rk
       (Some (dot mom (convolve k cps cps mom))) ch,
     []).
Proof.
  intros HT Hc Hm.
  unfold Exponential._shoot, Exponential.time_points,
    Exponential.append_control_points, Exponential.append_momenta,
    Exponential.the_kernel, for_range.
  apply Nat.ltb_lt in Hc, Hm.
  py_unfold. exp_fields. rewrite Hc. exp_fields. rewrite Hm. exp_fields.
  rewrite float_div_nonzero.
  2:{ intros H0. apply eq_IZR in H0. lia. }
  py_unfold. exp_fields. cbn [app].
  rewrite (shoot_loop k (1 / IZR (T - 1)) (Z.to_nat (T - 1)) 0%nat
             (Some T) (Some cps) [cps] (Some mom) [mom] itd tdt sm fm rk ns ch
             cps mom eq_refl eq_refl eq_refl eq_refl).
  reflexivity.
Qed.

Lemma shoot_lengths k rk T cps mom :
  (1 < T)%Z ->
  length (shoot_control_points k rk T cps mom) = Z.to_nat T /\
  length (shoot_momenta k rk T cps mom) = Z.to_nat T.
Proof.
  intros HT. unfold shoot_control_points, shoot_momenta. cbn [length].
  destruct (shoot_from_length k (1 / IZR (T - 1)) rk (Z.to_nat (T - 1)) cps mom)
    as [H1 H2].
  rewrite H1, H2. lia.
Qed.

(* ------------------------------------------------------------------ *)
(** ** Flowing *)

Section Flowing.

Variables (k : Kernel) (dt : R).

Lemma replace_last_run z T icp cpt imom momt itd tdl y sm fm rk ns ch :
  Exponential.replace_last_template_data z
    (Exponential.Build_t (Some k) T icp cpt imom momt itd (Some (tdl ++ [y]))
                         sm fm rk ns ch)
  = (Ok tt,
     Exponential.Build_t (Some k) T icp cpt imom momt itd (Some (tdl ++ [z]))
                         sm fm rk ns ch,
     []).
Proof.
  unfold Exponential.replace_last_template_data. py_unfold. exp_fields.
  rewrite removelast_last.
  destruct tdl; reflexivity.
Qed.

Lemma flow_step_run i T icp cpt imom momt itd tdl sm fm rk ns ch
      x cp mom cp' mom' :
  nth_error tdl i = Some x ->
  nth_error cpt i = Some cp ->
  nth_error momt i = Some mom ->
  nth_error cpt (i + 1) = Some cp' ->
  nth_error momt (i + 1) = Some mom' ->
  Exponential.flow_step dt i tt
    (Exponential.Build_t (Some k) T icp (Some cpt) imom (Some momt) itd
                         (Some tdl) sm fm rk ns ch)
  = (Ok tt,
     Exponential.Build_t (Some k) T icp (Some cpt) imom (Some momt) itd
       (Some (tdl ++ [flow_next k (truthy rk) dt x cp mom cp' mom']))
       sm fm rk ns ch,
     []).
Proof.
  intros Hx Hcp Hmom Hcp' Hmom'.
  unfold Exponential.flow_step, Exponential.control_points_at,
    Exponential.momenta_at, Exponential.template_data_at,
    Exponential.the_kernel, Exponential.append_template_data, flow_next.
  py_unfold. exp_fields.
  rewrite (py_index_nat _ _ _ _ _ Hx). py_unfold. exp_fields.
  rewrite (py_index_nat _ _ _ _ _ Hcp). py_unfold. exp_fields.
  rewrite (py_index_nat _ _ _ _ _ Hmom). py_unfold. exp_fields.
  destruct (truthy rk); [|reflexivity].
  rewrite py_index_last. py_unfold. exp_fields.
  rewrite (py_index_nat _ _ _ _ _ Hcp'). py_unfold. exp_fields.
  rewrite (py_index_nat _ _ _ _ _ Hmom'). py_unfold. exp_fields.
  rewrite replace_last_run. reflexivity.
Qed.

Lemma skipn_nth_error {A : Type} (l : list A) (i : nat) (x : A) :
  nth_error l i = Some x -> skipn i l = x :: skipn (Datatypes.S i) l.
Proof.
  revert i. induction l as [|a l IH]; intros [|i] H; cbn in *; try discriminate.
  - congruence.
  - apply IH. exact H.
Qed.

Lemma hd_skipn_nth_error {A : Type} (l : list A) (i : nat) (x d : A) :
  nth_error l i = Some x -> hd d (skipn i l) = x.
Proof. intros H. rewrite (skipn_nth_error l i x H). reflexivity. Qed.

Lemma flow_loop n :
  forall i T icp cpt imom momt itd tdl sm fm rk ns ch x,
    length tdl = Datatypes.S i ->
    nth_error tdl i = Some x ->
    (i + n < length cpt)%nat ->
    (i + n < length momt)%nat ->
    for_loop (Exponential.flow_step dt) i n tt
      (Exponential.Build_t (Some k) T icp (Some cpt) imom (Some momt) itd
                           (Some tdl) sm fm rk ns ch)
    = (Ok tt,
       Exponential.Build_t (Some k) T icp (Some cpt) imom (Some momt) itd
         (Some (tdl ++ flow_from k (truthy rk) dt n x (skipn i cpt) (skipn i momt)))
         sm fm rk ns ch,
       []).
Proof.
  induction n as [|n IH];
    intros i T icp cpt imom momt itd tdl sm fm rk ns ch x Ht Hx Hc Hm.
  - cbn. rewrite app_nil_r. reflexivity.
  - destruct (nth_error cpt i) as [cp|] eqn:Hcp.
    2:{ apply nth_error_None in Hcp. lia. }
    destruct (nth_error momt i) as [mom|] eqn:Hmom.
    2:{ apply nth_error_None in Hmom. lia. }
    destruct (nth_error cpt (i + 1)) as [cp'|] eqn:Hcp'.
    2:{ apply nth_error_None in Hcp'. lia. }
    destruct (nth_error momt (i + 1)) as [mom'|] eqn:Hmom'.
    2:{ apply nth_error_None in Hmom'. lia. }
    cbn [for_loop]. unfold bind at 1.
    rewrite (flow_step_run i T icp cpt imom momt itd tdl sm fm rk ns ch
               x cp mom cp' mom' Hx Hcp Hmom Hcp' Hmom').
    rewrite (IH (Datatypes.S i) T icp cpt imom momt itd _ sm fm rk ns ch
               (flow_next k (truthy rk) dt x cp mom cp' mom')).
    + rewrite (skipn_nth_error cpt i cp Hcp), (skipn_nth_error momt i mom Hmom).
      cbn [flow_from].
      replace (i + 1)%nat with (Datatypes.S i) in Hcp', Hmom' by lia.
      rewrite (hd_skipn_nth_error cpt (Datatypes.S i) cp' cp Hcp').
      rewrite (hd_skipn_nth_error momt (Datatypes.S i) mom' mom Hmom').
      rewrite <- app_assoc. reflexivity.
    + rewrite length_app. cbn [length]. lia.
    + rewrite <- Ht. apply nth_error_snoc.
    + lia.
    + lia.
Qed.

Lemma flow_from_length rk n :
  forall x cpt momt,
    (n < length cpt)%nat -> (n < length momt)%nat ->
    length (flow_from k rk dt n x cpt momt) = n.
Proof.
  induction n as [|n IH]; intros x cpt momt Hc Hm; [reflexivity|].
  destruct cpt as [|cp cpt]; [cbn in Hc; lia|].
  destruct momt as [|mom momt]; [cbn in Hm; lia|].
  cbn [flow_from length]. rewrite IH; cbn in *; lia.
Qed.

End Flowing.

Lemma flow_run k T icp cpt imom momt td tdt0 fm rk ns ch :
  (1 < T)%Z -> length cpt = Z.to_nat T -> length momt = Z.to_nat T ->
  Exponential._flow
    (Exponential.Build_t (Some k) (Some T) icp (Some cpt) imom (Some momt)
                         (Some td) tdt0 false fm rk ns ch)
  = (Ok tt,
     Exponential.Build_t (Some k) (Some T) icp (Some cpt) imom (Some momt)
       (Some td) (Some (flow_template_data k (truthy rk) T td cpt momt))
       false fm rk ns ch,
     []).
Proof.
  intros HT Hc Hm.
  unfold Exponential._flow, Exponential.time_points,
    Exponential.append_template_data, for_range.
  assert (H0c : (0 <? length cpt)%nat = true) by (apply Nat.ltb_lt; lia).
  assert (H0m : (0 <? length momt)%nat = true) by (apply Nat.ltb_lt; lia).
  py_unfold. exp_fields. cbn [negb]. cbv iota.
  rewrite H0c. exp_fields. rewrite H0m. exp_fields.
  rewrite float_div_nonzero.
  2:{ intros H0. apply eq_IZR in H0. lia. }
  py_unfold. exp_fields. cbn [app].
  rewrite (flow_loop k (1 / IZR (T - 1)) (Z.to_nat (T - 1)) 0%nat
             (Some T) icp cpt imom momt (Some td) [td] false fm rk ns ch td
             eq_refl eq_refl); [reflexivity | lia | lia].
Qed.

Lemma flow_template_data_length k rk T td cpt momt :
  (1 < T)%Z -> length cpt = Z.to_nat T -> length momt = Z.to_nat T ->
  length (flow_template_data k rk T td cpt momt) = Z.to_nat T.
Proof.
  intros HT Hc Hm. unfold flow_template_data. cbn [length].
  rewrite flow_from_length; lia.
Qed.

(* ------------------------------------------------------------------ *)
(** ** Updating *)

(** What [update] leaves in [template_data_t] and in the flow flag:
    a new trajectory when there is template data to flow. *)
Lemma update_shoot_run k T cps cpt0 mom momt0 itd tdt0 fm rk ns ch :
  (1 < T)%Z -> (0 < len cps)%nat -> (0 < len mom)%nat ->
  let cpt := shoot_control_points k (truthy rk) T cps mom in
  let momt := shoot_momenta k (truthy rk) T cps mom in
  exists w,
    Exponential.update
      (Exponential.Build_t (Some k) (Some T) (Some cps) cpt0 (Some mom) momt0
                           itd tdt0 true fm rk ns ch)
    = (Ok tt,
       Exponential.Build_t (Some k) (Some T) (Some cps) (Some cpt) (Some mom)
         (Some momt) itd
         (match itd with
          | Some td => Some (flow_template_data k (truthy rk) T td cpt momt)
          | None => tdt0
          end)
         false
         (match itd with Some _ => false | None => fm end) rk
         (Some (dot mom (convolve k cps cps mom))) [],
       w)
    /\ (itd <> None -> w = []).
Proof.
  intros HT Hc Hm cpt momt.
  assert (HT0 : (0 <? T)%Z = true) by (apply Z.ltb_lt; lia).
  destruct (shoot_lengths k (truthy rk) T cps mom HT) as [Hlc Hlm].
  destruct itd as [td|].
  - exists []. split; [|reflexivity].
    unfold Exponential.update, Exponential.time_points, Exponential.flow_if_template.
    py_unfold. exp_fields. rewrite HT0. exp_fields.
    rewrite shoot_run by assumption. exp_fields. cbn [is_some]. cbv iota.
    rewrite flow_run by assumption. exp_fields. reflexivity.
  - exists (if fm then [NothingToFlow; NothingToFlow] else [NothingToFlow]).
    split; [|congruence].
    unfold Exponential.update, Exponential.time_points, Exponential.flow_if_template.
    py_unfold. exp_fields. rewrite HT0. exp_fields.
    rewrite shoot_run by assumption. exp_fields. cbn [is_some]. cbv iota.
    destruct fm; reflexivity.
Qed.



(* ------------------------------------------------------------------ *)
(** ** Attributes a computation leaves alone *)

Section Frame.
Context {S X : Type} (f : S -> X).

Lemma preserves_ret {A} (a : A) : preserves f (ret a).
Proof. intros s. reflexivity. Qed.

Lemma preserves_raise {A} (e : exn) : preserves f (@raise S A e).
Proof. intros s. reflexivity. Qed.

Lemma preserves_warn (w : warning) : preserves f (warn w).
Proof. intros s. reflexivity. Qed.

Lemma preserves_get : preserves f get.
Proof. intros s. reflexivity. Qed.

Lemma preserves_assert (b : bool) : preserves f (assert b).
Proof. intros s. destruct b; reflexivity. Qed.

Lemma preserves_require {A} (e : exn) (o : option A) : preserves f (require e o).
Proof. intros s. destruct o; reflexivity. Qed.

Lemma preserves_float_div (x y : R) : preserves f (float_div x y).
Proof. intros s. unfold float_div. destruct (Req_dec_T y 0); reflexivity. Qed.

Lemma preserves_py_index {A} (l : list A) (i : Z) : preserves f (py_index l i).
Proof.
    intros s. unfold py_index.
    destruct (_ <? 0)%Z; [reflexivity | apply preserves_require].
Qed.

Lemma preserves_modify (g : S -> S) :
    (forall s, f (g s) = f s) -> preserves f (modify g).
Proof. intros H s. apply H. Qed.

Lemma preserves_bind {A B} (m : M S A) (k : A -> M S B) :
    preserves f m -> (forall a, preserves f (k a)) -> preserves f (bind m k).
Proof.
    intros Hm Hk s. specialize (Hm s). unfold bind, state_of in *.
    destruct (m s) as [[[a|e] s1] w1]; cbn in *; [|exact Hm].
    specialize (Hk a s1). destruct (k a s1) as [[r s2] w2]. cbn in *. congruence.
Qed.

Lemma preserves_for_loop {A} (body : nat -> A -> M S A) :
    (forall i a, preserves f (body i a)) ->
    forall n i a, preserves f (for_loop body i n a).
Proof.
    intros Hb. induction n as [|n IH]; intros i a; cbn [for_loop].
    - apply preserves_ret.
    - apply preserves_bind; [apply Hb | intros a'; apply IH].
Qed.
End Frame.

Ltac frame_step :=
  match goal with
  | |- preserves _ (bind _ _) => apply preserves_bind; [|intros]
  | |- preserves _ (ret _) => apply preserves_ret
  | |- preserves _ (raise _) => apply preserves_raise
  | |- preserves _ (warn _) => apply preserves_warn
  | |- preserves _ get => apply preserves_get
  | |- preserves _ (assert _) => apply preserves_assert
  | |- preserves _ (require _ _) => apply preserves_require
  | |- preserves _ (float_div _ _) => apply preserves_float_div
  | |- preserves _ (py_index _ _) => apply preserves_py_index
  | |- preserves _ (for_range _ _ _) => apply preserves_for_loop; intros
  | |- preserves _ (for_loop _ _ _ _) => apply preserves_for_loop; intros
  | |- preserves _ (modify _) => apply preserves_modify; intros []; reflexivity
  | |- preserves _ (if ?b then _ else _) => destruct b
  | |- preserves _ (match ?o with _ => _ end) => destruct o
  end.

Ltac frame := repeat frame_step.

Lemma shoot_preserves_cache :
  preserves Exponential.cholesky_kernel_matrices Exponential._shoot.
Proof.
  unfold Exponential._shoot, Exponential.time_points,
    Exponential.append_control_points, Exponential.append_momenta,
    Exponential.the_kernel. frame.
  unfold Exponential.shoot_step, Exponential.control_points_at,
    Exponential.momenta_at, Exponential.the_kernel,
    Exponential.append_control_points, Exponential.append_momenta,
    Exponential._euler_step. frame.
Qed.

Lemma state_of_bind {S A B : Type} (m : M S A) (k : A -> M S B) (s : S) :
  state_of (bind m k s)
  = match outcome_of (m s) with
    | Ok a => state_of (k a (state_of (m s)))
    | Raise _ => state_of (m s)
    end.
Proof.
  unfold bind, state_of, outcome_of.
  destruct (m s) as [[[a|e] s1] w1]; cbn; [|reflexivity].
  destruct (k a s1) as [[r s2] w2]. reflexivity.
Qed.

Lemma outcome_of_bind {S A B : Type} (m : M S A) (k : A -> M S B) (s : S) :
  outcome_of (bind m k s)
  = match outcome_of (m s) with
    | Ok a => outcome_of (k a (state_of (m s)))
    | Raise e => Raise e
    end.
Proof.
  unfold bind, state_of, outcome_of.
  destruct (m s) as [[[a|e] s1] w1]; cbn; [|reflexivity].
  destruct (k a s1) as [[r s2] w2]. reflexivity.
Qed.

(* ------------------------------------------------------------------ *)
(** ** Stale reads *)

Lemma get_template_data_after_set_control_points
    (e : Exponential.t) (time_index : option Z) (cps : option tensor) :
  outcome_of
    ((Exponential.set_initial_control_points cps ;;
      Exponential.get_template_data time_index) e)
  = outcome_of (Exponential.get_template_data time_index e).
Proof.
  destruct e as [k T icp cpt imom momt itd tdt sm fm rk ns ch].
  destruct fm; [reflexivity|].
  destruct tdt as [l|]; [|reflexivity].
  unfold outcome_of, Exponential.get_template_data,
    Exponential.set_initial_control_points, py_index, bind, modify, get, ret.
  cbn.
  destruct time_index as [i|];
    repeat match goal with
           | |- context [if ?b then _ else _] => destruct b
           end;
    try reflexivity;
    unfold require; destruct (nth_error _ _); reflexivity.
Qed.

Lemma py_index_outcome {S A : Type} (l : list A) (i : Z) (s : S) :
  outcome_of (py_index l i s) <> Raise AssertionError.
Proof.
  unfold py_index.
  destruct (_ <? 0)%Z; [discriminate|].
  destruct (nth_error _ _); discriminate.
Qed.

(** C6 (as the code has it).  Reading the norm never faults:
    [get_norm_squared] returns the stored value and leaves the object
    untouched, with a warning where the shoot is stale.  [get_template_data]
    raises an [AssertionError] if and only if the flow is stale; with the flow
    flag down it returns the entry of the stored template trajectory at the
    index, the last one by default, and fails only as that indexing does.
    [set_initial_control_points] raises the shoot flag and leaves the flow
    flag as it is, so that [get_template_data] has the same outcome after it
    as before it: an [AssertionError] if and only if the flow was stale
    already, and otherwise the template flowed before the control points
    were replaced. *)
Theorem C6_stale_reads
    (e : Exponential.t) (time_index : option Z) (cps : option tensor) :
  Exponential.get_norm_squared e
  = (Ok (Exponential.norm_squared e), e,
     if Exponential.shoot_is_modified e then [StaleNormRead] else []) /\
  (Exponential.flow_is_modified e = true ->
   Exponential.get_template_data time_index e = (Raise AssertionError, e, []) /\
   outcome_of
     ((Exponential.set_initial_control_points cps ;;
       Exponential.get_template_data time_index) e)
   = Raise AssertionError) /\
  (Exponential.flow_is_modified e = false ->
   Exponential.get_template_data time_index e
   = match Exponential.template_data_t e with
     | Some tdt =>
         py_index tdt (match time_index with Some i => i | None => -1 end) e
     | None => (Raise TypeError, e, [])
     end) /\
  (outcome_of (Exponential.get_template_data time_index e) = Raise AssertionError
   <-> Exponential.flow_is_modified e = true) /\
  Exponential.shoot_is_modified
    (state_of (Exponential.set_initial_control_points cps e)) = true /\
  Exponential.flow_is_modified
    (state_of (Exponential.set_initial_control_points cps e))
  = Exponential.flow_is_modified e /\
  outcome_of
    ((Exponential.set_initial_control_points cps ;;
      Exponential.get_template_data time_index) e)
  = outcome_of (Exponential.get_template_data time_index e) /\
  (outcome_of
     ((Exponential.set_initial_control_points cps ;;
       Exponential.get_template_data time_index) e)
   = Raise AssertionError
   <-> Exponential.flow_is_modified e = true) /\
  (forall (l : list tensor) (x : tensor),
      Exponential.flow_is_modified e = false ->
      Exponential.template_data_t e = Some (l ++ [x]) ->
      Exponential.get_template_data None e = (Ok x, e, []) /\
      outcome_of
        ((Exponential.set_initial_control_points cps ;;
          Exponential.get_template_data None) e)
      = Ok x).
Proof.
  assert (Hflag : Exponential.flow_is_modified e = true ->
                  Exponential.get_template_data time_index e
                  = (Raise AssertionError, e, [])).
  { destruct e as [k T icp cpt imom momt itd tdt sm fm rk ns ch].
    intros H; cbn in H; subst. reflexivity. }
  assert (Hdown : Exponential.flow_is_modified e = false ->
                  Exponential.get_template_data time_index e
                  = match Exponential.template_data_t e with
                    | Some tdt =>
                        py_index tdt
                          (match time_index with Some i => i | None => -1 end) e
                    | None => (Raise TypeError, e, [])
                    end).
  { clear Hflag.
    destruct e as [k T icp cpt imom momt itd tdt sm fm rk ns ch].
    intros H; cbn in H; subst.
    unfold Exponential.get_template_data. py_unfold. exp_fields.
    destruct tdt as [tdt|]; [|reflexivity].
    unfold py_index. py_unfold.
    destruct time_index as [i|];
      repeat match goal with
             | |- context [if ?b then _ else _] => destruct b
             end;
      try reflexivity;
      destruct (nth_error _ _); reflexivity. }
  assert (Hiff : outcome_of (Exponential.get_template_data time_index e)
                 = Raise AssertionError
                 <-> Exponential.flow_is_modified e = true).
  { split.
    - intros Ho. destruct (Exponential.flow_is_modified e) eqn:Hfm;
        [reflexivity|].
      rewrite (Hdown eq_refl) in Ho.
      destruct (Exponential.template_data_t e) as [tdt|].
      + apply py_index_outcome in Ho. contradiction.
      + discriminate Ho.
    - intros H. rewrite (Hflag H). reflexivity. }
  pose proof (get_template_data_after_set_control_points e time_index cps)
    as Hsame.
  split.
  { destruct e as [k T icp cpt imom momt itd tdt sm fm rk ns ch].
    destruct sm; reflexivity. }
  split.
  { intros H. split; [exact (Hflag H)|]. rewrite Hsame, (Hflag H). reflexivity. }
  split; [exact Hdown|]. split; [exact Hiff|].
  split; [destruct e; reflexivity|]. split; [destruct e; reflexivity|].
  split; [exact Hsame|]. split; [rewrite Hsame; exact Hiff|].
  intros l x Hfm Htd.
  assert (Hget : Exponential.get_template_data None e = (Ok x, e, [])).
  { destruct e as [k T icp cpt imom momt itd tdt sm fm rk ns ch].
    cbn in Hfm, Htd. subst fm tdt.
    unfold Exponential.get_template_data. py_unfold. exp_fields.
    rewrite py_index_last. reflexivity. }
  split; [exact Hget|].
  rewrite (get_template_data_after_set_control_points e None cps), Hget.
  reflexivity.
Qed.

(* ------------------------------------------------------------------ *)
(** ** Updating an exponential that is up to date *)

Lemma update_shot_run k T icp cpt imom momt itd tdt0 fm rk ns ch :
  (1 < T)%Z -> length cpt = Z.to_nat T -> length momt = Z.to_nat T ->
  exists w,
    Exponential.update
      (Exponential.Build_t (Some k) (Some T) icp (Some cpt) imom (Some momt)
                           itd tdt0 false fm rk ns ch)
    = (Ok tt,
       Exponential.Build_t (Some k) (Some T) icp (Some cpt) imom (Some momt)
         itd
         (match fm, itd with
          | true, Some td => Some (flow_template_data k (truthy rk) T td cpt momt)
          | _, _ => tdt0
          end)
         false
         (match fm, itd with
          | true, None => true
          | _, _ => false
          end) rk ns ch,
       w).
Proof.
  intros HT Hlc Hlm.
  assert (HT0 : (0 <? T)%Z = true) by (apply Z.ltb_lt; lia).
  destruct fm.
  - destruct itd as [td|].
    + exists [].
      unfold Exponential.update, Exponential.time_points,
        Exponential.flow_if_template.
      py_unfold. exp_fields. rewrite HT0. exp_fields. cbn [is_some]. cbv iota.
      rewrite flow_run by assumption. reflexivity.
    + exists [NothingToFlow].
      unfold Exponential.update, Exponential.time_points,
        Exponential.flow_if_template.
      py_unfold. exp_fields. rewrite HT0. reflexivity.
  - exists [].
    unfold Exponential.update, Exponential.time_points.
    py_unfold. exp_fields. rewrite HT0. destruct itd; reflexivity.
Qed.

(** C9.  On an exponential whose shoot is up to date, running [update]
    again succeeds and leaves [norm_squared] and the two shot trajectories as
    they are; so does a flow-only update, [set_initial_template_data]
    followed by [update], which recomputes the template trajectory only. *)
Theorem C9_norm_squared_frame (e : Exponential.t) (td : tensor) :
  shot e ->
  (outcome_of (Exponential.update e) = Ok tt /\
   Exponential.norm_squared (state_of (Exponential.update e))
   = Exponential.norm_squared e /\
   Exponential.control_points_t (state_of (Exponential.update e))
   = Exponential.control_points_t e /\
   Exponential.momenta_t (state_of (Exponential.update e))
   = Exponential.momenta_t e) /\
  (let r := (Exponential.set_initial_template_data (Some td) ;;
             Exponential.update) e in
   outcome_of r = Ok tt /\
   Exponential.norm_squared (state_of r) = Exponential.norm_squared e /\
   Exponential.control_points_t (state_of r) = Exponential.control_points_t e /\
   Exponential.momenta_t (state_of r) = Exponential.momenta_t e /\
   Exponential.flow_is_modified (state_of r) = false /\
   exists tdl,
     Exponential.template_data_t (state_of r) = Some tdl /\
     nth_error tdl 0 = Some td /\
     Some (Z.of_nat (length tdl)) = Exponential.number_of_time_points e).
Proof.
  intros (k & T & cpt & momt & Hk & HT & H1 & Hc & Hm & Hlc & Hlm & Hsm).
  destruct e as [k0 T0 icp cpt0 imom momt0 itd tdt0 sm fm rk ns ch].
  cbn in Hk, HT, Hc, Hm, Hsm. subst k0 T0 cpt0 momt0 sm.
  split.
  - destruct (update_shot_run k T icp cpt imom momt itd tdt0 fm rk ns ch H1 Hlc Hlm)
      as (w & Hrun).
    rewrite Hrun. cbn. auto.
  - destruct (update_shot_run k T icp cpt imom momt (Some td) tdt0 true rk ns ch
                H1 Hlc Hlm)
      as (w & Hrun).
    unfold Exponential.set_initial_template_data.
    cbv zeta. py_unfold. exp_fields.
    rewrite Hrun. cbn [outcome_of state_of fst snd]. exp_fields.
    repeat (split; [reflexivity|]).
    exists (flow_template_data k (truthy rk) T td cpt momt).
    split; [reflexivity|]. split; [reflexivity|].
    rewrite flow_template_data_length by assumption. f_equal. lia.
Qed.

(* ------------------------------------------------------------------ *)
(** ** The store of Cholesky factors *)

Lemma bind_ok_nil {S A B : Type} (m : M S A) (k : A -> M S B) (s s1 : S) (a : A) :
  m s = (Ok a, s1, []) -> bind m k s = k a s1.
Proof.
  intros H. unfold bind. rewrite H.
  destruct (k a s1) as [[r s2] w2]. reflexivity.
Qed.

Lemma preserves_after {S A B X : Type} (f : S -> X) (m : M S A)
    (k : A -> M S B) (s : S) :
  (forall a, preserves f (k a)) ->
  f (state_of (bind m k s)) = f (state_of (m s)).
Proof.
  intros H. rewrite state_of_bind.
  destruct (outcome_of (m s)); [apply H | reflexivity].
Qed.

Lemma flow_preserves_cache :
  preserves Exponential.cholesky_kernel_matrices Exponential._flow.
Proof.
  unfold Exponential._flow, Exponential.time_points,
    Exponential.append_template_data. frame.
  unfold Exponential.flow_step, Exponential.control_points_at,
    Exponential.momenta_at, Exponential.template_data_at,
    Exponential.the_kernel, Exponential.append_template_data,
    Exponential.replace_last_template_data. frame.
Qed.

Lemma flow_if_template_preserves_cache :
  preserves Exponential.cholesky_kernel_matrices Exponential.flow_if_template.
Proof.
  unfold Exponential.flow_if_template.
  apply preserves_bind; [apply preserves_get | intros e].
  destruct (is_some _); [|apply preserves_warn].
  apply preserves_bind; [apply flow_preserves_cache | intros _].
  frame.
Qed.

Lemma flow_preserves_shoot_flag :
  preserves Exponential.shoot_is_modified Exponential._flow.
Proof.
  unfold Exponential._flow, Exponential.time_points,
    Exponential.append_template_data. frame.
  unfold Exponential.flow_step, Exponential.control_points_at,
    Exponential.momenta_at, Exponential.template_data_at,
    Exponential.the_kernel, Exponential.append_template_data,
    Exponential.replace_last_template_data. frame.
Qed.

Lemma flow_if_template_preserves_shoot_flag :
  preserves Exponential.shoot_is_modified Exponential.flow_if_template.
Proof.
  unfold Exponential.flow_if_template.
  apply preserves_bind; [apply preserves_get | intros e].
  destruct (is_some _); [|apply preserves_warn].
  apply preserves_bind; [apply flow_preserves_shoot_flag | intros _].
  frame.
Qed.

(** C8 (as the code has it).  The setters of the control points and of the
    momenta raise the shoot flag and leave the store of Cholesky factors as
    it is; the store is emptied by the next [update], before it shoots; and
    while the shoot flag is up [parallel_transport] refuses to run, so that
    the factors left in the store are not read. *)
Theorem C8_cache_cleared_by_update
    (e : Exponential.t) (x : option tensor) (v : tensor) (flag : bool) :
  (Exponential.cholesky_kernel_matrices
     (state_of (Exponential.set_initial_control_points x e))
   = Exponential.cholesky_kernel_matrices e /\
   Exponential.shoot_is_modified
     (state_of (Exponential.set_initial_control_points x e)) = true) /\
  (Exponential.cholesky_kernel_matrices
     (state_of (Exponential.set_initial_momenta x e))
   = Exponential.cholesky_kernel_matrices e /\
   Exponential.shoot_is_modified
     (state_of (Exponential.set_initial_momenta x e)) = true) /\
  (Exponential.shoot_is_modified e = true ->
   Exponential.parallel_transport v flag e = (Raise AssertionError, e, [])) /\
  (Exponential.shoot_is_modified e = true ->
   outcome_of (Exponential.update e) = Ok tt ->
   Exponential.cholesky_kernel_matrices (state_of (Exponential.update e)) = [] /\
   Exponential.shoot_is_modified (state_of (Exponential.update e)) = false).
Proof.
  destruct e as [k T icp cpt imom momt itd tdt sm fm rk ns ch].
  split; [split; reflexivity|]. split; [split; reflexivity|].
  split; intros Hsm; cbn in Hsm; subst sm; [reflexivity|].
  intros Hok.
  destruct T as [T|]; [|discriminate Hok].
  destruct (0 <? T)%Z eqn:HT0.
  2:{ unfold Exponential.update, Exponential.time_points in Hok.
      revert Hok. py_unfold. exp_fields. rewrite HT0. discriminate. }
  assert (Hpc : forall u : unit,
             preserves Exponential.cholesky_kernel_matrices
               (e' <- get ;;
                if Exponential.flow_is_modified e'
                then Exponential.flow_if_template else ret tt)).
  { intros _. apply preserves_bind; [apply preserves_get | intros e'].
    destruct (Exponential.flow_is_modified e');
      [apply flow_if_template_preserves_cache | apply preserves_ret]. }
  assert (Hps : forall u : unit,
             preserves Exponential.shoot_is_modified
               (e' <- get ;;
                if Exponential.flow_is_modified e'
                then Exponential.flow_if_template else ret tt)).
  { intros _. apply preserves_bind; [apply preserves_get | intros e'].
    destruct (Exponential.flow_is_modified e');
      [apply flow_if_template_preserves_shoot_flag | apply preserves_ret]. }
  revert Hok. unfold Exponential.update.
  erewrite bind_ok_nil by reflexivity.
  rewrite HT0.
  erewrite bind_ok_nil by reflexivity.
  erewrite bind_ok_nil by reflexivity.
  cbn [Exponential.shoot_is_modified].
  rewrite outcome_of_bind.
  rewrite (preserves_after _ _ _ _ Hpc), (preserves_after _ _ _ _ Hps).
  erewrite bind_ok_nil by reflexivity.
  rewrite outcome_of_bind, !state_of_bind.
  pose proof (shoot_preserves_cache
                (Exponential.with_cholesky_kernel_matrices []
                   (Exponential.Build_t k (Some T) icp cpt imom momt itd tdt
                                        true fm rk ns ch))) as Hc.
  revert Hc.
  destruct (Exponential._shoot _) as [[[[]|ex] s2] w2];
    cbn [outcome_of state_of fst snd]; intros Hc.
  2:{ intros H. discriminate H. }
  intros _.
  cbn [outcome_of state_of modify fst snd].
  rewrite flow_if_template_preserves_cache, flow_if_template_preserves_shoot_flag.
  destruct s2. cbn in Hc. subst. split; reflexivity.
Qed.

(* ------------------------------------------------------------------ *)
(** ** Updating a geodesic *)

Lemma run_bind {S A B : Type} (m : M S A) (k : A -> M S B) (s s1 : S) (a : A) :
  run m s = (Ok a, s1) -> run (bind m k) s = run (k a) s1.
Proof.
  unfold run. intros H. injection H as Ho Hs.
  rewrite outcome_of_bind, state_of_bind, Ho, Hs. reflexivity.
Qed.

Lemma run_on_backward {A : Type} (m : M Exponential.t A) (g : Geodesic.t) :
  run (Geodesic.on_backward m) g
  = (fst (run m (Geodesic.backward_exponential g)),
     Geodesic.with_backward_exponential
       (snd (run m (Geodesic.backward_exponential g))) g).
Proof.
  unfold run, Geodesic.on_backward, outcome_of, state_of.
  destruct (m (Geodesic.backward_exponential g)) as [[r e] w]. reflexivity.
Qed.

Lemma run_on_forward {A : Type} (m : M Exponential.t A) (g : Geodesic.t) :
  run (Geodesic.on_forward m) g
  = (fst (run m (Geodesic.forward_exponential g)),
     Geodesic.with_forward_exponential
       (snd (run m (Geodesic.forward_exponential g))) g).
Proof.
  unfold run, Geodesic.on_forward, outcome_of, state_of.
  destruct (m (Geodesic.forward_exponential g)) as [[r e] w]. reflexivity.
Qed.

Lemma side_update_run k e n cps mom td :
  Exponential.kernel e = Some k ->
  (0 < len cps)%nat -> (0 < len mom)%nat ->
  run (if (1 <? n)%Z then Exponential.update else ret tt)
      (side_prepared e n cps mom td)
  = (Ok tt, side_updated k e n cps mom td).
Proof.
  intros Hk Hc Hm. unfold side_updated, side_prepared.
  destruct (1 <? n)%Z eqn:Hn; [|reflexivity].
  apply Z.ltb_lt in Hn.
  destruct e as [k0 T0 icp cpt0 imom momt0 itd tdt0 sm fm rk ns ch].
  cbn in Hk. subst k0. exp_fields.
  destruct (update_shoot_run k n cps cpt0 mom momt0 td tdt0 true rk ns ch Hn Hc Hm)
    as (w & Hrun & _).
  unfold run. rewrite Hrun. cbn [outcome_of state_of fst snd].
  destruct td; reflexivity.
Qed.

Lemma Rleb_true (x y : R) : x <= y -> Rleb x y = true.
Proof. intros H. unfold Rleb. destruct (Rle_dec x y); [reflexivity | contradiction]. Qed.

Lemma len_tmap (f : R -> R) (x : tensor) : len (tmap f x) = len x.
Proof. destruct x; cbn; apply length_map. Qed.

Lemma run_if_on_backward (b : bool) (m : M Exponential.t unit)
    (g : Geodesic.t) :
  run (if b then Geodesic.on_backward m else ret tt) g
  = (fst (run (if b then m else ret tt) (Geodesic.backward_exponential g)),
     Geodesic.with_backward_exponential
       (snd (run (if b then m else ret tt) (Geodesic.backward_exponential g))) g).
Proof.
  destruct b; [apply run_on_backward | destruct g; reflexivity].
Qed.

Lemma run_if_on_forward (b : bool) (m : M Exponential.t unit)
    (g : Geodesic.t) :
  run (if b then Geodesic.on_forward m else ret tt) g
  = (fst (run (if b then m else ret tt) (Geodesic.forward_exponential g)),
     Geodesic.with_forward_exponential
       (snd (run (if b then m else ret tt) (Geodesic.forward_exponential g))) g).
Proof.
  destruct b; [apply run_on_forward | destruct g; reflexivity].
Qed.

(** Attribute reads and writes on explicit objects, in the object a
    computation is run on. *)
Ltac obj_fields t :=
  eval cbn [Geodesic.with_concentration_of_time_points Geodesic.with_t0
       Geodesic.with_tmax Geodesic.with_tmin Geodesic.with_control_points_t0
       Geodesic.with_momenta_t0 Geodesic.with_template_data_t0
       Geodesic.with_backward_exponential Geodesic.with_forward_exponential
       Geodesic.with_shoot_is_modified Geodesic.with_flow_is_modified
       Geodesic.concentration_of_time_points Geodesic.t0 Geodesic.tmax
       Geodesic.tmin Geodesic.control_points_t0 Geodesic.momenta_t0
       Geodesic.template_data_t0 Geodesic.backward_exponential
       Geodesic.forward_exponential Geodesic.shoot_is_modified
       Geodesic.flow_is_modified Exponential.with_kernel
       Exponential.with_number_of_time_points
       Exponential.with_initial_control_points
       Exponential.with_control_points_t Exponential.with_initial_momenta
       Exponential.with_momenta_t Exponential.with_initial_template_data
       Exponential.with_template_data_t Exponential.with_shoot_is_modified
       Exponential.with_flow_is_modified Exponential.with_use_rk2
       Exponential.with_norm_squared
       Exponential.with_cholesky_kernel_matrices Exponential.kernel
       Exponential.number_of_time_points Exponential.initial_control_points
       Exponential.control_points_t Exponential.initial_momenta
       Exponential.momenta_t Exponential.initial_template_data
       Exponential.template_data_t Exponential.shoot_is_modified
       Exponential.flow_is_modified Exponential.use_rk2
       Exponential.norm_squared Exponential.cholesky_kernel_matrices
       Geodesic.on_backward Geodesic.on_forward
       Exponential.set_initial_momenta Exponential.set_initial_control_points
       Exponential.set_initial_template_data Exponential.set_use_rk2
       Exponential.set_kernel state_of outcome_of fst snd bind modify get ret
       require raise assert warn run andb orb negb is_some truthy
       Exponential.init Geodesic.init side_prepared argmin argmin_from map
       rev tl app linspace seq] in t.

Ltac norm_state :=
  match goal with
  | |- context [run ?m ?s] =>
      let s' := obj_fields s in change (run m s) with (run m s')
  end.

Ltac run_step := (erewrite run_bind by reflexivity); norm_state.

(** Evaluation of the list expressions of a program. *)
Ltac list_eval :=
  cbn [argmin argmin_from map rev tl app linspace seq nth_error length].

Lemma geodesic_update_run c a lo hi cps mom td be fe kb kf :
  lo <= a -> a <= hi ->
  Exponential.kernel be = Some kb ->
  Exponential.kernel fe = Some kf ->
  (0 < len cps)%nat -> (0 < len mom)%nat ->
  run Geodesic.update
      (Geodesic.Build_t (Some c) (Some a) (Some hi) (Some lo) (Some cps)
                        (Some mom) td be fe true true)
  = (Ok tt,
     Geodesic.Build_t (Some c) (Some a) (Some hi) (Some lo) (Some cps)
       (Some mom) td
       (side_updated kb be (Geodesic.number_of_points (a - lo) c) cps
                     (muls (tneg mom) (a - lo)) td)
       (side_updated kf fe (Geodesic.number_of_points (hi - a) c) cps
                     (muls mom (hi - a)) td)
       false false).
Proof.
  intros Hlo Hhi Hkb Hkf Hc Hm.
  destruct be as [kb0 bT bicp bcpt bimom bmomt bitd btdt bsm bfm brk bns bch].
  destruct fe as [kf0 fT ficp fcpt fimom fmomt fitd ftdt fsm ffm frk fns fch].
  cbn in Hkb, Hkf. subst kb0 kf0.
  unfold Geodesic.update.
  do 3 run_step.
  rewrite (Rleb_true lo a Hlo). do 2 run_step.
  rewrite (Rleb_true a hi Hhi). do 5 run_step.
  erewrite run_bind.
  2:{ rewrite run_if_on_backward. cbn [Geodesic.backward_exponential].
      change (run (if (1 <? Geodesic.number_of_points (a - lo) c)%Z
                   then Exponential.update else ret tt) _)
        with (run (if (1 <? Geodesic.number_of_points (a - lo) c)%Z
                   then Exponential.update else ret tt)
                (side_prepared
                   (Exponential.Build_t (Some kb) bT bicp bcpt bimom bmomt bitd
                                        btdt bsm bfm brk bns bch)
                   (Geodesic.number_of_points (a - lo) c) cps
                   (muls (tneg mom) (a - lo)) td)).
      rewrite (side_update_run kb); [reflexivity | reflexivity | assumption |].
      unfold muls, tneg. rewrite !len_tmap. assumption. }
  norm_state. do 3 run_step.
  erewrite run_bind.
  2:{ rewrite run_if_on_forward. cbn [Geodesic.forward_exponential].
      change (run (if (1 <? Geodesic.number_of_points (hi - a) c)%Z
                   then Exponential.update else ret tt) _)
        with (run (if (1 <? Geodesic.number_of_points (hi - a) c)%Z
                   then Exponential.update else ret tt)
                (side_prepared
                   (Exponential.Build_t (Some kf) fT ficp fcpt fimom fmomt fitd
                                        ftdt fsm ffm frk fns fch)
                   (Geodesic.number_of_points (hi - a) c) cps
                   (muls mom (hi - a)) td)).
      rewrite (side_update_run kf); [reflexivity | reflexivity | assumption |].
      unfold muls. rewrite !len_tmap. assumption. }
  norm_state. reflexivity.
Qed.

(* ------------------------------------------------------------------ *)
(** ** The number of time points of each side *)

Lemma py_int_nonneg (x : R) : 0 <= x -> py_int x = Zfloor x.
Proof. intros H. unfold py_int. destruct (Rle_dec 0 x); [reflexivity | contradiction]. Qed.

Lemma number_of_points_floor (delta_t c : R) :
  0 <= delta_t -> 0 < c ->
  Geodesic.number_of_points delta_t c = Zfloor (delta_t * c + 1.5) /\
  (1 <= Geodesic.number_of_points delta_t c)%Z.
Proof.
  intros Hd Hc. unfold Geodesic.number_of_points.
  assert (H0 : 0 <= delta_t * c) by (apply Rmult_le_pos; lra).
  rewrite py_int_nonneg by lra.
  assert (H1 : (1 <= Zfloor (delta_t * c + 1.5))%Z) by (apply Zfloor_lub; lra).
  split; lia.
Qed.

Lemma update_preserves_points :
  preserves Exponential.number_of_time_points Exponential.update.
Proof.
  unfold Exponential.update, Exponential.time_points, Exponential.flow_if_template,
    Exponential._shoot, Exponential._flow, Exponential.time_points,
    Exponential.append_control_points, Exponential.append_momenta,
    Exponential.append_template_data, Exponential.the_kernel.
  frame;
    unfold Exponential.shoot_step, Exponential.flow_step,
      Exponential.control_points_at, Exponential.momenta_at,
      Exponential.template_data_at, Exponential.the_kernel,
      Exponential.append_control_points, Exponential.append_momenta,
      Exponential.append_template_data, Exponential.replace_last_template_data,
      Exponential._euler_step;
    frame.
Qed.

Lemma setters_preserve_points (x : option tensor) :
  preserves Exponential.number_of_time_points (Exponential.set_initial_momenta x) /\
  preserves Exponential.number_of_time_points
    (Exponential.set_initial_control_points x) /\
  preserves Exponential.number_of_time_points
    (Exponential.set_initial_template_data x).
Proof. repeat split; intros []; reflexivity. Qed.

Lemma on_backward_backward_points {A : Type} (m : M Exponential.t A) :
  preserves Exponential.number_of_time_points m ->
  preserves backward_points (Geodesic.on_backward m).
Proof.
  intros H g. specialize (H (Geodesic.backward_exponential g)).
  unfold backward_points, Geodesic.on_backward, state_of in *.
  destruct (m (Geodesic.backward_exponential g)) as [[r e] w]. exact H.
Qed.

Lemma on_forward_forward_points {A : Type} (m : M Exponential.t A) :
  preserves Exponential.number_of_time_points m ->
  preserves forward_points (Geodesic.on_forward m).
Proof.
  intros H g. specialize (H (Geodesic.forward_exponential g)).
  unfold forward_points, Geodesic.on_forward, state_of in *.
  destruct (m (Geodesic.forward_exponential g)) as [[r e] w]. exact H.
Qed.

Lemma on_forward_backward_points {A : Type} (m : M Exponential.t A) :
  preserves backward_points (Geodesic.on_forward m).
Proof.
  intros g. unfold backward_points, Geodesic.on_forward, state_of.
  destruct (m (Geodesic.forward_exponential g)) as [[r e] w]. reflexivity.
Qed.

Lemma on_backward_forward_points {A : Type} (m : M Exponential.t A) :
  preserves forward_points (Geodesic.on_backward m).
Proof.
  intros g. unfold forward_points, Geodesic.on_backward, state_of.
  destruct (m (Geodesic.backward_exponential g)) as [[r e] w]. reflexivity.
Qed.

Ltac points_step :=
  match goal with
  | |- preserves backward_points (Geodesic.on_forward _) =>
      apply on_forward_backward_points
  | |- preserves forward_points (Geodesic.on_backward _) =>
      apply on_backward_forward_points
  | |- preserves backward_points (Geodesic.on_backward Exponential.update) =>
      apply on_backward_backward_points, update_preserves_points
  | |- preserves forward_points (Geodesic.on_forward Exponential.update) =>
      apply on_forward_forward_points, update_preserves_points
  | |- preserves backward_points (Geodesic.on_backward _) =>
      apply on_backward_backward_points, setters_preserve_points
  | |- preserves forward_points (Geodesic.on_forward _) =>
      apply on_forward_forward_points, setters_preserve_points
  | |- _ => frame_step
  end.

Lemma run_bind_inv {S A B : Type} (m : M S A) (k : A -> M S B) (s : S) (b : B) :
  fst (run (bind m k) s) = Ok b ->
  exists a, run (bind m k) s = run (k a) (state_of (m s)).
Proof.
  unfold run. cbn [fst]. rewrite outcome_of_bind, state_of_bind.
  destruct (outcome_of (m s)) as [a|e]; [|discriminate].
  intros _. exists a. reflexivity.
Qed.

Lemma update_side_points (g : Geodesic.t) (a lo hi c : R) :
  Geodesic.t0 g = Some a ->
  Geodesic.tmin g = Some lo ->
  Geodesic.tmax g = Some hi ->
  Geodesic.concentration_of_time_points g = Some c ->
  lo <= a -> a <= hi ->
  outcome_of (Geodesic.update g) = Ok tt ->
  backward_points (state_of (Geodesic.update g))
  = Some (Geodesic.number_of_points (a - lo) c) /\
  forward_points (state_of (Geodesic.update g))
  = Some (Geodesic.number_of_points (hi - a) c).
Proof.
  intros Ha Hlo Hhi Hc Hle1 Hle2 Hok.
  destruct g as [c0 a0 hi0 lo0 cps mom td be fe sm fm].
  cbn in Ha, Hlo, Hhi, Hc. subst c0 a0 hi0 lo0.
  change (outcome_of (Geodesic.update ?s)) with (fst (run Geodesic.update s)) in Hok.
  change (state_of (Geodesic.update ?s)) with (snd (run Geodesic.update s)).
  revert Hok. unfold Geodesic.update.
  do 3 run_step.
  rewrite (Rleb_true lo a Hle1). do 2 run_step.
  rewrite (Rleb_true a hi Hle2). do 3 run_step.
  cbn [Geodesic.shoot_is_modified Geodesic.flow_is_modified Geodesic.momenta_t0
       Geodesic.control_points_t0 Geodesic.template_data_t0].
  intros Hok. split.
  - match goal with
    | |- backward_points (snd (run ?X ?s)) = _ =>
        change (backward_points (state_of (X s)) = backward_points s);
        generalize s; change (preserves backward_points X)
    end.
    repeat points_step.
  - destruct (run_bind_inv _ _ _ _ Hok) as [u1 H1]. rewrite H1 in Hok |- *. clear H1.
    destruct (run_bind_inv _ _ _ _ Hok) as [u2 H2]. rewrite H2 in Hok |- *. clear H2.
    destruct (run_bind_inv _ _ _ _ Hok) as [u3 H3]. rewrite H3 in Hok |- *. clear H3.
    erewrite run_bind by (rewrite run_on_forward; reflexivity).
    match goal with
    | |- forward_points (snd (run ?X ?s)) = _ =>
        change (forward_points (state_of (X s)) = forward_points s);
        generalize s; change (preserves forward_points X)
    end.
    repeat points_step.
Qed.

(* ------------------------------------------------------------------ *)
(** ** Concrete geodesics *)

Lemma geodesic_with_eq k c a lo hi cps mom td :
  geodesic_with k c a lo hi cps mom td
  = Geodesic.Build_t (Some c) (Some a) (Some hi) (Some lo) (Some cps) (Some mom) td
      (Exponential.with_use_rk2 (Some false)
         (Exponential.with_kernel (Some k) Exponential.init))
      (Exponential.with_use_rk2 (Some false)
         (Exponential.with_kernel (Some k) Exponential.init))
      true true.
Proof. reflexivity. Qed.

Lemma exponential_with_eq k rk2 T cps mom td :
  exponential_with k rk2 T cps mom td
  = Exponential.Build_t (Some k) (Some T) (Some cps) None (Some mom) None td None
                        true true (Some rk2) None [].
Proof. reflexivity. Qed.

Lemma geodesic_with_update k c a lo hi cps mom td :
  lo <= a -> a <= hi -> (0 < len cps)%nat -> (0 < len mom)%nat ->
  run Geodesic.update (geodesic_with k c a lo hi cps mom td)
  = (Ok tt,
     Geodesic.Build_t (Some c) (Some a) (Some hi) (Some lo) (Some cps)
       (Some mom) td
       (side_updated k
          (Exponential.with_use_rk2 (Some false)
             (Exponential.with_kernel (Some k) Exponential.init))
          (Geodesic.number_of_points (a - lo) c) cps
          (muls (tneg mom) (a - lo)) td)
       (side_updated k
          (Exponential.with_use_rk2 (Some false)
             (Exponential.with_kernel (Some k) Exponential.init))
          (Geodesic.number_of_points (hi - a) c) cps
          (muls mom (hi - a)) td)
       false false).
Proof.
  intros. rewrite geodesic_with_eq.
  apply geodesic_update_run; auto.
Qed.

Lemma outcome_of_run {S A : Type} (m : M S A) (s : S) :
  outcome_of (m s) = fst (run m s).
Proof. reflexivity. Qed.

(** C3 (as the code has it).  For [tmin <= t0 <= tmax] and a positive
    concentration, an [update] that returns has given each side
    [max(1, int(Dt * concentration + 1.5))] time points, [Dt] being the time
    the side spans; [int] truncates, so that this is the floor of
    [Dt * concentration + 1.5], one more than [Dt * concentration] rounded
    half up.  And [update] does return on a geodesic configured through its
    setters with these times, a kernel and non-empty control points and
    momenta. *)
Theorem C3_points_by_truncation (g : Geodesic.t) (a lo hi c : R) :
  Geodesic.t0 g = Some a ->
  Geodesic.tmin g = Some lo ->
  Geodesic.tmax g = Some hi ->
  Geodesic.concentration_of_time_points g = Some c ->
  lo <= a -> a <= hi -> 0 < c ->
  outcome_of (Geodesic.update g) = Ok tt ->
  backward_points (state_of (Geodesic.update g))
  = Some (Z.max 1 (py_int ((a - lo) * c + 1.5))) /\
  forward_points (state_of (Geodesic.update g))
  = Some (Z.max 1 (py_int ((hi - a) * c + 1.5))) /\
  Z.max 1 (py_int ((a - lo) * c + 1.5)) = Zfloor ((a - lo) * c + 1.5) /\
  Z.max 1 (py_int ((hi - a) * c + 1.5)) = Zfloor ((hi - a) * c + 1.5) /\
  (forall k cps mom td,
      (0 < len cps)%nat -> (0 < len mom)%nat ->
      outcome_of (Geodesic.update (geodesic_with k c a lo hi cps mom td)) = Ok tt).
Proof.
  intros Ha Hlo Hhi Hc H1 H2 Hpos Hok.
  destruct (update_side_points g a lo hi c Ha Hlo Hhi Hc H1 H2 Hok) as [Hb Hf].
  split; [exact Hb|]. split; [exact Hf|].
  split; [apply number_of_points_floor; lra|].
  split; [apply number_of_points_floor; lra|].
  intros k cps mom td Hcps Hmom.
  rewrite (outcome_of_run Geodesic.update).
  rewrite geodesic_with_update by assumption. reflexivity.
Qed.

Lemma Zfloor_2_1 : Zfloor ((0.6 - 0) * 1 + 1.5) = 2%Z.
Proof. apply Zfloor_eq. cbn [IZR]. lra. Qed.

Lemma C3_points_by_truncation_witness :
  backward_points (state_of (Geodesic.update geodesic_c3))
  = Some (Z.max 1 (py_int ((0.6 - 0) * 1 + 1.5))) /\
  forward_points (state_of (Geodesic.update geodesic_c3))
  = Some (Z.max 1 (py_int ((0.6 - 0.6) * 1 + 1.5))) /\
  Z.max 1 (py_int ((0.6 - 0) * 1 + 1.5)) = Zfloor ((0.6 - 0) * 1 + 1.5) /\
  Z.max 1 (py_int ((0.6 - 0.6) * 1 + 1.5)) = Zfloor ((0.6 - 0.6) * 1 + 1.5).
Proof.
  destruct (C3_points_by_truncation geodesic_c3 0.6 0 0.6 1)
    as (Hb & Hf & Hbf & Hff & _); try reflexivity; try lra.
  - change (outcome_of (Geodesic.update geodesic_c3))
      with (fst (run Geodesic.update geodesic_c3)).
    unfold geodesic_c3.
    rewrite geodesic_with_update; [reflexivity | lra | lra | | ]; cbn; lia.
  - repeat split; assumption.
Defined.

(** The formula of the specification, [max(1, round(c * Dt + 0.5))], is
    not what the backward side receives when it spans [0.6] time units at
    concentration [1]: it receives [2] points, the formula gives [1]. *)
Lemma C3_rounding_formula_fails :
  outcome_of (Geodesic.update geodesic_c3) = Ok tt /\
  backward_points (state_of (Geodesic.update geodesic_c3)) = Some 2%Z /\
  Z.max 1 (py_round (1 * (0.6 - 0) + 0.5)) = 1%Z /\
  backward_points (state_of (Geodesic.update geodesic_c3))
  <> Some (Z.max 1 (py_round (1 * (0.6 - 0) + 0.5))).
Proof.
  assert (Hf : Zfloor (1 * (0.6 - 0) + 0.5) = 1%Z).
  { apply Zfloor_eq. cbn [IZR]. lra. }
  assert (Hr : Z.max 1 (py_round (1 * (0.6 - 0) + 0.5)) = 1%Z).
  { unfold py_round. rewrite Hf.
    destruct (Rlt_dec _ _) as [_|Hn]; [reflexivity|].
    exfalso. apply Hn. cbn [IZR]. lra. }
  rewrite Hr.
  change (outcome_of (Geodesic.update geodesic_c3))
    with (fst (run Geodesic.update geodesic_c3)).
  change (state_of (Geodesic.update geodesic_c3))
    with (snd (run Geodesic.update geodesic_c3)).
  unfold geodesic_c3. rewrite geodesic_with_update; [ | lra | lra | cbn; lia | cbn; lia].
  cbn [fst snd].
  assert (Hn : Geodesic.number_of_points (0.6 - 0) 1 = 2%Z).
  { unfold Geodesic.number_of_points. rewrite py_int_nonneg by lra.
    rewrite Zfloor_2_1. reflexivity. }
  unfold backward_points. cbn [Geodesic.backward_exponential]. rewrite Hn.
  split; [reflexivity|]. split; [reflexivity|]. split; [reflexivity|].
  cbn. discriminate.
Qed.

(* ------------------------------------------------------------------ *)
(** ** Scaling the momenta *)

Lemma zip_with_map {A B C D E : Type} (f : C -> D -> E) (g : A -> C) (h : B -> D)
    (l1 : list A) (l2 : list B) :
  zip_with f (map g l1) (map h l2) = zip_with (fun a b => f (g a) (h b)) l1 l2.
Proof.
  revert l2. induction l1 as [|a l1 IH]; intros [|b l2]; cbn; try reflexivity.
  rewrite IH. reflexivity.
Qed.

Lemma zip_with_ext {A B C : Type} (f g : A -> B -> C) (l1 : list A) (l2 : list B) :
  (forall a b, f a b = g a b) -> zip_with f l1 l2 = zip_with g l1 l2.
Proof.
  intros H. revert l2. induction l1 as [|a l1 IH]; intros [|b l2]; cbn;
    try reflexivity.
  rewrite H, IH. reflexivity.
Qed.

Lemma map_zip_with {A B C D : Type} (f : A -> B -> C) (g : C -> D)
    (l1 : list A) (l2 : list B) :
  map g (zip_with f l1 l2) = zip_with (fun a b => g (f a b)) l1 l2.
Proof.
  revert l2. induction l1 as [|a l1 IH]; intros [|b l2]; cbn; try reflexivity.
  rewrite IH. reflexivity.
Qed.

Lemma sum_list_scale (s : R) (l : list R) :
  sum_list (map (Rmult s) l) = s * sum_list l.
Proof.
  unfold sum_list. induction l as [|a l IH]; cbn; [ring | rewrite IH; ring].
Qed.

Lemma dotv_scale (s t : R) (x y : list R) :
  dotv (map (Rmult s) x) (map (Rmult t) y) = s * t * dotv x y.
Proof.
  unfold dotv. rewrite zip_with_map.
  rewrite (zip_with_ext _ (fun a b => (s * t) * (a * b))) by (intros; ring).
  rewrite <- (map_zip_with Rmult (Rmult (s * t))).
  apply sum_list_scale.
Qed.

Lemma tmap_ext (f g : R -> R) (x : tensor) :
  (forall a, f a = g a) -> tmap f x = tmap g x.
Proof.
  intros H. destruct x as [v|m]; cbn; f_equal.
  - apply map_ext. exact H.
  - apply map_ext. intros r. apply map_ext. exact H.
Qed.

Lemma view1_tmap (f : R -> R) (x : tensor) : view1 (tmap f x) = map f (view1 x).
Proof. destruct x as [v|m]; cbn; [reflexivity | symmetry; apply concat_map]. Qed.

Lemma dot_scale (s t : R) (x y : tensor) :
  dot (tmap (Rmult s) x) (tmap (Rmult t) y) = s * t * dot x y.
Proof. unfold dot. rewrite !view1_tmap. apply dotv_scale. Qed.

Lemma tmap_tmap (f g : R -> R) (x : tensor) :
  tmap f (tmap g x) = tmap (fun a => f (g a)) x.
Proof.
  destruct x as [v|m]; cbn; f_equal.
  - apply map_map.
  - rewrite map_map. apply map_ext. intros r. apply map_map.
Qed.

(** The squared norm of momenta rescaled by the time a side spans. *)
Lemma norm_forward_scaled k (s : R) (cps mom : tensor) :
  linear_in_weights k ->
  dot (muls mom s) (convolve k cps cps (muls mom s))
  = s * s * dot mom (convolve k cps cps mom).
Proof.
  intros Hk.
  assert (He : muls mom s = tmap (Rmult s) mom)
    by (apply tmap_ext; intros; ring).
  rewrite He, Hk. apply dot_scale.
Qed.

Lemma norm_backward_scaled k (s : R) (cps mom : tensor) :
  linear_in_weights k ->
  dot (muls (tneg mom) s) (convolve k cps cps (muls (tneg mom) s))
  = s * s * dot mom (convolve k cps cps mom).
Proof.
  intros Hk.
  assert (He : muls (tneg mom) s = tmap (Rmult (- s)) mom).
  { unfold muls, tneg. rewrite tmap_tmap. apply tmap_ext. intros; ring. }
  rewrite He, Hk, dot_scale. ring.
Qed.

Lemma vsum_scale (s : R) (l : list (list R)) :
  vsum (map (map (Rmult s)) l) = map (Rmult s) (vsum l).
Proof.
  induction l as [|v l IH]; [reflexivity|].
  destruct l as [|v' l]; [reflexivity|].
  change (vsum (map (map (Rmult s)) (v :: v' :: l)))
    with (zip_with Rplus (map (Rmult s) v) (vsum (map (map (Rmult s)) (v' :: l)))).
  rewrite IH.
  change (vsum (v :: v' :: l)) with (zip_with Rplus v (vsum (v' :: l))).
  rewrite zip_with_map, map_zip_with.
  apply zip_with_ext. intros; ring.
Qed.

Lemma rows_tmap (f : R -> R) (x : tensor) : rows (tmap f x) = map (map f) (rows x).
Proof. destruct x; reflexivity. Qed.

Lemma gaussian_linear_in_weights (w : R) : linear_in_weights (create_kernel_exact w).
Proof.
  intros s x p. cbn [convolve create_kernel_exact]. unfold gaussian_convolve.
  rewrite rows_tmap. cbn [tmap]. f_equal.
  rewrite map_map. apply map_ext. intros xi.
  rewrite <- vsum_scale. f_equal.
  rewrite <- (map_id (rows x)) at 1.
  rewrite zip_with_map, map_zip_with.
  apply zip_with_ext. intros yj pj.
  rewrite !map_map. apply map_ext. intros; ring.
Qed.

Lemma squared_distance_self (x : list R) : squared_distance x x = 0.
Proof.
  unfold squared_distance. induction x as [|a x IH]; cbn; [reflexivity|].
  unfold sum_list in IH. rewrite IH. ring.
Qed.

Lemma gaussian_self (w : R) (x : list R) : gaussian w x x = 1.
Proof.
  unfold gaussian. rewrite squared_distance_self.
  replace (- 0 / (w * w)) with 0 by (unfold Rdiv; ring).
  apply exp_0.
Qed.

Lemma side_updated_norm k e n cps mom td :
  (1 < n)%Z ->
  Exponential.norm_squared (side_updated k e n cps mom td)
  = Some (dot mom (convolve k cps cps mom)) /\
  Exponential.shoot_is_modified (side_updated k e n cps mom td) = false.
Proof.
  intros Hn. apply Z.ltb_lt in Hn. unfold side_updated. rewrite Hn.
  split; reflexivity.
Qed.

Lemma geodesic_update_norms k c a lo hi cps mom td be fe :
  lo <= a -> a <= hi ->
  Exponential.kernel be = Some k ->
  Exponential.kernel fe = Some k ->
  (0 < len cps)%nat -> (0 < len mom)%nat ->
  linear_in_weights k ->
  (1 < Geodesic.number_of_points (a - lo) c)%Z ->
  (1 < Geodesic.number_of_points (hi - a) c)%Z ->
  exists g',
    run Geodesic.update
        (Geodesic.Build_t (Some c) (Some a) (Some hi) (Some lo) (Some cps)
                          (Some mom) td be fe true true)
    = (Ok tt, g') /\
    Exponential.shoot_is_modified (Geodesic.forward_exponential g') = false /\
    Exponential.norm_squared (Geodesic.forward_exponential g')
    = Some ((hi - a) * (hi - a) * dot mom (convolve k cps cps mom)) /\
    Exponential.norm_squared (Geodesic.backward_exponential g')
    = Some ((a - lo) * (a - lo) * dot mom (convolve k cps cps mom)).
Proof.
  intros Hlo Hhi Hkb Hkf Hc Hm Hlin Hnb Hnf.
  rewrite (geodesic_update_run c a lo hi cps mom td be fe k k Hlo Hhi Hkb Hkf Hc Hm).
  eexists. split; [reflexivity|]. cbn [Geodesic.forward_exponential
                                        Geodesic.backward_exponential].
  destruct (side_updated_norm k fe _ cps (muls mom (hi - a)) td Hnf) as [Hfn Hfs].
  destruct (side_updated_norm k be _ cps (muls (tneg mom) (a - lo)) td Hnb)
    as [Hbn _].
  rewrite norm_forward_scaled in Hfn by assumption.
  rewrite norm_backward_scaled in Hbn by assumption.
  auto.
Qed.

Lemma geodesic_update_reflow_norms k c a lo hi cps mom td be fe :
  lo <= a -> a <= hi ->
  Exponential.kernel be = Some k ->
  Exponential.kernel fe = Some k ->
  (0 < len cps)%nat -> (0 < len mom)%nat ->
  linear_in_weights k ->
  (1 < Geodesic.number_of_points (a - lo) c)%Z ->
  (1 < Geodesic.number_of_points (hi - a) c)%Z ->
  exists g',
    run Geodesic.update
        (Geodesic.Build_t (Some c) (Some a) (Some hi) (Some lo) (Some cps)
                          (Some mom) td be fe true false)
    = (Ok tt, g') /\
    Exponential.shoot_is_modified (Geodesic.forward_exponential g') = false /\
    Exponential.norm_squared (Geodesic.forward_exponential g')
    = Some ((hi - a) * (hi - a) * dot mom (convolve k cps cps mom)) /\
    Exponential.norm_squared (Geodesic.backward_exponential g')
    = Some ((a - lo) * (a - lo) * dot mom (convolve k cps cps mom)).
Proof.
  intros Hlo Hhi Hkb Hkf Hc Hm Hlin Hnb Hnf.
  destruct be as [kb0 bT bicp bcpt bimom bmomt bitd btdt bsm bfm brk bns bch].
  destruct fe as [kf0 fT ficp fcpt fimom fmomt fitd ftdt fsm ffm frk fns fch].
  cbn in Hkb, Hkf. subst kb0 kf0.
  set (nb := Geodesic.number_of_points (a - lo) c) in *.
  set (nf := Geodesic.number_of_points (hi - a) c) in *.
  set (mb := muls (tneg mom) (a - lo)).
  set (mf := muls mom (hi - a)).
  assert (Hlmb : (0 < len mb)%nat)
    by (unfold mb, muls, tneg; rewrite !len_tmap; assumption).
  assert (Hlmf : (0 < len mf)%nat)
    by (unfold mf, muls; rewrite !len_tmap; assumption).
  destruct (update_shoot_run k nb cps bcpt mb bmomt bitd btdt bfm brk bns bch
              Hnb Hc Hlmb) as (wb & Hrunb & _).
  destruct (update_shoot_run k nf cps fcpt mf fmomt fitd ftdt ffm frk fns fch
              Hnf Hc Hlmf) as (wf & Hrunf & _).
  unfold Geodesic.update.
  do 3 run_step.
  rewrite (Rleb_true lo a Hlo). do 2 run_step.
  rewrite (Rleb_true a hi Hhi). do 5 run_step.
  erewrite run_bind.
  2:{ rewrite run_if_on_backward. fold nb.
      rewrite (proj2 (Z.ltb_lt 1 nb) Hnb).
      cbv [Geodesic.backward_exponential Geodesic.with_backward_exponential].
      exp_fields. fold mb. unfold run. rewrite Hrunb. reflexivity. }
  norm_state. do 3 run_step.
  erewrite run_bind.
  2:{ rewrite run_if_on_forward. fold nf.
      rewrite (proj2 (Z.ltb_lt 1 nf) Hnf).
      cbv [Geodesic.forward_exponential Geodesic.with_forward_exponential].
      exp_fields. fold mf. unfold run. rewrite Hrunf. reflexivity. }
  norm_state.
  eexists. split; [reflexivity|].
  cbn [Geodesic.forward_exponential Geodesic.backward_exponential
       Exponential.norm_squared Exponential.shoot_is_modified].
  split; [reflexivity|].
  split.
  - transitivity (Some (dot mf (convolve k cps cps mf))); [reflexivity|].
    unfold mf. rewrite norm_forward_scaled by assumption. reflexivity.
  - transitivity (Some (dot mb (convolve k cps cps mb))); [reflexivity|].
    unfold mb. rewrite norm_backward_scaled by assumption. reflexivity.
Qed.

(** ** An update that does not shoot *)



Lemma keeps_preserves {S A X : Type} (f : S -> X) (x : X) (m : M S A) :
  preserves f m -> keeps f x m.
Proof. intros H s Hs. rewrite H. exact Hs. Qed.

Lemma keeps_bind {S A B X : Type} (f : S -> X) (x : X) (m : M S A)
    (k : A -> M S B) :
  keeps f x m -> (forall a, keeps f x (k a)) -> keeps f x (bind m k).
Proof.
  intros Hm Hk s Hs. rewrite state_of_bind.
  pose proof (Hm s Hs) as H1.
  destruct (outcome_of (m s)) as [a|e]; [apply Hk|]; exact H1.
Qed.

Lemma keeps_get_bind {S B X : Type} (f : S -> X) (x : X) (k : S -> M S B) :
  (forall a, f a = x -> keeps f x (k a)) -> keeps f x (bind get k).
Proof.
  intros Hk s Hs. rewrite state_of_bind. apply (Hk s Hs s Hs).
Qed.

Lemma flow_if_template_preserves_norm :
  preserves norm_record Exponential.flow_if_template.
Proof.
  unfold Exponential.flow_if_template.
  apply preserves_bind; [apply preserves_get | intros e].
  destruct (is_some _); [|apply preserves_warn].
  apply preserves_bind; [|intros _; frame].
  unfold Exponential._flow, Exponential.time_points,
    Exponential.append_template_data. frame.
  unfold Exponential.flow_step, Exponential.control_points_at,
    Exponential.momenta_at, Exponential.template_data_at,
    Exponential.the_kernel, Exponential.append_template_data,
    Exponential.replace_last_template_data. frame.
Qed.

(** With the shoot flag down [update] leaves the norm and the flag as they
    are, whether it returns or raises. *)
Lemma update_keeps_norm (ns : option R) :
  keeps norm_record (false, ns) Exponential.update.
Proof.
  unfold Exponential.update, Exponential.time_points.
  apply keeps_bind; [apply keeps_preserves; frame | intros T].
  apply keeps_bind; [apply keeps_preserves; frame | intros _].
  apply keeps_get_bind. intros e He.
  assert (Hsm : Exponential.shoot_is_modified e = false)
    by exact (f_equal fst He).
  rewrite Hsm.
  apply keeps_bind; [apply keeps_preserves; frame | intros _].
  apply keeps_bind; [apply keeps_preserves; frame | intros e'].
  destruct (Exponential.flow_is_modified e').
  - apply keeps_preserves. apply flow_if_template_preserves_norm.
  - apply keeps_preserves. frame.
Qed.


Lemma on_backward_forward_norm {A : Type} (m : M Exponential.t A) :
  preserves forward_norm_record (Geodesic.on_backward m).
Proof.
  intros g. unfold Geodesic.on_backward, state_of.
  destruct (m (Geodesic.backward_exponential g)) as [[r e] w]. reflexivity.
Qed.

Lemma on_forward_forward_norm {A : Type} (m : M Exponential.t A)
    (ns : option R) :
  keeps norm_record (false, ns) m ->
  keeps forward_norm_record (false, (false, ns)) (Geodesic.on_forward m).
Proof.
  intros H g Hg.
  assert (Hf : norm_record (Geodesic.forward_exponential g) = (false, ns))
    by exact (f_equal snd Hg).
  assert (Hs : Geodesic.shoot_is_modified g = false) by exact (f_equal fst Hg).
  specialize (H (Geodesic.forward_exponential g) Hf).
  unfold Geodesic.on_forward, state_of in *.
  destruct (m (Geodesic.forward_exponential g)) as [[r e] w].
  cbn [fst snd] in *. unfold forward_norm_record.
  destruct g. cbn in *. rewrite H, Hs. reflexivity.
Qed.

(** An [update] that finds the shoot flag of the geodesic down, on a
    forward exponential whose shoot is up to date, leaves the norm of that
    exponential as it is, whether it returns or raises. *)
Lemma geodesic_update_keeps_norm (ns : option R) :
  keeps forward_norm_record (false, (false, ns)) Geodesic.update.
Proof.
  unfold Geodesic.update.
  apply keeps_get_bind. intros g Hg.
  assert (Hsm : Geodesic.shoot_is_modified g = false) by exact (f_equal fst Hg).
  rewrite Hsm.
  repeat first
    [ apply keeps_bind; [|intros]
    | apply keeps_preserves; apply on_backward_forward_norm
    | apply on_forward_forward_norm; apply keeps_preserves; intros []; reflexivity
    | apply on_forward_forward_norm; apply update_keeps_norm
    | match goal with
      | |- keeps _ _ (if ?b then _ else _) => destruct b
      end
    | apply keeps_preserves; frame_step ].
  intros s Hs. destruct s. unfold forward_norm_record in *. cbn in *.
  injection Hs as _ H1 H2. unfold norm_record. rewrite H1, H2. reflexivity.
Qed.

(** C4 (as the code has it).  In every state [get_norm_squared] returns the
    [norm_squared] that the forward exponential stores, warns where the shoot
    of that exponential is stale, and changes nothing.  An [update] that
    finds the shoot flag of the geodesic raised, whatever the flow flag, on
    a geodesic both sides of which get more than one time point, returns and
    leaves [(tmax - t0)^2 <mom, K mom>] as the norm of the forward
    exponential and [(t0 - tmin)^2 <mom, K mom>] as that of the backward
    exponential: the two agree when both sides span the same time.  An
    [update] that finds the shoot flag of the geodesic down, on a forward
    exponential whose own shoot flag is down, leaves the norm of that
    exponential as it was, whether it returns or raises. *)
Theorem C4_norm_squared_is_forward
    (g0 : Geodesic.t)
    (k : Kernel) (c a lo hi : R) (cps mom : tensor) (td : option tensor)
    (be fe : Exponential.t) (fm : bool) :
  Geodesic.get_norm_squared g0
  = (Ok (Exponential.norm_squared (Geodesic.forward_exponential g0)), g0,
     if Exponential.shoot_is_modified (Geodesic.forward_exponential g0)
     then [StaleNormRead] else []) /\
  (lo <= a -> a <= hi ->
   Exponential.kernel be = Some k ->
   Exponential.kernel fe = Some k ->
   (0 < len cps)%nat -> (0 < len mom)%nat ->
   linear_in_weights k ->
   (1 < Geodesic.number_of_points (a - lo) c)%Z ->
   (1 < Geodesic.number_of_points (hi - a) c)%Z ->
   let g := Geodesic.Build_t (Some c) (Some a) (Some hi) (Some lo) (Some cps)
                             (Some mom) td be fe true fm in
   let g' := state_of (Geodesic.update g) in
   let forward := Geodesic.forward_exponential g' in
   let backward := Geodesic.backward_exponential g' in
   outcome_of (Geodesic.update g) = Ok tt /\
   Geodesic.get_norm_squared g' = (Ok (Exponential.norm_squared forward), g', []) /\
   Exponential.norm_squared forward
   = Some ((hi - a) * (hi - a) * dot mom (convolve k cps cps mom)) /\
   Exponential.norm_squared backward
   = Some ((a - lo) * (a - lo) * dot mom (convolve k cps cps mom)) /\
   (hi - a = a - lo ->
    Exponential.norm_squared forward = Exponential.norm_squared backward)) /\
  (Geodesic.shoot_is_modified g0 = false ->
   Exponential.shoot_is_modified (Geodesic.forward_exponential g0) = false ->
   Exponential.norm_squared
     (Geodesic.forward_exponential (state_of (Geodesic.update g0)))
   = Exponential.norm_squared (Geodesic.forward_exponential g0)).
Proof.
  split; [|split].
  - unfold Geodesic.get_norm_squared, Geodesic.on_forward,
      Exponential.get_norm_squared.
    py_unfold. destruct g0 as [? ? ? ? ? ? ? ? fe0 ? ?].
    cbn [Geodesic.forward_exponential].
    destruct (Exponential.shoot_is_modified fe0); reflexivity.
  - intros Hlo Hhi Hkb Hkf Hc Hm Hlin Hnb Hnf g g' forward backward.
    assert (Hex : exists g1,
               run Geodesic.update g = (Ok tt, g1) /\
               Exponential.shoot_is_modified (Geodesic.forward_exponential g1)
               = false /\
               Exponential.norm_squared (Geodesic.forward_exponential g1)
               = Some ((hi - a) * (hi - a) * dot mom (convolve k cps cps mom)) /\
               Exponential.norm_squared (Geodesic.backward_exponential g1)
               = Some ((a - lo) * (a - lo) * dot mom (convolve k cps cps mom))).
    { unfold g. destruct fm.
      - apply geodesic_update_norms; assumption.
      - apply geodesic_update_reflow_norms; assumption. }
    destruct Hex as (g1 & Hrun & Hfs & HF & HB).
    assert (Ho : outcome_of (Geodesic.update g) = Ok tt)
      by exact (f_equal fst Hrun).
    assert (Hs : g' = g1) by exact (f_equal snd Hrun).
    unfold forward, backward. rewrite Hs.
    split; [exact Ho|]. split; [|split; [exact HF | split; [exact HB|]]].
    + unfold Geodesic.get_norm_squared, Geodesic.on_forward,
        Exponential.get_norm_squared.
      py_unfold. rewrite Hfs. destruct g1; reflexivity.
    + intros He. rewrite HF, HB, He. reflexivity.
  - intros Hsm Hfs.
    pose proof (geodesic_update_keeps_norm
                  (Exponential.norm_squared (Geodesic.forward_exponential g0))
                  g0) as H.
    unfold forward_norm_record, norm_record in H.
    rewrite Hsm, Hfs in H. specialize (H eq_refl).
    injection H as _ _ H. exact H.
Qed.

Lemma number_of_points_eq (delta_t c : R) (n : Z) :
  0 <= delta_t * c -> IZR n <= delta_t * c + 1.5 < IZR n + 1 ->
  Geodesic.number_of_points delta_t c = Z.max 1 n.
Proof.
  intros H0 Hn. unfold Geodesic.number_of_points.
  rewrite py_int_nonneg by lra. rewrite (Zfloor_eq n) by exact Hn. reflexivity.
Qed.

Lemma unit_norm_1d :
  dot unit_momentum_1d
      (convolve (create_kernel_exact 1) origin_1d origin_1d unit_momentum_1d) = 1.
Proof.
  cbv [dot dotv view1 unit_momentum_1d origin_1d convolve create_kernel_exact
       gaussian_convolve rows map zip_with vsum concat app sum_list fold_right].
  rewrite gaussian_self. ring.
Qed.

Lemma C4_norm_squared_is_forward_witness :
  let g := geodesic_c4 in
  let g' := state_of (Geodesic.update g) in
  Geodesic.get_norm_squared g'
  = (Ok (Exponential.norm_squared (Geodesic.forward_exponential g')), g', []) /\
  Exponential.norm_squared (Geodesic.forward_exponential g')
  = Some ((2 - 0) * (2 - 0)
          * dot unit_momentum_1d
              (convolve (create_kernel_exact 1) origin_1d origin_1d
                        unit_momentum_1d)) /\
  Exponential.norm_squared
    (Geodesic.forward_exponential
       (state_of (Geodesic.update
                    (state_of (Geodesic.set_kernel (Some (create_kernel_exact 2))
                                                   g')))))
  = Exponential.norm_squared (Geodesic.forward_exponential g').
Proof.
  intros g g'.
  assert (Hb : Geodesic.number_of_points (0 - -1) 1 = 2%Z)
    by (rewrite (number_of_points_eq _ _ 2); [reflexivity | lra | cbn [IZR]; lra]).
  assert (Hf : Geodesic.number_of_points (2 - 0) 1 = 3%Z)
    by (rewrite (number_of_points_eq _ _ 3); [reflexivity | lra | cbn [IZR]; lra]).
  pose proof (C4_norm_squared_is_forward
                (state_of (Geodesic.set_kernel (Some (create_kernel_exact 2)) g'))
                (create_kernel_exact 1) 1 0 (-1) 2
                origin_1d unit_momentum_1d None
                (Exponential.with_use_rk2 (Some false)
                   (Exponential.with_kernel (Some (create_kernel_exact 1))
                                            Exponential.init))
                (Exponential.with_use_rk2 (Some false)
                   (Exponential.with_kernel (Some (create_kernel_exact 1))
                                            Exponential.init))
                true) as H.
  cbv zeta in H.
  destruct H as (_ & HB & HC).
  destruct HB as (_ & H1 & H2 & _);
    [lra | lra | reflexivity | reflexivity | cbn; lia | cbn; lia
     | apply gaussian_linear_in_weights | rewrite Hb; lia | rewrite Hf; lia |].
  split; [exact H1|]. split; [exact H2|].
  assert (Hg' : g' = snd (run Geodesic.update geodesic_c4)) by reflexivity.
  unfold geodesic_c4 in Hg'.
  rewrite geodesic_with_update in Hg' by (try lra; cbn; lia).
  cbn [snd] in Hg'.
  assert (Hfl : forall x : Geodesic.t,
             Exponential.norm_squared
               (Geodesic.forward_exponential
                  (state_of (Geodesic.set_kernel (Some (create_kernel_exact 2)) x)))
             = Exponential.norm_squared (Geodesic.forward_exponential x))
    by (intros [? ? ? ? ? ? ? ? [] ? ?]; reflexivity).
  rewrite <- (Hfl g').
  apply HC.
  - rewrite Hg'. reflexivity.
  - rewrite Hg'. unfold side_updated. rewrite Hf. reflexivity.
Defined.

(** The two sides do not have the same [norm_squared] in general: with
    one time unit backward and two forward, one unit of momentum at one
    control point gives [1] backward and [4] forward. *)
Lemma C4_norms_differ :
  let g' := state_of (Geodesic.update geodesic_c4) in
  outcome_of (Geodesic.update geodesic_c4) = Ok tt /\
  backward_points g' = Some 2%Z /\
  forward_points g' = Some 3%Z /\
  Exponential.norm_squared (Geodesic.forward_exponential g')
  <> Exponential.norm_squared (Geodesic.backward_exponential g').
Proof.
  assert (Hb : Geodesic.number_of_points (0 - -1) 1 = 2%Z)
    by (rewrite (number_of_points_eq _ _ 2); [reflexivity | lra | cbn [IZR]; lra]).
  assert (Hf : Geodesic.number_of_points (2 - 0) 1 = 3%Z)
    by (rewrite (number_of_points_eq _ _ 3); [reflexivity | lra | cbn [IZR]; lra]).
  destruct (geodesic_update_norms (create_kernel_exact 1) 1 0 (-1) 2
              origin_1d unit_momentum_1d None
              (Exponential.with_use_rk2 (Some false)
                 (Exponential.with_kernel (Some (create_kernel_exact 1))
                                          Exponential.init))
              (Exponential.with_use_rk2 (Some false)
                 (Exponential.with_kernel (Some (create_kernel_exact 1))
                                          Exponential.init)))
    as (g1 & Hrun & _ & HF & HB);
    [lra | lra | reflexivity | reflexivity | cbn; lia | cbn; lia
     | apply gaussian_linear_in_weights | rewrite Hb; lia | rewrite Hf; lia |].
  pose proof (update_side_points geodesic_c4 0 (-1) 2 1
                eq_refl eq_refl eq_refl eq_refl) as Hp.
  change (outcome_of (Geodesic.update geodesic_c4))
    with (fst (run Geodesic.update geodesic_c4)) in *.
  change (state_of (Geodesic.update geodesic_c4))
    with (snd (run Geodesic.update geodesic_c4)) in *.
  unfold geodesic_c4 in *. rewrite geodesic_with_eq in *.
  rewrite Hrun in *. cbn [fst snd] in *.
  destruct Hp as [Hpb Hpf]; [lra | lra | reflexivity |].
  rewrite Hb in Hpb. rewrite Hf in Hpf.
  split; [reflexivity|]. split; [exact Hpb|]. split; [exact Hpf|].
  rewrite HF, HB, unit_norm_1d. intros H. injection H as H. lra.
Qed.

(* ------------------------------------------------------------------ *)
(** ** One Euler step on the line *)

Lemma exponential_with_update k rk2 T cps mom td :
  (1 < T)%Z -> (0 < len cps)%nat -> (0 < len mom)%nat ->
  let cpt := shoot_control_points k rk2 T cps mom in
  let momt := shoot_momenta k rk2 T cps mom in
  run Exponential.update (exponential_with k rk2 T cps mom td)
  = (Ok tt,
     Exponential.Build_t (Some k) (Some T) (Some cps) (Some cpt) (Some mom)
       (Some momt) td
       (match td with
        | Some x => Some (flow_template_data k rk2 T x cpt momt)
        | None => None
        end)
       false (match td with Some _ => false | None => true end)
       (Some rk2) (Some (dot mom (convolve k cps cps mom))) []).
Proof.
  intros HT Hc Hm cpt momt. rewrite exponential_with_eq.
  destruct (update_shoot_run k T cps None mom None td None true (Some rk2)
              None [] HT Hc Hm) as (w & Hrun & _).
  unfold run. rewrite Hrun. reflexivity.
Qed.

(** Evaluation of tensor expressions down to their entries; the Gaussian
    and the arithmetic of the reals stay folded. *)
Ltac tensor_eval :=
  cbv [tadd tsub tbin isub tmap smul muls sdiv tneg dot dotv view1 rows size len
       expand bc_row bc_rows zip_with map concat app sum_list fold_right repeat
       length Nat.max squeeze forallb Nat.eqb andb hd fst snd
       convolve convolve_gradient get_kernel_matrix kernel_width
       create_kernel_exact gaussian_convolve gaussian_convolve_gradient
       gaussian_kernel_matrix vsum origin_1d unit_momentum_1d].

Lemma shoot_two_points k rk2 cps mom :
  shoot_control_points k rk2 2 cps mom
  = [cps; fst (shoot_next k rk2 (1 / 1) cps mom)] /\
  shoot_momenta k rk2 2 cps mom
  = [mom; snd (shoot_next k rk2 (1 / 1) cps mom)].
Proof. split; reflexivity. Qed.

Lemma flow_two_points k rk2 td cp0 cp1 mom0 mom1 :
  flow_template_data k rk2 2 td [cp0; cp1] [mom0; mom1]
  = [td; flow_next k rk2 (1 / 1) td cp0 mom0 cp1 mom1].
Proof. reflexivity. Qed.

Lemma exponential_c10_flowed :
  outcome_of (Exponential.get_template_data None
                (snd (run Exponential.update exponential_c10)))
  = Ok (Mat [[1]]).
Proof.
  unfold exponential_c10.
  rewrite exponential_with_update; [ | lia | cbn; lia | cbn; lia].
  cbn [fst snd].
  destruct (shoot_two_points (create_kernel_exact 1) false origin_1d
              unit_momentum_1d) as [Hc Hm].
  rewrite Hc, Hm, flow_two_points.
  unfold Exponential.get_template_data. py_unfold. exp_fields.
  change [origin_1d; ?y] with ([origin_1d] ++ [y]).
  rewrite py_index_last. cbn [ret outcome_of fst]. f_equal.
  unfold flow_next. tensor_eval. rewrite gaussian_self.
  repeat f_equal. field.
Qed.

(** C10.  One control point at the origin of the line, momentum [1],
    Gaussian kernel of width [1], two time points, Euler policy: [update]
    returns, [norm_squared] is [1], and the template point that starts on
    the control point ends at [1], a displacement of [1]. *)
Theorem C10_one_euler_step :
  let r := Exponential.update exponential_c10 in
  outcome_of r = Ok tt /\
  Exponential.norm_squared (state_of r) = Some 1 /\
  Exponential.initial_template_data (state_of r) = Some (Mat [[0]]) /\
  outcome_of (Exponential.get_template_data None (state_of r)) = Ok (Mat [[1]]).
Proof.
  cbv zeta.
  change (outcome_of (Exponential.update exponential_c10))
    with (fst (run Exponential.update exponential_c10)).
  change (state_of (Exponential.update exponential_c10))
    with (snd (run Exponential.update exponential_c10)).
  split; [|split; [|split; [|exact exponential_c10_flowed]]].
  all: unfold exponential_c10.
  all: rewrite exponential_with_update; [ | lia | cbn; lia | cbn; lia].
  - reflexivity.
  - cbn [fst snd Exponential.norm_squared]. rewrite unit_norm_1d. reflexivity.
  - reflexivity.
Qed.

Lemma C6_stale_reads_witness :
  Exponential.get_norm_squared Exponential.init
  = (Ok None, Exponential.init, [StaleNormRead]) /\
  outcome_of
    ((Exponential.set_initial_control_points (Some (Mat [[0]])) ;;
      Exponential.get_template_data None) Exponential.init)
  = Raise AssertionError /\
  (let e := snd (run Exponential.update exponential_c10) in
   exists x,
     Exponential.get_template_data None e = (Ok x, e, []) /\
     outcome_of
       ((Exponential.set_initial_control_points (Some (Mat [[5]])) ;;
         Exponential.get_template_data None) e)
     = Ok x).
Proof.
  split; [|split].
  - apply (proj1 (C6_stale_reads Exponential.init None None)).
  - apply (proj1 (proj2 (C6_stale_reads Exponential.init None
                           (Some (Mat [[0]]))))).
    reflexivity.
  - cbv zeta. unfold exponential_c10.
    rewrite exponential_with_update; [ | lia | cbn; lia | cbn; lia].
    cbn [snd].
    destruct (shoot_two_points (create_kernel_exact 1) false origin_1d
                unit_momentum_1d) as [Hc Hm].
    rewrite Hc, Hm, flow_two_points.
    eexists.
    match goal with
    | |- context [Exponential.get_template_data None ?e] =>
        apply (proj2 (proj2 (proj2 (proj2 (proj2 (proj2 (proj2 (proj2
                 (C6_stale_reads e None (Some (Mat [[5]])))))))))) [origin_1d])
    end; reflexivity.
Defined.

(** The specification as it is worded fails twice: a stale norm is
    read without any fault, and after an [update] followed by
    [set_initial_control_points] the template is read without any fault,
    from the trajectory flowed before the control points were replaced. *)
Lemma C6_stale_reads_return :
  ~ (forall e : Exponential.t,
        Exponential.shoot_is_modified e = true ->
        exists x, outcome_of (Exponential.get_norm_squared e) = Raise x) /\
  (let e := state_of (Exponential.update exponential_c10) in
   let r := (Exponential.set_initial_control_points (Some (Mat [[5]])) ;;
             Exponential.get_template_data None) e in
   Exponential.shoot_is_modified
     (state_of (Exponential.set_initial_control_points (Some (Mat [[5]])) e))
   = true /\
   outcome_of r = Ok (Mat [[1]])).
Proof.
  split.
  - intros H. destruct (H Exponential.init eq_refl) as [x Hx].
    cbn in Hx. discriminate.
  - cbv zeta. split.
    + destruct (state_of (Exponential.update exponential_c10)). reflexivity.
    + rewrite get_template_data_after_set_control_points.
      exact exponential_c10_flowed.
Qed.

(* ------------------------------------------------------------------ *)
(** ** The template at the reference time *)

Lemma geodesic_c5_updated :
  let k := create_kernel_exact 1 in
  let cps := Mat [[0; 0]] in
  let mom := muls (Mat [[1; 0]]) (1 - 0) in
  let cp1 := fst (shoot_next k false (1 / 1) cps mom) in
  let mom1 := snd (shoot_next k false (1 / 1) cps mom) in
  run Geodesic.update geodesic_c5
  = (Ok tt,
     Geodesic.Build_t (Some 1) (Some 0) (Some 1) (Some 0) (Some cps)
       (Some (Mat [[1; 0]])) (Some template_c5)
       (Exponential.Build_t (Some k) (Some 1%Z) (Some cps) None
          (Some (muls (tneg (Mat [[1; 0]])) (0 - 0))) None (Some template_c5)
          None true true (Some false) None [])
       (Exponential.Build_t (Some k) (Some 2%Z) (Some cps) (Some [cps; cp1])
          (Some mom) (Some [mom; mom1]) (Some template_c5)
          (Some [template_c5; flow_next k false (1 / 1) template_c5 cps mom cp1 mom1])
          false false (Some false) (Some (dot mom (convolve k cps cps mom))) [])
       false false).
Proof.
  assert (Hb : Geodesic.number_of_points (0 - 0) 1 = 1%Z)
    by (rewrite (number_of_points_eq _ _ 1); [reflexivity | lra | cbn [IZR]; lra]).
  assert (Hf : Geodesic.number_of_points (1 - 0) 1 = 2%Z)
    by (rewrite (number_of_points_eq _ _ 2); [reflexivity | lra | cbn [IZR]; lra]).
  unfold geodesic_c5.
  rewrite geodesic_with_update; [ | lra | lra | cbn; lia | cbn; lia].
  rewrite Hb, Hf. reflexivity.
Qed.

Lemma geodesic_c5_template_at_t0 :
  let k := create_kernel_exact 1 in
  let cps := Mat [[0; 0]] in
  let mom := muls (Mat [[1; 0]]) (1 - 0) in
  let cp1 := fst (shoot_next k false (1 / 1) cps mom) in
  let mom1 := snd (shoot_next k false (1 / 1) cps mom) in
  let g' := snd (run Geodesic.update geodesic_c5) in
  run (Geodesic.get_template_data 0) g'
  = (Ok (squeeze (flow_next k false (1 / 1) template_c5 cps mom cp1 mom1)), g').
Proof.
  cbv zeta.
  rewrite geodesic_c5_updated. cbn [snd].
  unfold Geodesic.get_template_data.
  erewrite run_bind.
  2:{ unfold Geodesic.get_template_data_with_index.
      do 3 run_step.
      rewrite (Rleb_true 0 0), (Rleb_true 0 1) by lra.
      do 2 run_step.
      run_step. change (Z.to_nat 2) with 2%nat. list_eval. norm_state.
      run_step. list_eval.
      run_step. list_eval.
      run_step. reflexivity. }
  reflexivity.
Qed.

(** C5 (the defect).  With the reference time on the lower time bound the
    backward side has one time point and is skipped, and the spliced
    trajectory then starts at the second snapshot of the forward side:
    [get_template_data(t0)] returns the template after one step of the flow,
    not the template at [t0]. *)
Theorem C5_reference_snapshot_dropped :
  let g' := state_of (Geodesic.update geodesic_c5) in
  outcome_of (Geodesic.update geodesic_c5) = Ok tt /\
  backward_points g' = Some 1%Z /\
  forward_points g' = Some 2%Z /\
  Geodesic.template_data_t0 g' = Some template_c5 /\
  exists x tdl,
    outcome_of (Geodesic.get_template_data 0 g') = Ok x /\
    x <> template_c5 /\
    Exponential.template_data_t (Geodesic.forward_exponential g') = Some tdl /\
    nth_error tdl 0 = Some template_c5 /\
    option_map squeeze (nth_error tdl 1) = Some x.
Proof.
  pose proof geodesic_c5_template_at_t0 as Hget. cbv zeta in Hget.
  cbv zeta.
  change (outcome_of (Geodesic.update geodesic_c5))
    with (fst (run Geodesic.update geodesic_c5)).
  change (state_of (Geodesic.update geodesic_c5))
    with (snd (run Geodesic.update geodesic_c5)).
  change (outcome_of (Geodesic.get_template_data 0 ?s))
    with (fst (run (Geodesic.get_template_data 0) s)).
  rewrite Hget. clear Hget.
  rewrite geodesic_c5_updated. cbn [fst snd].
  split; [reflexivity|]. split; [reflexivity|]. split; [reflexivity|].
  split; [reflexivity|].
  eexists. eexists.
  split; [reflexivity|]. split; [|split; [reflexivity|split; reflexivity]].
  unfold flow_next, template_c5. tensor_eval.
  intros H. injection H as H _. rewrite gaussian_self in H. lra.
Qed.

(* ------------------------------------------------------------------ *)
(** ** Parallel transport *)

Lemma run_if_warn {S : Type} (b : bool) (w : warning) (s : S) :
  run (if b then warn w else ret tt) s = (Ok tt, s).
Proof. destruct b; reflexivity. Qed.

Lemma Rltb_true (x y : R) : x < y -> Rltb x y = true.
Proof. intros H. unfold Rltb. destruct (Rlt_dec x y); [reflexivity | contradiction]. Qed.

Lemma run_py_index_nat {S A : Type} (l : list A) (i : nat) (x : A) (s : S) :
  nth_error l i = Some x -> run (py_index l (Z.of_nat i)) s = (Ok x, s).
Proof. intros H. rewrite (py_index_nat _ _ _ _ _ H). reflexivity. Qed.

Lemma run_py_index_last {S A : Type} (l : list A) (x : A) (s : S) :
  run (py_index (l ++ [x]) (-1)) s = (Ok x, s).
Proof. rewrite py_index_last. reflexivity. Qed.

Section Transport.

Variables (k exact : Kernel) (T : Z) (cpt momt : list tensor).
Variables (h epsilon initial_norm ns : R).

Let ready := transport_ready k T cpt momt ns.

Lemma ready_with_cache (c : list tensor) (s : Exponential.t) :
  ready s -> ready (Exponential.with_cholesky_kernel_matrices c s).
Proof. intros H. exact H. Qed.

Lemma run_control_points_at s i cp :
  ready s -> nth_error cpt i = Some cp ->
  run (Exponential.control_points_at i) s = (Ok cp, s).
Proof.
  intros (_ & _ & Hc & _) Hi. unfold Exponential.control_points_at.
  erewrite run_bind by reflexivity. rewrite Hc.
  erewrite run_bind by reflexivity. apply run_py_index_nat. exact Hi.
Qed.

Lemma run_momenta_at s i mom :
  ready s -> nth_error momt i = Some mom ->
  run (Exponential.momenta_at i) s = (Ok mom, s).
Proof.
  intros (_ & _ & _ & Hm & _) Hi. unfold Exponential.momenta_at.
  erewrite run_bind by reflexivity. rewrite Hm.
  erewrite run_bind by reflexivity. apply run_py_index_nat. exact Hi.
Qed.

Lemma run_the_kernel s :
  ready s -> run Exponential.the_kernel s = (Ok k, s).
Proof.
  intros (Hk & _). unfold Exponential.the_kernel.
  erewrite run_bind by reflexivity. rewrite Hk. reflexivity.
Qed.

Lemma run_time_points s :
  ready s -> run Exponential.time_points s = (Ok T, s).
Proof.
  intros (_ & HT & _). unfold Exponential.time_points.
  erewrite run_bind by reflexivity. rewrite HT. reflexivity.
Qed.

Lemma run_norm_squared_value s :
  ready s -> run Exponential.norm_squared_value s = (Ok ns, s).
Proof.
  intros (_ & _ & _ & _ & Hsm & Hns).
  unfold Exponential.norm_squared_value, Exponential.get_norm_squared.
  erewrite run_bind.
  2:{ erewrite run_bind by reflexivity. rewrite Hsm.
      erewrite run_bind by reflexivity. reflexivity. }
  rewrite Hns. reflexivity.
Qed.

Lemma cotangent_fresh s i v cp' :
  ready s ->
  Z.of_nat (length (Exponential.cholesky_kernel_matrices s)) <> (T - 1)%Z ->
  nth_error cpt (i + 1) = Some cp' ->
  positive_definite (get_kernel_matrix exact cp') = true ->
  nonsingular (cholesky_factor (get_kernel_matrix exact cp')) = true ->
  run (Exponential.cotangent exact i v) s
  = (Ok (squeeze (cholesky_solve v (cholesky_factor (get_kernel_matrix exact cp')))),
     Exponential.with_cholesky_kernel_matrices
       (Exponential.cholesky_kernel_matrices s
          ++ [cholesky_factor (get_kernel_matrix exact cp')]) s).
Proof.
  intros Hr Hch Hcp Hpd Hnz. unfold Exponential.cotangent.
  erewrite run_bind by reflexivity.
  erewrite run_bind by (apply run_time_points; exact Hr).
  apply Z.eqb_neq in Hch. rewrite Hch.
  erewrite run_bind by (apply run_control_points_at; eassumption).
  unfold potrf. rewrite Hpd.
  erewrite run_bind by reflexivity.
  erewrite run_bind by reflexivity.
  unfold potrs. rewrite Hnz.
  erewrite run_bind by reflexivity. reflexivity.
Qed.

Lemma cotangent_cached s i v c :
  ready s ->
  Z.of_nat (length (Exponential.cholesky_kernel_matrices s)) = (T - 1)%Z ->
  nth_error (Exponential.cholesky_kernel_matrices s) i = Some c ->
  nonsingular c = true ->
  run (Exponential.cotangent exact i v) s = (Ok (cholesky_solve v c), s).
Proof.
  intros Hr Hch Hc Hnz. unfold Exponential.cotangent.
  erewrite run_bind by reflexivity.
  erewrite run_bind by (apply run_time_points; exact Hr).
  apply Z.eqb_eq in Hch. rewrite Hch.
  erewrite run_bind by (apply run_py_index_nat; exact Hc).
  unfold potrs. rewrite Hnz. reflexivity.
Qed.

Lemma run_renormalization_check (x y : R) (s : Exponential.t) :
  run (Exponential.renormalization_check x y) s = (Ok tt, s).
Proof.
  unfold Exponential.renormalization_check.
  destruct (divide x y); [apply run_if_warn | reflexivity | reflexivity].
Qed.

Lemma divide_finite (x y : R) : y <> 0 -> divide x y = Finite (x / y).
Proof.
  intros H. unfold divide. destruct (Req_dec_T y 0); [contradiction | reflexivity].
Qed.

Lemma Reqb_false (x y : R) : x <> y -> Reqb x y = false.
Proof.
  intros H. unfold Reqb. destruct (Req_dec_T x y); [contradiction | reflexivity].
Qed.

(** The part of [transport_step] that follows the choice of the factor. *)
Lemma transport_step_run s s' i pt last cp mom cp' mom' am :
  ready s -> ready s' ->
  nth_error cpt i = Some cp ->
  nth_error momt i = Some mom ->
  nth_error cpt (i + 1) = Some cp' ->
  nth_error momt (i + 1) = Some mom' ->
  run (Exponential.cotangent exact i (transport_velocity k h epsilon cp mom last)) s
  = (Ok am, s') ->
  finish_defined exact ns cp' mom' am ->
  run (Exponential.transport_step exact h epsilon initial_norm i (pt ++ [last])) s
  = (Ok ((pt ++ [last])
           ++ [transport_finish exact initial_norm ns cp' mom' am]),
     s').
Proof.
  intros Hr Hr' Hcp Hmom Hcp' Hmom' Hcot [Hns0 Hna].
  unfold Exponential.transport_step.
  erewrite run_bind by (apply run_control_points_at; eassumption).
  erewrite run_bind by (apply run_momenta_at; eassumption).
  erewrite run_bind by apply run_py_index_last.
  erewrite run_bind by (apply run_the_kernel; exact Hr).
  erewrite run_bind by exact Hcot.
  erewrite run_bind by (apply run_control_points_at; eassumption).
  erewrite run_bind by (apply run_momenta_at; eassumption).
  erewrite run_bind by (apply run_norm_squared_value; exact Hr').
  rewrite (divide_finite _ ns Hns0).
  erewrite run_bind by reflexivity.
  erewrite run_bind by apply run_renormalization_check.
  rewrite (Reqb_false _ 0 Hna).
  erewrite run_bind by reflexivity.
  reflexivity.
Qed.

Lemma with_cache_app (c1 c2 : list tensor) (s : Exponential.t) :
  Exponential.with_cholesky_kernel_matrices
    (Exponential.cholesky_kernel_matrices
       (Exponential.with_cholesky_kernel_matrices c1 s) ++ c2)
    (Exponential.with_cholesky_kernel_matrices c1 s)
  = Exponential.with_cholesky_kernel_matrices (c1 ++ c2) s.
Proof. destruct s. reflexivity. Qed.

Lemma with_cache_same (s : Exponential.t) :
  Exponential.with_cholesky_kernel_matrices
    (Exponential.cholesky_kernel_matrices s ++ []) s = s.
Proof. destruct s. cbn. rewrite app_nil_r. reflexivity. Qed.

Lemma transport_loop_fresh n :
  forall i s pt last,
    ready s ->
    (Z.of_nat (length (Exponential.cholesky_kernel_matrices s)) + Z.of_nat n
     <= T - 1)%Z ->
    (i + n < length cpt)%nat ->
    (i + n < length momt)%nat ->
    fresh_defined k exact h epsilon initial_norm ns n last
                  (skipn i cpt) (skipn i momt) ->
    run (for_loop (Exponential.transport_step exact h epsilon initial_norm)
                  i n (pt ++ [last])) s
    = (Ok ((pt ++ [last])
             ++ transport_fresh k exact h epsilon initial_norm ns n last
                  (skipn i cpt) (skipn i momt)),
       Exponential.with_cholesky_kernel_matrices
         (Exponential.cholesky_kernel_matrices s
            ++ fresh_factors exact n (skipn i cpt)) s).
Proof.
  induction n as [|n IH]; intros i s pt last Hr Hch Hc Hm Hd.
  - cbn [for_loop transport_fresh fresh_factors].
    rewrite with_cache_same, app_nil_r. reflexivity.
  - destruct (nth_error cpt i) as [cp|] eqn:Hcp.
    2:{ apply nth_error_None in Hcp. lia. }
    destruct (nth_error momt i) as [mom|] eqn:Hmom.
    2:{ apply nth_error_None in Hmom. lia. }
    destruct (nth_error cpt (i + 1)) as [cp'|] eqn:Hcp'.
    2:{ apply nth_error_None in Hcp'. lia. }
    destruct (nth_error momt (i + 1)) as [mom'|] eqn:Hmom'.
    2:{ apply nth_error_None in Hmom'. lia. }
    rewrite (skipn_nth_error cpt i cp Hcp), (skipn_nth_error momt i mom Hmom)
      in Hd.
    cbn [fresh_defined] in Hd.
    assert (Hcp1 : nth_error cpt (Datatypes.S i) = Some cp')
      by (rewrite <- Hcp'; f_equal; lia).
    assert (Hmom1 : nth_error momt (Datatypes.S i) = Some mom')
      by (rewrite <- Hmom'; f_equal; lia).
    rewrite (hd_skipn_nth_error cpt (Datatypes.S i) cp' cp Hcp1) in Hd.
    rewrite (hd_skipn_nth_error momt (Datatypes.S i) mom' mom Hmom1) in Hd.
    destruct Hd as (Hpd & Hnz & Hfin & Hrest).
    cbn [for_loop].
    erewrite run_bind.
    2:{ eapply (transport_step_run s
                   (Exponential.with_cholesky_kernel_matrices
                      (Exponential.cholesky_kernel_matrices s
                         ++ [cholesky_factor (get_kernel_matrix exact cp')]) s)
                   i pt last cp mom cp' mom' _
                   Hr (ready_with_cache _ s Hr) Hcp Hmom Hcp' Hmom').
        - apply cotangent_fresh; [exact Hr | lia | exact Hcp' | exact Hpd | exact Hnz].
        - exact Hfin. }
    rewrite IH.
    + rewrite with_cache_app.
      rewrite (skipn_nth_error cpt i cp Hcp), (skipn_nth_error momt i mom Hmom).
      cbn [transport_fresh fresh_factors].
      rewrite (hd_skipn_nth_error cpt (Datatypes.S i) cp' cp Hcp1).
      rewrite (hd_skipn_nth_error momt (Datatypes.S i) mom' mom Hmom1).
      rewrite <- !app_assoc. reflexivity.
    + apply ready_with_cache. exact Hr.
    + destruct s. cbn in *. rewrite length_app. cbn [length]. lia.
    + lia.
    + lia.
    + exact Hrest.
Qed.

Lemma transport_loop_cached n :
  forall i s pt last,
    ready s ->
    Z.of_nat (length (Exponential.cholesky_kernel_matrices s)) = (T - 1)%Z ->
    (i + n < length cpt)%nat ->
    (i + n < length momt)%nat ->
    (i + n <= length (Exponential.cholesky_kernel_matrices s))%nat ->
    cached_defined k exact h epsilon initial_norm ns n last
                   (skipn i cpt) (skipn i momt)
                   (skipn i (Exponential.cholesky_kernel_matrices s)) ->
    run (for_loop (Exponential.transport_step exact h epsilon initial_norm)
                  i n (pt ++ [last])) s
    = (Ok ((pt ++ [last])
             ++ transport_cached k exact h epsilon initial_norm ns n last
                  (skipn i cpt) (skipn i momt)
                  (skipn i (Exponential.cholesky_kernel_matrices s))),
       s).
Proof.
  induction n as [|n IH]; intros i s pt last Hr Hch Hc Hm Hl Hd.
  - cbn [for_loop transport_cached]. rewrite app_nil_r. reflexivity.
  - destruct (nth_error cpt i) as [cp|] eqn:Hcp.
    2:{ apply nth_error_None in Hcp. lia. }
    destruct (nth_error momt i) as [mom|] eqn:Hmom.
    2:{ apply nth_error_None in Hmom. lia. }
    destruct (nth_error cpt (i + 1)) as [cp'|] eqn:Hcp'.
    2:{ apply nth_error_None in Hcp'. lia. }
    destruct (nth_error momt (i + 1)) as [mom'|] eqn:Hmom'.
    2:{ apply nth_error_None in Hmom'. lia. }
    destruct (nth_error (Exponential.cholesky_kernel_matrices s) i) as [c|] eqn:Hci.
    2:{ apply nth_error_None in Hci. lia. }
    rewrite (skipn_nth_error cpt i cp Hcp), (skipn_nth_error momt i mom Hmom),
      (skipn_nth_error _ i c Hci) in Hd.
    cbn [cached_defined] in Hd.
    assert (Hcp1 : nth_error cpt (Datatypes.S i) = Some cp')
      by (rewrite <- Hcp'; f_equal; lia).
    assert (Hmom1 : nth_error momt (Datatypes.S i) = Some mom')
      by (rewrite <- Hmom'; f_equal; lia).
    rewrite (hd_skipn_nth_error cpt (Datatypes.S i) cp' cp Hcp1) in Hd.
    rewrite (hd_skipn_nth_error momt (Datatypes.S i) mom' mom Hmom1) in Hd.
    destruct Hd as (Hnz & Hfin & Hrest).
    cbn [for_loop].
    erewrite run_bind.
    2:{ eapply (transport_step_run s s i pt last cp mom cp' mom' _
                   Hr Hr Hcp Hmom Hcp' Hmom').
        - apply cotangent_cached; [exact Hr | exact Hch | exact Hci | exact Hnz].
        - exact Hfin. }
    rewrite IH by (try assumption; lia).
    rewrite (skipn_nth_error cpt i cp Hcp), (skipn_nth_error momt i mom Hmom),
      (skipn_nth_error _ i c Hci).
    cbn [transport_cached].
    rewrite (hd_skipn_nth_error cpt (Datatypes.S i) cp' cp Hcp1).
    rewrite (hd_skipn_nth_error momt (Datatypes.S i) mom' mom Hmom1).
    rewrite <- !app_assoc. reflexivity.
Qed.

Lemma transport_fresh_length n :
  forall last l1 l2,
    (n < length l1)%nat -> (n < length l2)%nat ->
    length (transport_fresh k exact h epsilon initial_norm ns n last l1 l2) = n.
Proof.
  induction n as [|n IH]; intros last l1 l2 H1 H2; [reflexivity|].
  destruct l1 as [|a l1]; [cbn in H1; lia|].
  destruct l2 as [|b l2]; [cbn in H2; lia|].
  cbn [transport_fresh length]. rewrite IH; cbn in *; lia.
Qed.

Lemma transport_cached_length n :
  forall last l1 l2 chs,
    (n < length l1)%nat -> (n < length l2)%nat -> (n <= length chs)%nat ->
    length (transport_cached k exact h epsilon initial_norm ns n last l1 l2 chs) = n.
Proof.
  induction n as [|n IH]; intros last l1 l2 chs H1 H2 H3; [reflexivity|].
  destruct l1 as [|a l1]; [cbn in H1; lia|].
  destruct l2 as [|b l2]; [cbn in H2; lia|].
  destruct chs as [|c chs]; [cbn in H3; lia|].
  cbn [transport_cached length]. rewrite IH; cbn in *; lia.
Qed.

End Transport.

Section TransportRun.

Variables (k : Kernel) (T : Z) (cpt momt : list tensor) (ns : R).
Variables (icp imom v : tensor).

Let exact := create_kernel_exact (kernel_width k).
Let h := 1 / (IZR T - 1).
Let sp := dot v (convolve exact icp icp imom) / ns.
Let vo := tsub v (smul sp imom).
Let initial_norm := dot vo (convolve exact icp icp vo).

Hypothesis HT : (1 < T)%Z.
Hypothesis Hlc : length cpt = Z.to_nat T.
Hypothesis Hlm : length momt = Z.to_nat T.
Hypothesis Hsize : size_eqb (size v) (size imom) = true.
Hypothesis Horth : dot vo (convolve exact icp icp imom) / ns < 1e-5.
Hypothesis Hns0 : ns <> 0.

Lemma transport_prologue (s : Exponential.t) (flag : bool) :
  transport_ready k T cpt momt ns s ->
  Exponential.initial_control_points s = Some icp ->
  Exponential.initial_momenta s = Some imom ->
  run (Exponential.parallel_transport v flag) s
  = run (pt <- for_range (Z.to_nat (T - 1))
                  (Exponential.transport_step exact h h initial_norm) [vo] ;;
         e' <- get ;;
         momt' <- require TypeError (Exponential.momenta_t e') ;;
         assert (length pt =? length momt')%nat ;;
         if flag
         then for_range (Z.to_nat T) (Exponential.add_tangential sp pt) []
         else ret pt) s.
Proof.
  intros Hr Hicp Himom. unfold Exponential.parallel_transport.
  erewrite run_bind by reflexivity.
  destruct Hr as (Hk & HTs & Hc & Hm & Hsm & Hns).
  rewrite Hsm. erewrite run_bind by reflexivity.
  rewrite Himom. erewrite run_bind by reflexivity.
  rewrite Hsize. erewrite run_bind by reflexivity.
  erewrite run_bind
    by (apply (run_the_kernel k T cpt momt ns); repeat split; assumption).
  erewrite run_bind
    by (apply (run_time_points k T cpt momt ns); repeat split; assumption).
  rewrite float_div_nonzero.
  2:{ intros H0. apply Rminus_diag_uniq in H0. apply eq_IZR in H0. lia. }
  erewrite run_bind by reflexivity.
  rewrite Hicp. erewrite run_bind by reflexivity.
  erewrite run_bind
    by (apply (run_norm_squared_value k T cpt momt ns); repeat split; assumption).
  rewrite (divide_finite _ ns Hns0).
  erewrite run_bind by reflexivity.
  erewrite run_bind
    by (apply (run_norm_squared_value k T cpt momt ns); repeat split; assumption).
  rewrite (divide_finite _ ns Hns0).
  erewrite run_bind by reflexivity.
  fold exact. fold sp. fold vo. rewrite (Rltb_true _ _ Horth).
  erewrite run_bind by reflexivity.
  reflexivity.
Qed.

Lemma parallel_transport_fresh (s : Exponential.t) :
  transport_ready k T cpt momt ns s ->
  Exponential.initial_control_points s = Some icp ->
  Exponential.initial_momenta s = Some imom ->
  Exponential.cholesky_kernel_matrices s = [] ->
  fresh_defined k exact h h initial_norm ns (Z.to_nat (T - 1)) vo cpt momt ->
  run (Exponential.parallel_transport v false) s
  = (Ok (vo :: transport_fresh k exact h h initial_norm ns (Z.to_nat (T - 1))
                 vo cpt momt),
     Exponential.with_cholesky_kernel_matrices
       (fresh_factors exact (Z.to_nat (T - 1)) cpt) s).
Proof.
  intros Hr Hicp Himom Hch Hd.
  rewrite (transport_prologue s false Hr Hicp Himom).
  unfold for_range.
  erewrite run_bind.
  2:{ apply (transport_loop_fresh k exact T cpt momt h h initial_norm ns
               (Z.to_nat (T - 1)) 0%nat s [] vo Hr);
        [rewrite Hch; cbn; lia | lia | lia | exact Hd]. }
  rewrite Hch. cbn [app skipn].
  erewrite run_bind by reflexivity.
  destruct Hr as (Hk & HTs & Hc & Hm & Hsm & Hns).
  cbn [Exponential.momenta_t Exponential.with_cholesky_kernel_matrices].
  rewrite Hm.
  erewrite run_bind by reflexivity.
  cbn [length].
  rewrite (transport_fresh_length k exact h h initial_norm ns) by lia.
  assert (Hl : (Datatypes.S (Z.to_nat (T - 1)) =? length momt)%nat = true)
    by (apply Nat.eqb_eq; lia).
  rewrite Hl. erewrite run_bind by reflexivity. reflexivity.
Qed.

Lemma parallel_transport_cached (s : Exponential.t) :
  transport_ready k T cpt momt ns s ->
  Exponential.initial_control_points s = Some icp ->
  Exponential.initial_momenta s = Some imom ->
  Z.of_nat (length (Exponential.cholesky_kernel_matrices s)) = (T - 1)%Z ->
  cached_defined k exact h h initial_norm ns (Z.to_nat (T - 1)) vo cpt momt
                 (Exponential.cholesky_kernel_matrices s) ->
  run (Exponential.parallel_transport v false) s
  = (Ok (vo :: transport_cached k exact h h initial_norm ns (Z.to_nat (T - 1))
                 vo cpt momt (Exponential.cholesky_kernel_matrices s)),
     s).
Proof.
  intros Hr Hicp Himom Hch Hd.
  rewrite (transport_prologue s false Hr Hicp Himom).
  unfold for_range.
  erewrite run_bind.
  2:{ apply (transport_loop_cached k exact T cpt momt h h initial_norm ns
               (Z.to_nat (T - 1)) 0%nat s [] vo Hr Hch); [lia | lia | lia |].
      exact Hd. }
  cbn [app skipn].
  erewrite run_bind by reflexivity.
  destruct Hr as (Hk & HTs & Hc & Hm & Hsm & Hns).
  rewrite Hm.
  erewrite run_bind by reflexivity.
  cbn [length].
  rewrite (transport_cached_length k exact h h initial_norm ns) by lia.
  assert (Hl : (Datatypes.S (Z.to_nat (T - 1)) =? length momt)%nat = true)
    by (apply Nat.eqb_eq; lia).
  rewrite Hl. erewrite run_bind by reflexivity. reflexivity.
Qed.

End TransportRun.

(* ------------------------------------------------------------------ *)
(** ** Parallel transport with one control point *)

Ltac transport_eval :=
  cbv [transport_fresh transport_cached fresh_factors transport_finish
       transport_velocity Exponential._rk2_step shoot_next
       cholesky_factor cholesky_solve cholesky_lower chol_next chol_offdiag fold_left pad transpose
       forward_subst backward_subst rev nth last Nat.sub
       tadd tsub tbin isub tmap smul muls sdiv tneg dot dotv view1 rows size len
       expand bc_row bc_rows zip_with map concat app sum_list fold_right repeat
       length Nat.max squeeze forallb Nat.eqb andb hd fst snd
       convolve convolve_gradient get_kernel_matrix kernel_width
       create_kernel_exact gaussian_convolve gaussian_convolve_gradient
       gaussian_kernel_matrix vsum].

Lemma fresh_factors_length exact n :
  forall cpt, (n < length cpt)%nat -> length (fresh_factors exact n cpt) = n.
Proof.
  induction n as [|n IH]; intros cpt H; [reflexivity|].
  destruct cpt as [|cp cpt]; [cbn in H; lia|].
  cbn [fresh_factors length]. rewrite IH; cbn in *; lia.
Qed.

(** With the factors that the uncached steps store, the cached steps
    compute the same entries wherever [squeeze] leaves the solutions of
    [cholesky_solve] as they are. *)
Lemma transport_cached_fresh k exact h epsilon initial_norm ns n :
  (forall x c, squeeze (cholesky_solve x c) = cholesky_solve x c) ->
  forall last cpt momt,
    (n < length cpt)%nat ->
    transport_cached k exact h epsilon initial_norm ns n last cpt momt
                     (fresh_factors exact n cpt)
    = transport_fresh k exact h epsilon initial_norm ns n last cpt momt.
Proof.
  intros Hsq. induction n as [|n IH]; intros last cpt momt Hl; [reflexivity|].
  destruct cpt as [|cp cpt]; [cbn in Hl; lia|].
  destruct momt as [|mom momt]; [reflexivity|].
  cbn [transport_cached transport_fresh fresh_factors].
  rewrite Hsq. f_equal. apply IH. cbn in Hl. lia.
Qed.

(** Two consecutive calls of [parallel_transport] on an exponential that
    [update] has just shot: the first stores the factors, the second reads
    them and leaves the exponential as it is. *)
Lemma two_transports k rk2 T cps mom td v :
  (1 < T)%Z -> (0 < len cps)%nat -> (0 < len mom)%nat ->
  let e := snd (run Exponential.update (exponential_with k rk2 T cps mom td)) in
  let cpt := shoot_control_points k rk2 T cps mom in
  let momt := shoot_momenta k rk2 T cps mom in
  let exact := create_kernel_exact (kernel_width k) in
  let ns := dot mom (convolve k cps cps mom) in
  let h := 1 / (IZR T - 1) in
  let sp := dot v (convolve exact cps cps mom) / ns in
  let vo := tsub v (smul sp mom) in
  let initial_norm := dot vo (convolve exact cps cps vo) in
  let n := Z.to_nat (T - 1) in
  let e1 := Exponential.with_cholesky_kernel_matrices (fresh_factors exact n cpt) e in
  size_eqb (size v) (size mom) = true ->
  dot vo (convolve exact cps cps mom) / ns < 1e-5 ->
  ns <> 0 ->
  fresh_defined k exact h h initial_norm ns n vo cpt momt ->
  cached_defined k exact h h initial_norm ns n vo cpt momt
                 (fresh_factors exact n cpt) ->
  run (Exponential.parallel_transport v false) e
  = (Ok (vo :: transport_fresh k exact h h initial_norm ns n vo cpt momt), e1) /\
  run (Exponential.parallel_transport v false) e1
  = (Ok (vo :: transport_cached k exact h h initial_norm ns n vo cpt momt
                 (fresh_factors exact n cpt)), e1).
Proof.
  intros HT Hc Hm e cpt momt exact ns h sp vo initial_norm n e1 Hsize Horth
         Hns0 Hdf Hdc.
  destruct (shoot_lengths k rk2 T cps mom HT) as [Hlc Hlm].
  assert (He : e = Exponential.Build_t (Some k) (Some T) (Some cps) (Some cpt)
                     (Some mom) (Some momt) td
                     (match td with
                      | Some x => Some (flow_template_data k rk2 T x cpt momt)
                      | None => None
                      end)
                     false (match td with Some _ => false | None => true end)
                     (Some rk2) (Some ns) []).
  { unfold e. rewrite exponential_with_update by assumption. reflexivity. }
  assert (Hl : length (fresh_factors exact n cpt) = n)
    by (apply fresh_factors_length; unfold n; fold cpt in Hlc; lia).
  split.
  - apply (parallel_transport_fresh k T cpt momt ns cps mom v HT Hlc Hlm Hsize
             Horth Hns0);
      [rewrite He; repeat split | rewrite He; reflexivity
       | rewrite He; reflexivity | rewrite He; reflexivity | exact Hdf].
  - replace (fresh_factors exact n cpt)
      with (Exponential.cholesky_kernel_matrices e1) at 2
      by (unfold e1; rewrite He; reflexivity).
    apply (parallel_transport_cached k T cpt momt ns cps mom v HT Hlc Hlm Hsize
             Horth Hns0);
      [unfold e1; rewrite He; repeat split | unfold e1; rewrite He; reflexivity
       | unfold e1; rewrite He; reflexivity | | ].
    + unfold e1. rewrite He.
      cbn [Exponential.cholesky_kernel_matrices
           Exponential.with_cholesky_kernel_matrices].
      rewrite Hl. unfold n. lia.
    + unfold e1. rewrite He. exact Hdc.
Qed.

Lemma c7_orthogonal :
  let exact := create_kernel_exact 1 in
  let icp := Mat [[0; 0]] in
  let imom := Mat [[1; 0]] in
  let v := momenta_to_transport_c7 in
  let ns := dot imom (convolve exact icp icp imom) in
  let sp := dot v (convolve exact icp icp imom) / ns in
  let vo := tsub v (smul sp imom) in
  dot vo (convolve exact icp icp imom) / ns < 1e-5.
Proof.
  cbv zeta. unfold momenta_to_transport_c7. tensor_eval.
  rewrite !gaussian_self.
  match goal with
  | |- ?x < _ => replace x with 0 by (field; lra)
  end.
  lra.
Qed.

(** Shapes with one control point in the plane. *)
Lemma shoot_next_one_point w dt c1 c2 m1 m2 :
  exists c1' c2' m1' m2',
    shoot_next (create_kernel_exact w) false dt (Mat [[c1; c2]]) (Mat [[m1; m2]])
    = (Mat [[c1'; c2']], Mat [[m1'; m2']]).
Proof. do 4 eexists. transport_eval. reflexivity. Qed.

Lemma velocity_one_point w h epsilon c1 c2 m1 m2 l1 l2 :
  exists u1 u2,
    transport_velocity (create_kernel_exact w) h epsilon
      (Mat [[c1; c2]]) (Mat [[m1; m2]]) (Mat [[l1; l2]])
    = Mat [[u1; u2]].
Proof. do 2 eexists. transport_eval. reflexivity. Qed.

Lemma factor_one_point w c1 c2 :
  exists f, cholesky_factor (get_kernel_matrix (create_kernel_exact w) (Mat [[c1; c2]]))
            = Mat [[f]].
Proof. eexists. transport_eval. reflexivity. Qed.

Lemma cholesky_solve_one_point u1 u2 f :
  exists x1 x2, cholesky_solve (Mat [[u1; u2]]) (Mat [[f]]) = Mat [[x1; x2]].
Proof. do 2 eexists. transport_eval. reflexivity. Qed.

Lemma finish_one_point w initial_norm ns c1 c2 m1 m2 x1 x2 :
  exists y1 y2,
    transport_finish (create_kernel_exact w) initial_norm ns
      (Mat [[c1; c2]]) (Mat [[m1; m2]]) (Vec [x1; x2]) = Vec [y1; y2] /\
    transport_finish (create_kernel_exact w) initial_norm ns
      (Mat [[c1; c2]]) (Mat [[m1; m2]]) (Mat [[x1; x2]]) = Mat [[y1; y2]].
Proof. do 2 eexists. split; transport_eval; reflexivity. Qed.

(** Values with one control point in the plane. *)
Lemma mat12_eq (a b a' b' : R) :
  a = a' -> b = b' -> Mat [[a; b]] = Mat [[a'; b']].
Proof. intros; subst; reflexivity. Qed.

Lemma vec2_eq (a b a' b' : R) :
  a = a' -> b = b' -> Vec [a; b] = Vec [a'; b'].
Proof. intros; subst; reflexivity. Qed.

(** With one control point the kernel matrix is [[1]]. *)
Lemma dot_one_point (w c1 c2 a1 a2 m1 m2 : R) :
  dot (Mat [[a1; a2]])
      (convolve (create_kernel_exact w) (Mat [[c1; c2]]) (Mat [[c1; c2]])
                (Mat [[m1; m2]]))
  = a1 * m1 + a2 * m2 /\
  dot (Vec [a1; a2])
      (convolve (create_kernel_exact w) (Mat [[c1; c2]]) (Mat [[c1; c2]])
                (Mat [[m1; m2]]))
  = a1 * m1 + a2 * m2.
Proof. split; tensor_eval; rewrite !gaussian_self; ring. Qed.

Lemma kernel_matrix_one_point (w c1 c2 : R) :
  get_kernel_matrix (create_kernel_exact w) (Mat [[c1; c2]]) = Mat [[1]].
Proof. tensor_eval. rewrite gaussian_self. reflexivity. Qed.

Lemma factor_unit : cholesky_factor (Mat [[1]]) = Mat [[1]].
Proof.
  transport_eval. replace (1 - 0) with 1 by ring. rewrite sqrt_1. reflexivity.
Qed.

Lemma positive_definite_unit : positive_definite (Mat [[1]]) = true.
Proof.
  cbv [positive_definite chol_pivots rows chol_offdiag nth length dotv zip_with
       sum_list fold_right forallb andb].
  rewrite Rltb_true by lra. reflexivity.
Qed.

Lemma nonsingular_unit : nonsingular (Mat [[1]]) = true.
Proof.
  cbv [nonsingular diagonal rows length seq map nth forallb andb negb].
  rewrite Reqb_false by lra. reflexivity.
Qed.

Lemma solve_unit (u1 u2 : R) :
  cholesky_solve (Mat [[u1; u2]]) (Mat [[1]]) = Mat [[u1; u2]].
Proof. transport_eval. apply mat12_eq; field. Qed.

Lemma c7_shoot :
  shoot_next (create_kernel_exact 1) false (1 / 1) (Mat [[0; 0]]) (Mat [[1; 0]])
  = (Mat [[1; 0]], Mat [[1; 0]]).
Proof.
  transport_eval. rewrite !gaussian_self.
  f_equal; apply mat12_eq; field.
Qed.

Lemma c7_velocity :
  transport_velocity (create_kernel_exact 1) (1 / (2 - 1)) (1 / (2 - 1))
    (Mat [[0; 0]]) (Mat [[1; 0]]) (Mat [[0; 1]])
  = Mat [[0; 1]].
Proof.
  transport_eval. rewrite !gaussian_self. apply mat12_eq; field.
Qed.
Lemma c7_projection :
  let exact := create_kernel_exact 1 in
  let cps := Mat [[0; 0]] in
  let mom := Mat [[1; 0]] in
  let ns := dot mom (convolve exact cps cps mom) in
  let sp := dot momenta_to_transport_c7 (convolve exact cps cps mom) / ns in
  ns = 1 /\ tsub momenta_to_transport_c7 (smul sp mom) = Mat [[0; 1]].
Proof.
  cbv zeta. unfold momenta_to_transport_c7.
  rewrite !(proj1 (dot_one_point 1 0 0 _ _ _ _)).
  split; [ring|].
  tensor_eval. apply mat12_eq; field.
Qed.

Lemma finish_defined_one_point (w ns c1 c2 m1 : R) :
  ns <> 0 ->
  finish_defined (create_kernel_exact w) ns (Mat [[c1; c2]]) (Mat [[m1; 0]])
                 (Vec [0; 1]) /\
  finish_defined (create_kernel_exact w) ns (Mat [[c1; c2]]) (Mat [[m1; 0]])
                 (Mat [[0; 1]]).
Proof.
  intros Hns. unfold finish_defined.
  rewrite (proj1 (dot_one_point w c1 c2 0 1 m1 0)).
  rewrite (proj2 (dot_one_point w c1 c2 0 1 m1 0)).
  replace ((0 * m1 + 1 * 0) / ns) with 0 by (field; exact Hns).
  assert (H1 : isub (Vec [0; 1]) (smul 0 (Mat [[m1; 0]])) = Vec [0; 1])
    by (tensor_eval; apply vec2_eq; ring).
  assert (H2 : isub (Mat [[0; 1]]) (smul 0 (Mat [[m1; 0]])) = Mat [[0; 1]])
    by (tensor_eval; apply mat12_eq; ring).
  rewrite H1, H2.
  rewrite (proj1 (dot_one_point w c1 c2 0 1 0 1)).
  assert (H3 : dot (Vec [0; 1])
                   (convolve (create_kernel_exact w) (Mat [[c1; c2]])
                             (Mat [[c1; c2]]) (Vec [0; 1])) = 1)
    by (tensor_eval; rewrite !gaussian_self; ring).
  rewrite H3.
  repeat split; try exact Hns; lra.
Qed.

Lemma c7_defined :
  let k := create_kernel_exact 1 in
  let cps := Mat [[0; 0]] in
  let mom := Mat [[1; 0]] in
  let v := momenta_to_transport_c7 in
  let cpt := shoot_control_points k false 2 cps mom in
  let momt := shoot_momenta k false 2 cps mom in
  let exact := create_kernel_exact (kernel_width k) in
  let ns := dot mom (convolve k cps cps mom) in
  let h := 1 / (IZR 2 - 1) in
  let sp := dot v (convolve exact cps cps mom) / ns in
  let vo := tsub v (smul sp mom) in
  let initial_norm := dot vo (convolve exact cps cps vo) in
  let n := Z.to_nat (2 - 1) in
  ns <> 0 /\
  fresh_defined k exact h h initial_norm ns n vo cpt momt /\
  cached_defined k exact h h initial_norm ns n vo cpt momt
                 (fresh_factors exact n cpt).
Proof.
  cbv zeta.
  destruct (shoot_two_points (create_kernel_exact 1) false (Mat [[0; 0]])
              (Mat [[1; 0]])) as [Hc Hm].
  rewrite Hc, Hm, c7_shoot. clear Hc Hm.
  change (Z.to_nat (2 - 1)) with 1%nat.
  cbn [fresh_defined cached_defined fresh_factors hd fst snd kernel_width
       create_kernel_exact].
  destruct c7_projection as [Hns Hvo]. cbv zeta in Hns, Hvo.
  rewrite Hvo, Hns.
  rewrite c7_velocity, kernel_matrix_one_point, factor_unit, solve_unit.
  change (squeeze (Mat [[0; 1]])) with (Vec [0; 1]).
  destruct (finish_defined_one_point 1 1 1 0 1) as [Hf1 Hf2]; [lra|].
  split; [lra|].
  split.
  - split; [exact positive_definite_unit|].
    split; [exact nonsingular_unit|]. split; [exact Hf1 | exact I].
  - split; [exact nonsingular_unit|]. split; [exact Hf2 | exact I].
Qed.

(** C7 (the defect).  With a single control point, two consecutive calls
    of [parallel_transport] with the same arguments return the same numbers
    in tensors of different shapes: the first call, which computes the
    Cholesky factors, squeezes each solution to rank one; the second, which
    reads the stored factors, does not. *)
Theorem C7_second_call_changes_shape :
  let e := state_of (Exponential.update exponential_c7) in
  exists pt1 pt2 e1,
    run (Exponential.parallel_transport momenta_to_transport_c7 false) e
    = (Ok pt1, e1) /\
    run (Exponential.parallel_transport momenta_to_transport_c7 false) e1
    = (Ok pt2, e1) /\
    length (Exponential.cholesky_kernel_matrices e) = 0%nat /\
    length (Exponential.cholesky_kernel_matrices e1) = 1%nat /\
    map size pt1 = [[1; 2]; [2]]%nat /\
    map size pt2 = [[1; 2]; [1; 2]]%nat /\
    map view1 pt1 = map view1 pt2 /\
    pt1 <> pt2.
Proof.
  cbv zeta.
  change (state_of (Exponential.update exponential_c7))
    with (snd (run Exponential.update exponential_c7)).
  unfold exponential_c7.
  destruct c7_defined as (Hn0 & Hdf & Hdc).
  destruct (two_transports (create_kernel_exact 1) false 2 (Mat [[0; 0]])
              (Mat [[1; 0]]) None momenta_to_transport_c7)
    as [H1 H2];
    [lia | cbn; lia | cbn; lia | reflexivity | exact c7_orthogonal
     | exact Hn0 | exact Hdf | exact Hdc |].
  clear Hn0 Hdf Hdc.
  do 3 eexists.
  split; [exact H1|]. split; [exact H2|].
  split.
  { rewrite exponential_with_update by (cbn; lia). reflexivity. }
  destruct (shoot_two_points (create_kernel_exact 1) false (Mat [[0; 0]])
              (Mat [[1; 0]])) as [Hc Hm].
  rewrite Hc, Hm. clear H1 H2 Hc Hm.
  change (Z.to_nat (2 - 1)) with 1%nat.
  cbn [transport_fresh transport_cached fresh_factors hd length
       Exponential.cholesky_kernel_matrices
       Exponential.with_cholesky_kernel_matrices kernel_width create_kernel_exact].
  destruct (shoot_next_one_point 1 (1 / 1) 0 0 1 0) as (c1 & c2 & m1 & m2 & Hs).
  rewrite Hs. cbn [fst snd].
  generalize (1 / (IZR 2 - 1)). intros h.
  generalize (dot (Mat [[1; 0]])
                (convolve (create_kernel_exact 1) (Mat [[0; 0]]) (Mat [[0; 0]])
                          (Mat [[1; 0]]))). intros ns.
  unfold momenta_to_transport_c7.
  generalize (dot (Mat [[0; 1]])
                (convolve (create_kernel_exact 1) (Mat [[0; 0]]) (Mat [[0; 0]])
                          (Mat [[1; 0]])) / ns). intros sp.
  assert (Hvo : tsub (Mat [[0; 1]]) (smul sp (Mat [[1; 0]]))
                = Mat [[0 - sp * 1; 1 - sp * 0]]) by reflexivity.
  rewrite Hvo. clear Hvo.
  generalize (0 - sp * 1) (1 - sp * 0). intros l1 l2.
  generalize (dot (Mat [[l1; l2]])
                (convolve (create_kernel_exact 1) (Mat [[0; 0]]) (Mat [[0; 0]])
                          (Mat [[l1; l2]]))). intros initial_norm.
  destruct (velocity_one_point 1 h h 0 0 1 0 l1 l2) as (u1 & u2 & Hv).
  rewrite Hv.
  destruct (factor_one_point 1 c1 c2) as (f & Hf). rewrite Hf.
  destruct (cholesky_solve_one_point u1 u2 f) as (x1 & x2 & Hp). rewrite Hp.
  change (squeeze (Mat [[x1; x2]])) with (Vec [x1; x2]).
  destruct (finish_one_point 1 initial_norm ns c1 c2 m1 m2 x1 x2)
    as (y1 & y2 & Hy1 & Hy2).
  rewrite Hy1, Hy2.
  split; [reflexivity|]. split; [reflexivity|]. split; [reflexivity|].
  split; [reflexivity|].
  intros H. discriminate H.
Qed.
(* ------------------------------------------------------------------ *)
(** ** Concrete instances *)



Lemma exponential_c10_shot : shot (state_of (Exponential.update exponential_c10)).
Proof.
  change (state_of (Exponential.update exponential_c10))
    with (snd (run Exponential.update exponential_c10)).
  unfold exponential_c10.
  rewrite exponential_with_update; [ | lia | cbn; lia | cbn; lia].
  cbn [snd]. do 4 eexists. repeat split.
Qed.

Lemma C9_norm_squared_frame_witness :
  let e := state_of (Exponential.update exponential_c10) in
  let r := (Exponential.set_initial_template_data (Some (Mat [[3]])) ;;
            Exponential.update) e in
  outcome_of (Exponential.update e) = Ok tt /\
  Exponential.norm_squared (state_of (Exponential.update e))
  = Exponential.norm_squared e /\
  outcome_of r = Ok tt /\
  Exponential.norm_squared (state_of r) = Exponential.norm_squared e.
Proof.
  intros e r.
  destruct (C9_norm_squared_frame e (Mat [[3]]) exponential_c10_shot)
    as [(H1 & H2 & _) (H3 & H4 & _)].
  repeat split; assumption.
Defined.

Lemma C8_cache_cleared_by_update_witness :
  Exponential.parallel_transport momenta_to_transport_c7 false exponential_c7
  = (Raise AssertionError, exponential_c7, []) /\
  Exponential.cholesky_kernel_matrices (state_of (Exponential.update exponential_c7))
  = [] /\
  Exponential.shoot_is_modified (state_of (Exponential.update exponential_c7))
  = false.
Proof.
  destruct (C8_cache_cleared_by_update exponential_c7 None
              momenta_to_transport_c7 false) as (_ & _ & H3 & H4).
  split; [apply H3; reflexivity|].
  apply H4; [reflexivity|].
  change (outcome_of (Exponential.update exponential_c7))
    with (fst (run Exponential.update exponential_c7)).
  unfold exponential_c7.
  rewrite exponential_with_update; [reflexivity | lia | cbn; lia | cbn; lia].
Defined.

(** Re-setting the control points after a transport leaves the stored
    factors in place: the shoot is stale and the store is not empty. *)
Lemma C8_stale_with_stored_factors :
  let e := state_of (Exponential.update exponential_c7) in
  let e1 := state_of (Exponential.parallel_transport momenta_to_transport_c7 false e) in
  let e2 := state_of (Exponential.set_initial_control_points (Some (Mat [[2; 2]])) e1) in
  outcome_of (Exponential.update exponential_c7) = Ok tt /\
  (exists pt,
      outcome_of (Exponential.parallel_transport momenta_to_transport_c7 false e)
      = Ok pt) /\
  Exponential.shoot_is_modified e2 = true /\
  length (Exponential.cholesky_kernel_matrices e2) = 1%nat /\
  ~ (Exponential.shoot_is_modified e2 = true ->
     Exponential.cholesky_kernel_matrices e2 = []).
Proof.
  cbv zeta.
  change (outcome_of (Exponential.update exponential_c7))
    with (fst (run Exponential.update exponential_c7)).
  change (state_of (Exponential.update exponential_c7))
    with (snd (run Exponential.update exponential_c7)).
  change (state_of (Exponential.parallel_transport ?v ?f ?s))
    with (snd (run (Exponential.parallel_transport v f) s)).
  change (outcome_of (Exponential.parallel_transport ?v ?f ?s))
    with (fst (run (Exponential.parallel_transport v f) s)).
  unfold exponential_c7.
  destruct c7_defined as (Hn0 & Hdf & Hdc).
  destruct (two_transports (create_kernel_exact 1) false 2 (Mat [[0; 0]])
              (Mat [[1; 0]]) None momenta_to_transport_c7)
    as [H1 _];
    [lia | cbn; lia | cbn; lia | reflexivity | exact c7_orthogonal
     | exact Hn0 | exact Hdf | exact Hdc |].
  rewrite H1. cbn [fst snd].
  rewrite exponential_with_update by (cbn; lia). cbn [fst snd].
  split; [reflexivity|]. split; [eexists; reflexivity|].
  split; [reflexivity|]. split; [reflexivity|].
  intros H. specialize (H eq_refl). discriminate H.
Qed.
(* ------------------------------------------------------------------ *)
(** ** The renormalization of the transported vector *)

Lemma kernel_value_c2_bounds : 0 < kernel_value_c2 < 1.
Proof.
  unfold kernel_value_c2. split; [apply exp_pos|].
  rewrite <- exp_0. apply exp_increasing. lra.
Qed.

Lemma gaussian_together (w : R) (x y : list R) :
  squared_distance x y = 0 -> gaussian w x y = 1.
Proof.
  intros H. unfold gaussian. rewrite H.
  replace (- 0 / (w * w)) with 0 by (unfold Rdiv; ring).
  apply exp_0.
Qed.

Lemma gaussian_one_apart (x y : list R) :
  squared_distance x y = 1 -> gaussian 1 x y = kernel_value_c2.
Proof.
  intros H. unfold gaussian, kernel_value_c2. rewrite H.
  f_equal. field.
Qed.

Lemma mat22_eq (a b c d a' b' c' d' : R) :
  a = a' -> b = b' -> c = c' -> d = d' ->
  Mat [[a; b]; [c; d]] = Mat [[a'; b']; [c'; d']].
Proof. intros; subst; reflexivity. Qed.

Ltac c2_field :=
  unfold weight_c2; field; pose proof kernel_value_c2_bounds; lra.

Ltac c2_distance :=
  cbv [squared_distance zip_with sum_list fold_right]; c2_field.

Ltac c2_gaussians :=
  repeat match goal with
         | |- context [gaussian 1 ?x ?y] =>
             first [ rewrite (gaussian_together 1 x y) by c2_distance
                   | rewrite (gaussian_one_apart x y) by c2_distance ]
         end.

Ltac c2_values := c2_gaussians; first [apply mat22_eq | idtac]; c2_field.

Lemma c2_velocity :
  convolve (create_kernel_exact 1) control_points_c2 control_points_c2 momenta_c2
  = Mat [[1; 0]; [- 1; 0]].
Proof.
  unfold control_points_c2, momenta_c2. tensor_eval. c2_values.
Qed.

Lemma c2_norm_squared :
  dot momenta_c2 (Mat [[1; 0]; [- 1; 0]]) = 2 * weight_c2.
Proof. unfold momenta_c2. tensor_eval. ring. Qed.

Lemma c2_projection :
  dot momenta_to_transport_c2 (Mat [[1; 0]; [- 1; 0]]) = 0.
Proof. unfold momenta_to_transport_c2. tensor_eval. ring. Qed.

Lemma c2_orthogonal_part (sp : R) :
  sp = 0 -> tsub momenta_to_transport_c2 (smul sp momenta_c2) = momenta_to_transport_c2.
Proof.
  intros ->. unfold momenta_to_transport_c2, momenta_c2. tensor_eval.
  apply mat22_eq; ring.
Qed.

Lemma c2_target_norm :
  dot momenta_to_transport_c2
      (convolve (create_kernel_exact 1) control_points_c2 control_points_c2
                momenta_to_transport_c2)
  = 2 * weight_c2 * weight_c2 * (1 + kernel_value_c2).
Proof.
  unfold control_points_c2, momenta_to_transport_c2. tensor_eval.
  c2_gaussians. ring.
Qed.

Lemma c2_shoot :
  shoot_next (create_kernel_exact 1) false (1 / 1) control_points_c2 momenta_c2
  = (Mat [[1 / 2; 0]; [- (1 / 2); 0]],
     Mat [[weight_c2 + 4 * weight_c2 * weight_c2 * kernel_value_c2; 0];
          [- (weight_c2 + 4 * weight_c2 * weight_c2 * kernel_value_c2); 0]]).
Proof.
  unfold control_points_c2, momenta_c2. transport_eval.
  c2_gaussians. f_equal; apply mat22_eq; c2_field.
Qed.

Lemma c2_approx_velocity :
  transport_velocity (create_kernel_exact 1) (1 / (2 - 1)) (1 / (2 - 1))
    control_points_c2 momenta_c2 momenta_to_transport_c2
  = Mat [[2 * weight_c2; 0]; [2 * weight_c2; 0]].
Proof.
  unfold control_points_c2, momenta_c2, momenta_to_transport_c2. transport_eval.
  c2_gaussians. apply mat22_eq; c2_field.
Qed.

Lemma c2_kernel_matrix :
  get_kernel_matrix (create_kernel_exact 1) (Mat [[1 / 2; 0]; [- (1 / 2); 0]])
  = Mat [[1; kernel_value_c2]; [kernel_value_c2; 1]].
Proof. tensor_eval. c2_gaussians. reflexivity. Qed.

(** The solution of a two by two system with the Gram matrix of two
    points through its Cholesky factor. *)
Lemma cholesky_solve_gram_two_points (g b11 b12 b21 b22 : R) :
  0 < g < 1 ->
  cholesky_solve (Mat [[b11; b12]; [b21; b22]]) (cholesky_factor (Mat [[1; g]; [g; 1]]))
  = Mat [[b11 - g * ((b21 - g * b11) / (1 - g * g));
          b12 - g * ((b22 - g * b12) / (1 - g * g))];
         [(b21 - g * b11) / (1 - g * g); (b22 - g * b12) / (1 - g * g)]].
Proof.
  intros Hg.
  assert (Hpos : 0 < 1 - g * g) by nra.
  assert (H1 : sqrt 1 = 1) by apply sqrt_1.
  assert (Hs : sqrt (1 - g * g) * sqrt (1 - g * g) = 1 - g * g)
    by (apply sqrt_sqrt; lra).
  assert (Hs0 : sqrt (1 - g * g) <> 0).
  { intros H0. rewrite H0 in Hs. lra. }
  transport_eval.
  replace (1 - 0) with 1 by ring. rewrite H1.
  replace (1 - ((g - 0) / 1 * ((g - 0) / 1) + 0)) with (1 - g * g) by field.
  set (s := sqrt (1 - g * g)) in *.
  apply mat22_eq.
  all: rewrite <- Hs; field; exact Hs0.
Qed.

Lemma c2_cotangent :
  squeeze (cholesky_solve (Mat [[2 * weight_c2; 0]; [2 * weight_c2; 0]])
             (cholesky_factor (Mat [[1; kernel_value_c2]; [kernel_value_c2; 1]])))
  = Mat [[2 * weight_c2 / (1 + kernel_value_c2); 0];
         [2 * weight_c2 / (1 + kernel_value_c2); 0]].
Proof.
  rewrite cholesky_solve_gram_two_points by exact kernel_value_c2_bounds.
  cbv [squeeze forallb length Nat.eqb andb].
  pose proof kernel_value_c2_bounds.
  apply mat22_eq; unfold weight_c2; field; nra.
Qed.

(** The last stage of a step where both points carry the same cotangent
    vector [(a, 0)] and opposite momenta: that vector is orthogonal to the
    velocity of the geodesic, and [(a, 0)] is rescaled by
    [initial_norm / norm_approx_momenta]. *)
Lemma finish_symmetric (a q initial_norm ns : R) :
  let exact := create_kernel_exact 1 in
  let cp' := Mat [[1 / 2; 0]; [- (1 / 2); 0]] in
  let mom' := Mat [[q; 0]; [- q; 0]] in
  let approx_momenta := Mat [[a; 0]; [a; 0]] in
  dot approx_momenta (convolve exact cp' cp' mom') = 0 /\
  dot approx_momenta (convolve exact cp' cp' approx_momenta)
  = 2 * a * a * (1 + kernel_value_c2) /\
  transport_finish exact initial_norm ns cp' mom' approx_momenta
  = sdiv (muls approx_momenta initial_norm) (2 * a * a * (1 + kernel_value_c2)).
Proof.
  intros exact cp' mom' approx_momenta.
  assert (Hs : dot approx_momenta (convolve exact cp' cp' mom') = 0).
  { subst exact cp' mom' approx_momenta. tensor_eval. c2_gaussians. ring. }
  assert (Hn : dot approx_momenta (convolve exact cp' cp' approx_momenta)
               = 2 * a * a * (1 + kernel_value_c2)).
  { subst exact cp' mom' approx_momenta. tensor_eval. c2_gaussians. ring. }
  split; [exact Hs|]. split; [exact Hn|].
  unfold transport_finish. rewrite Hs.
  replace (0 / ns) with 0 by (unfold Rdiv; ring).
  assert (Hi : isub approx_momenta (smul 0 mom') = approx_momenta).
  { subst mom' approx_momenta. tensor_eval. apply mat22_eq; ring. }
  rewrite Hi, Hn. reflexivity.
Qed.

Lemma c2_renormalized :
  sdiv (muls (Mat [[2 * weight_c2 / (1 + kernel_value_c2); 0];
                   [2 * weight_c2 / (1 + kernel_value_c2); 0]])
             (2 * weight_c2 * weight_c2 * (1 + kernel_value_c2)))
       (2 * (2 * weight_c2 / (1 + kernel_value_c2))
          * (2 * weight_c2 / (1 + kernel_value_c2)) * (1 + kernel_value_c2))
  = Mat [[weight_c2 * (1 + kernel_value_c2) / 2; 0];
         [weight_c2 * (1 + kernel_value_c2) / 2; 0]].
Proof.
  tensor_eval. apply mat22_eq; c2_field.
Qed.

(** Rescaling a vector of squared norm [n] by [t / n] gives the squared
    norm [t * t / n]: it is [t] only when [n] already is. *)
Lemma renormalized_norm k (cp a : tensor) (t n : R) :
  linear_in_weights k ->
  dot a (convolve k cp cp a) = n -> n <> 0 ->
  let m := sdiv (muls a t) n in
  dot m (convolve k cp cp m) = t * t / n.
Proof.
  intros Hk Hn Hn0 m.
  assert (He : m = tmap (Rmult (t / n)) a).
  { subst m. unfold sdiv, muls. rewrite tmap_tmap.
    apply tmap_ext. intros x. field. exact Hn0. }
  rewrite He, Hk, dot_scale, Hn. field. exact Hn0.
Qed.

Lemma c2_orthogonal :
  let exact := create_kernel_exact 1 in
  let ns := dot momenta_c2 (convolve exact control_points_c2 control_points_c2
                                     momenta_c2) in
  let sp := dot momenta_to_transport_c2
                (convolve exact control_points_c2 control_points_c2 momenta_c2)
            / ns in
  let vo := tsub momenta_to_transport_c2 (smul sp momenta_c2) in
  sp = 0 /\ ns = 2 * weight_c2 /\ vo = momenta_to_transport_c2 /\
  dot vo (convolve exact control_points_c2 control_points_c2 momenta_c2) / ns < 1e-5.
Proof.
  cbv zeta. rewrite c2_velocity, c2_norm_squared, c2_projection.
  assert (H0 : 0 / (2 * weight_c2) = 0) by (unfold Rdiv; ring).
  rewrite H0, (c2_orthogonal_part 0 eq_refl), c2_projection, H0.
  repeat split; lra.
Qed.

(** The Gram matrix of two distinct points is positive definite, and its
    factor has no zero on the diagonal. *)
Lemma gram_two_points_defined (g : R) :
  0 < g < 1 ->
  positive_definite (Mat [[1; g]; [g; 1]]) = true /\
  nonsingular (cholesky_factor (Mat [[1; g]; [g; 1]])) = true.
Proof.
  intros Hg.
  assert (Hpos : 0 < 1 - g * g) by nra.
  assert (H1 : sqrt 1 = 1) by apply sqrt_1.
  assert (Hs0 : sqrt (1 - g * g) <> 0).
  { intros H0. pose proof (sqrt_sqrt (1 - g * g) ltac:(lra)) as Hs.
    rewrite H0 in Hs. lra. }
  split.
  - cbv [positive_definite chol_pivots rows chol_offdiag chol_next nth length
         dotv zip_with sum_list fold_right forallb andb app last].
    replace (1 - 0) with 1 by ring. rewrite H1.
    rewrite Rltb_true by lra.
    rewrite Rltb_true; [reflexivity|].
    replace (1 - ((g - 0) / 1 * ((g - 0) / 1) + 0)) with (1 - g * g) by field.
    exact Hpos.
  - transport_eval.
    cbv [nonsingular diagonal rows length seq map nth forallb andb negb].
    replace (1 - 0) with 1 by ring. rewrite H1.
    rewrite Reqb_false by lra.
    replace (1 - ((g - 0) / 1 * ((g - 0) / 1) + 0)) with (1 - g * g) by field.
    rewrite Reqb_false by exact Hs0. reflexivity.
Qed.

Lemma finish_symmetric_defined (a q ns : R) :
  ns <> 0 -> a <> 0 ->
  finish_defined (create_kernel_exact 1) ns
    (Mat [[1 / 2; 0]; [- (1 / 2); 0]]) (Mat [[q; 0]; [- q; 0]])
    (Mat [[a; 0]; [a; 0]]).
Proof.
  intros Hns Ha.
  destruct (finish_symmetric a q 0 ns) as (Hs & Hn & _). cbv zeta in Hs, Hn.
  unfold finish_defined. rewrite Hs.
  replace (0 / ns) with 0 by (unfold Rdiv; ring).
  assert (Hi : isub (Mat [[a; 0]; [a; 0]]) (smul 0 (Mat [[q; 0]; [- q; 0]]))
               = Mat [[a; 0]; [a; 0]])
    by (tensor_eval; apply mat22_eq; ring).
  rewrite Hi, Hn.
  split; [exact Hns|].
  pose proof kernel_value_c2_bounds.
  assert (0 < a * a) by nra. nra.
Qed.

Lemma c2_defined :
  let k := create_kernel_exact 1 in
  let v := momenta_to_transport_c2 in
  let cpt := shoot_control_points k false 2 control_points_c2 momenta_c2 in
  let momt := shoot_momenta k false 2 control_points_c2 momenta_c2 in
  let exact := create_kernel_exact (kernel_width k) in
  let ns := dot momenta_c2 (convolve k control_points_c2 control_points_c2
                                     momenta_c2) in
  let h := 1 / (IZR 2 - 1) in
  let sp := dot v (convolve exact control_points_c2 control_points_c2 momenta_c2)
            / ns in
  let vo := tsub v (smul sp momenta_c2) in
  let initial_norm :=
    dot vo (convolve exact control_points_c2 control_points_c2 vo) in
  let n := Z.to_nat (2 - 1) in
  ns <> 0 /\
  fresh_defined k exact h h initial_norm ns n vo cpt momt /\
  cached_defined k exact h h initial_norm ns n vo cpt momt
                 (fresh_factors exact n cpt).
Proof.
  cbv zeta.
  destruct c2_orthogonal as (Hsp & Hns & Hvo & _). cbv zeta in Hsp, Hns, Hvo.
  cbn [kernel_width create_kernel_exact].
  rewrite Hvo, Hns.
  destruct (shoot_two_points (create_kernel_exact 1) false control_points_c2
              momenta_c2) as [Hc Hm].
  rewrite Hc, Hm, c2_shoot. clear Hc Hm.
  change (Z.to_nat (2 - 1)) with 1%nat.
  cbn [fresh_defined cached_defined fresh_factors hd fst snd].
  rewrite c2_approx_velocity, c2_kernel_matrix.
  pose proof kernel_value_c2_bounds as HE.
  assert (Hw : 0 < weight_c2).
  { unfold weight_c2. apply Rdiv_lt_0_compat; lra. }
  destruct (gram_two_points_defined kernel_value_c2 HE) as [Hpd Hnz].
  assert (Hsolve : cholesky_solve (Mat [[2 * weight_c2; 0]; [2 * weight_c2; 0]])
                     (cholesky_factor
                        (Mat [[1; kernel_value_c2]; [kernel_value_c2; 1]]))
                   = Mat [[2 * weight_c2 / (1 + kernel_value_c2); 0];
                          [2 * weight_c2 / (1 + kernel_value_c2); 0]]).
  { rewrite cholesky_solve_gram_two_points by exact HE.
    apply mat22_eq; unfold weight_c2; field; nra. }
  rewrite c2_cotangent, Hsolve.
  assert (Ha : 2 * weight_c2 / (1 + kernel_value_c2) <> 0).
  { apply Rgt_not_eq. apply Rdiv_lt_0_compat; lra. }
  assert (Hn0 : 2 * weight_c2 <> 0) by lra.
  pose proof (finish_symmetric_defined _
                (weight_c2 + 4 * weight_c2 * weight_c2 * kernel_value_c2)
                _ Hn0 Ha) as Hf.
  split; [exact Hn0|].
  split.
  - split; [exact Hpd|]. split; [exact Hnz|]. split; [exact Hf | exact I].
  - split; [exact Hnz|]. split; [exact Hf | exact I].
Qed.

Lemma c2_transport :
  exists e1,
    run (Exponential.parallel_transport momenta_to_transport_c2 false)
        (snd (run Exponential.update exponential_c2))
    = (Ok [momenta_to_transport_c2;
           Mat [[weight_c2 * (1 + kernel_value_c2) / 2; 0];
                [weight_c2 * (1 + kernel_value_c2) / 2; 0]]], e1).
Proof.
  unfold exponential_c2.
  destruct c2_orthogonal as (Hsp & Hns & Hvo & Horth).
  destruct c2_defined as (Hn0 & Hdf & Hdc).
  destruct (two_transports (create_kernel_exact 1) false 2 control_points_c2
              momenta_c2 None momenta_to_transport_c2)
    as [H1 _];
    [lia | cbn; lia | cbn; lia | reflexivity | exact Horth
     | exact Hn0 | exact Hdf | exact Hdc |].
  clear Hn0 Hdf Hdc.
  eexists. etransitivity; [exact H1|]. f_equal. f_equal.
  cbn [kernel_width create_kernel_exact].
  rewrite Hvo, Hns, c2_target_norm.
  destruct (shoot_two_points (create_kernel_exact 1) false control_points_c2
              momenta_c2) as [Hc Hm].
  rewrite Hc, Hm, c2_shoot.
  change (Z.to_nat (2 - 1)) with 1%nat.
  cbn [transport_fresh hd fst snd].
  rewrite c2_approx_velocity, c2_kernel_matrix, c2_cotangent.
  destruct (finish_symmetric (2 * weight_c2 / (1 + kernel_value_c2))
              (weight_c2 + 4 * weight_c2 * weight_c2 * kernel_value_c2)
              (2 * weight_c2 * weight_c2 * (1 + kernel_value_c2))
              (2 * weight_c2)) as (_ & _ & Hf).
  rewrite Hf, c2_renormalized. reflexivity.
Qed.

(** C2 (the defect).  Two control points one unit apart, pushed towards
    each other, and a vector that pushes both the same way: [update] and
    [parallel_transport] return; the vector is its own orthogonal part, with
    squared norm [target]; the entry appended after the single step has
    squared norm [target * (1 + E)^2 / 4] at the next control points, with
    [E = exp (-1)] the kernel value of the two points, and not [target].
    The rescaling by [initial_norm / norm_approx_momenta], a ratio of
    squared norms, multiplies the squared norm by the square of that
    ratio. *)
Theorem C2_renormalized_norm_misses_target :
  let exact := create_kernel_exact 1 in
  let e := state_of (Exponential.update exponential_c2) in
  let cp1 := Mat [[1 / 2; 0]; [- (1 / 2); 0]] in
  let m1 := Mat [[weight_c2 * (1 + kernel_value_c2) / 2; 0];
                 [weight_c2 * (1 + kernel_value_c2) / 2; 0]] in
  let target := dot momenta_to_transport_c2
                    (convolve exact control_points_c2 control_points_c2
                              momenta_to_transport_c2) in
  outcome_of (Exponential.update exponential_c2) = Ok tt /\
  Exponential.control_points_t e = Some [control_points_c2; cp1] /\
  outcome_of (Exponential.parallel_transport momenta_to_transport_c2 false e)
  = Ok [momenta_to_transport_c2; m1] /\
  0 < target /\
  dot m1 (convolve exact cp1 cp1 m1)
  = target * ((1 + kernel_value_c2) * (1 + kernel_value_c2) / 4) /\
  dot m1 (convolve exact cp1 cp1 m1) <> target.
Proof.
  cbv zeta.
  change (outcome_of (Exponential.update exponential_c2))
    with (fst (run Exponential.update exponential_c2)).
  change (state_of (Exponential.update exponential_c2))
    with (snd (run Exponential.update exponential_c2)).
  change (outcome_of (Exponential.parallel_transport ?v ?f ?s))
    with (fst (run (Exponential.parallel_transport v f) s)).
  destruct c2_transport as [e1 Hrun]. rewrite Hrun. clear Hrun.
  unfold exponential_c2.
  rewrite exponential_with_update by (cbn; lia).
  destruct (shoot_two_points (create_kernel_exact 1) false control_points_c2
              momenta_c2) as [Hc _].
  cbn [fst snd Exponential.control_points_t]. rewrite Hc, c2_shoot.
  cbn [fst snd]. rewrite c2_target_norm.
  pose proof kernel_value_c2_bounds as HE.
  assert (Hw : 0 < weight_c2).
  { unfold weight_c2. apply Rdiv_lt_0_compat; lra. }
  assert (Hn : dot (Mat [[weight_c2 * (1 + kernel_value_c2) / 2; 0];
                         [weight_c2 * (1 + kernel_value_c2) / 2; 0]])
                   (convolve (create_kernel_exact 1)
                      (Mat [[1 / 2; 0]; [- (1 / 2); 0]])
                      (Mat [[1 / 2; 0]; [- (1 / 2); 0]])
                      (Mat [[weight_c2 * (1 + kernel_value_c2) / 2; 0];
                            [weight_c2 * (1 + kernel_value_c2) / 2; 0]]))
               = 2 * weight_c2 * weight_c2 * (1 + kernel_value_c2)
                 * ((1 + kernel_value_c2) * (1 + kernel_value_c2) / 4)).
  { tensor_eval. c2_gaussians. field. }
  assert (Ht : 0 < 2 * weight_c2 * weight_c2 * (1 + kernel_value_c2)).
  { apply Rmult_lt_0_compat; [|lra].
    apply Rmult_lt_0_compat; [lra | exact Hw]. }
  split; [reflexivity|]. split; [reflexivity|]. split; [reflexivity|].
  split; [exact Ht|]. split; [exact Hn|].
  rewrite Hn.
  set (t := 2 * weight_c2 * weight_c2 * (1 + kernel_value_c2)) in *.
  assert (Hq : (1 + kernel_value_c2) * (1 + kernel_value_c2) / 4 < 1) by nra.
  intros Heq.
  assert (t * ((1 + kernel_value_c2) * (1 + kernel_value_c2) / 4) < t * 1)
    by (apply Rmult_lt_compat_l; assumption).
  lra.
Qed.

(* ================================================================== *)
(** * Further properties of the exponential *)
(* ================================================================== *)

(** X1.  [update] asserts a positive number of time points and nothing
    more: with zero or a negative number it raises an [AssertionError] and
    leaves the object as it was; with exactly one time point a stale shoot
    passes the assertion and then divides by [number_of_time_points - 1],
    raising a [ZeroDivisionError] after the store of factors was emptied and
    the two trajectories were reset to their initial entries, the shoot flag
    still up. *)
Theorem X1_update_time_point_bounds (e : Exponential.t) (T : Z) :
  Exponential.number_of_time_points e = Some T ->
  ((T <= 0)%Z -> Exponential.update e = (Raise AssertionError, e, [])) /\
  (T = 1%Z ->
   Exponential.shoot_is_modified e = true ->
   forall cps mom,
     Exponential.initial_control_points e = Some cps -> (0 < len cps)%nat ->
     Exponential.initial_momenta e = Some mom -> (0 < len mom)%nat ->
     outcome_of (Exponential.update e) = Raise ZeroDivisionError /\
     Exponential.shoot_is_modified (state_of (Exponential.update e)) = true /\
     Exponential.control_points_t (state_of (Exponential.update e)) = Some [cps] /\
     Exponential.momenta_t (state_of (Exponential.update e)) = Some [mom] /\
     Exponential.cholesky_kernel_matrices (state_of (Exponential.update e)) = []).
Proof.
  intros HT.
  destruct e as [k T0 icp cpt0 imom momt0 itd tdt0 sm fm rk ns ch].
  cbn in HT. subst T0. split.
  - intros Hle.
    assert (H0 : (0 <? T)%Z = false) by (apply Z.ltb_ge; lia).
    unfold Exponential.update, Exponential.time_points.
    py_unfold. exp_fields. rewrite H0. reflexivity.
  - intros -> Hsm cps mom Hicp Hlc Himom Hlm.
    cbn in Hsm, Hicp, Himom. subst sm icp imom.
    apply Nat.ltb_lt in Hlc, Hlm.
    unfold Exponential.update, Exponential.time_points, Exponential._shoot,
      Exponential.append_control_points, Exponential.append_momenta,
      Exponential.time_points, float_div.
    py_unfold. exp_fields. cbn [Z.ltb Z.compare]. cbv iota.
    exp_fields. rewrite Hlc. exp_fields. rewrite Hlm. exp_fields.
    change (1 - 1)%Z with 0%Z.
    destruct (Req_dec_T 0 0) as [_|Hn]; [|exfalso; apply Hn; reflexivity].
    cbn. auto.
Qed.

Lemma X1_update_time_point_bounds_witness :
  Exponential.update
    (Exponential.with_number_of_time_points (Some 0%Z) Exponential.init)
  = (Raise AssertionError,
     Exponential.with_number_of_time_points (Some 0%Z) Exponential.init, []) /\
  outcome_of (Exponential.update
                (exponential_with (create_kernel_exact 1) false 1
                                  origin_1d unit_momentum_1d None))
  = Raise ZeroDivisionError.
Proof.
  split.
  - apply (proj1 (X1_update_time_point_bounds
                    (Exponential.with_number_of_time_points (Some 0%Z)
                                                            Exponential.init)
                    0 eq_refl)).
    lia.
  - apply (proj2 (X1_update_time_point_bounds
                    (exponential_with (create_kernel_exact 1) false 1
                                      origin_1d unit_momentum_1d None)
                    1 eq_refl) eq_refl eq_refl origin_1d unit_momentum_1d);
      try reflexivity; cbn; lia.
Defined.

(** X2.  [_shoot] refuses initial control points or momenta without any
    row: [update] on a stale shoot then raises an [AssertionError]; by then
    it has emptied the store of Cholesky factors and changed nothing else,
    so that the shoot flag is still up. *)
Theorem X2_update_rejects_empty_inputs
    (e : Exponential.t) (T : Z) (cps mom : tensor) :
  Exponential.number_of_time_points e = Some T -> (0 < T)%Z ->
  Exponential.shoot_is_modified e = true ->
  Exponential.initial_control_points e = Some cps ->
  Exponential.initial_momenta e = Some mom ->
  len cps = 0%nat \/ len mom = 0%nat ->
  Exponential.update e
  = (Raise AssertionError, Exponential.with_cholesky_kernel_matrices [] e, []).
Proof.
  intros HT Hpos Hsm Hicp Himom Hempty.
  destruct e as [k T0 icp cpt0 imom momt0 itd tdt0 sm fm rk ns ch].
  cbn in HT, Hsm, Hicp, Himom. subst T0 sm icp imom.
  assert (H0 : (0 <? T)%Z = true) by (apply Z.ltb_lt; lia).
  unfold Exponential.update, Exponential.time_points, Exponential._shoot.
  py_unfold. exp_fields. rewrite H0. exp_fields.
  destruct (0 <? len cps)%nat eqn:Hc.
  - destruct Hempty as [Hz|Hz]; [apply Nat.ltb_lt in Hc; lia|].
    rewrite Hz. reflexivity.
  - reflexivity.
Qed.

Lemma X2_update_rejects_empty_inputs_witness :
  Exponential.update
    (exponential_with (create_kernel_exact 1) false 2 (Mat []) unit_momentum_1d None)
  = (Raise AssertionError,
     Exponential.with_cholesky_kernel_matrices []
       (exponential_with (create_kernel_exact 1) false 2 (Mat [])
                         unit_momentum_1d None),
     []).
Proof.
  apply (X2_update_rejects_empty_inputs
           (exponential_with (create_kernel_exact 1) false 2 (Mat [])
                             unit_momentum_1d None)
           2 (Mat []) unit_momentum_1d);
    try reflexivity; try lia.
  left. reflexivity.
Defined.

Lemma shoot_trajectory_rk2 k dt cpt momt :
  shoot_trajectory k true dt cpt momt -> rk2_trajectory k dt cpt momt.
Proof. intros H i cp mom Hc Hm Hlt. exact (H i cp mom Hc Hm Hlt). Qed.

(** X3.  Under the RK2 policy, with at least two time points and non-empty
    initial control points and momenta, [update] on a stale shoot returns;
    the two trajectories it stores have exactly [number_of_time_points]
    entries, start at the initial state and follow the midpoint scheme of
    [_rk2_step] with [dt = 1/(T-1)]; [norm_squared] is computed from the
    initial state, as under the Euler policy. *)
Theorem X3_update_rk2_trajectories
    (e : Exponential.t) (k : Kernel) (T : Z) (cps mom : tensor) :
  Exponential.kernel e = Some k ->
  Exponential.number_of_time_points e = Some T ->
  (2 <= T)%Z ->
  Exponential.use_rk2 e = Some true ->
  Exponential.initial_control_points e = Some cps ->
  (0 < len cps)%nat ->
  Exponential.initial_momenta e = Some mom ->
  (0 < len mom)%nat ->
  Exponential.shoot_is_modified e = true ->
  exists cpt momt,
    outcome_of (Exponential.update e) = Ok tt /\
    Exponential.control_points_t (state_of (Exponential.update e)) = Some cpt /\
    Exponential.momenta_t (state_of (Exponential.update e)) = Some momt /\
    length cpt = Z.to_nat T /\
    length momt = Z.to_nat T /\
    nth_error cpt 0 = Some cps /\
    nth_error momt 0 = Some mom /\
    rk2_trajectory k (1 / IZR (T - 1)) cpt momt /\
    Exponential.norm_squared (state_of (Exponential.update e))
      = Some (dot mom (convolve k cps cps mom)) /\
    Exponential.shoot_is_modified (state_of (Exponential.update e)) = false.
Proof.
  intros Hk HT H2 Hrk Hicp Hlc Himom Hlm Hsm.
  destruct e as [k0 T0 icp cpt0 imom momt0 itd tdt0 sm fm rk ns ch].
  cbn in Hk, HT, Hrk, Hicp, Himom, Hsm. subst k0 T0 icp imom sm rk.
  destruct (update_shoot_run k T cps cpt0 mom momt0 itd tdt0 fm (Some true) ns ch)
    as (w & Hrun & _); [lia | assumption | assumption |].
  cbn [truthy] in Hrun.
  exists (shoot_control_points k true T cps mom), (shoot_momenta k true T cps mom).
  rewrite Hrun. cbn [outcome_of state_of fst snd]. exp_fields.
  destruct (shoot_lengths k true T cps mom) as [H1 H2']; [lia|].
  split; [reflexivity|]. split; [reflexivity|]. split; [reflexivity|].
  split; [exact H1|]. split; [exact H2'|].
  split; [reflexivity|]. split; [reflexivity|].
  split; [|split; reflexivity].
  apply shoot_trajectory_rk2. apply shoot_from_trajectory.
Qed.

Lemma X3_update_rk2_trajectories_witness :
  let e := exponential_with (create_kernel_exact 1) true 3
                            origin_1d unit_momentum_1d None in
  exists cpt momt,
    outcome_of (Exponential.update e) = Ok tt /\
    Exponential.control_points_t (state_of (Exponential.update e)) = Some cpt /\
    Exponential.momenta_t (state_of (Exponential.update e)) = Some momt /\
    length cpt = Z.to_nat 3 /\
    length momt = Z.to_nat 3 /\
    nth_error cpt 0 = Some origin_1d /\
    nth_error momt 0 = Some unit_momentum_1d /\
    rk2_trajectory (create_kernel_exact 1) (1 / IZR (3 - 1)) cpt momt /\
    Exponential.norm_squared (state_of (Exponential.update e))
      = Some (dot unit_momentum_1d
                  (convolve (create_kernel_exact 1) origin_1d origin_1d
                            unit_momentum_1d)) /\
    Exponential.shoot_is_modified (state_of (Exponential.update e)) = false.
Proof.
  intros e.
  apply (X3_update_rk2_trajectories e (create_kernel_exact 1) 3
           origin_1d unit_momentum_1d);
    try reflexivity; try lia; cbn; lia.
Defined.

(* ------------------------------------------------------------------ *)
(** ** The flow of the template *)

Lemma flow_from_scheme k rk dt n :
  forall x cpt momt,
    (n < length cpt)%nat -> (n < length momt)%nat ->
    forall i xi cp mom cp' mom',
      nth_error (x :: flow_from k rk dt n x cpt momt) i = Some xi ->
      nth_error cpt i = Some cp ->
      nth_error momt i = Some mom ->
      nth_error cpt (Datatypes.S i) = Some cp' ->
      nth_error momt (Datatypes.S i) = Some mom' ->
      (Datatypes.S i < length (x :: flow_from k rk dt n x cpt momt))%nat ->
      nth_error (x :: flow_from k rk dt n x cpt momt) (Datatypes.S i)
      = Some (flow_next k rk dt xi cp mom cp' mom').
Proof.
  induction n as [|n IH]; intros x cpt momt Hlc Hlm i xi cp mom cp' mom'
                                 Hx Hc Hm Hc' Hm' Hlt.
  - cbn in Hlt. lia.
  - destruct cpt as [|cp0 cpt]; [cbn in Hlc; lia|].
    destruct momt as [|mom0 momt]; [cbn in Hlm; lia|].
    cbn [flow_from] in *.
    destruct i as [|i].
    + cbn in Hx, Hc, Hm. injection Hx as <-. injection Hc as <-.
      injection Hm as <-.
      cbn [nth_error] in Hc', Hm' |- *.
      destruct cpt as [|c1 cpt]; [discriminate|].
      destruct momt as [|m1 momt]; [discriminate|].
      cbn in Hc', Hm'. injection Hc' as <-. injection Hm' as <-.
      reflexivity.
    + cbn [nth_error] in Hx, Hc, Hm, Hc', Hm'.
      change (nth_error (?a :: ?l) (Datatypes.S ?j)) with (nth_error l j).
      apply (IH _ cpt momt); try assumption; cbn [length] in *; lia.
Qed.

Lemma nth_error_in_range {A : Type} (l : list A) (i : nat) :
  (i < length l)%nat -> exists x, nth_error l i = Some x.
Proof.
  intros H. destruct (nth_error l i) as [x|] eqn:E; [eauto|].
  apply nth_error_None in E. lia.
Qed.

Lemma flow_template_data_euler k T td cpt momt :
  (1 < T)%Z -> length cpt = Z.to_nat T -> length momt = Z.to_nat T ->
  euler_flow k (1 / IZR (T - 1)) (flow_template_data k false T td cpt momt)
             cpt momt.
Proof.
  intros HT Hlc Hlm i x cp mom Hx Hc Hm Hlt.
  pose proof (flow_template_data_length k false T td cpt momt HT Hlc Hlm) as Hl.
  destruct (nth_error_in_range cpt (Datatypes.S i)) as [cp' Hc']; [lia|].
  destruct (nth_error_in_range momt (Datatypes.S i)) as [mom' Hm']; [lia|].
  unfold flow_template_data in *.
  rewrite (flow_from_scheme k false (1 / IZR (T - 1)) (Z.to_nat (T - 1)) td
             cpt momt ltac:(lia) ltac:(lia) i x cp mom cp' mom'
             Hx Hc Hm Hc' Hm' Hlt).
  reflexivity.
Qed.

Lemma flow_template_data_heun k T td cpt momt :
  (1 < T)%Z -> length cpt = Z.to_nat T -> length momt = Z.to_nat T ->
  heun_flow k (1 / IZR (T - 1)) (flow_template_data k true T td cpt momt)
            cpt momt.
Proof.
  intros HT Hlc Hlm i x cp mom cp' mom' Hx Hc Hm Hc' Hm' Hlt.
  unfold flow_template_data in *.
  rewrite (flow_from_scheme k true (1 / IZR (T - 1)) (Z.to_nat (T - 1)) td
             cpt momt ltac:(lia) ltac:(lia) i x cp mom cp' mom'
             Hx Hc Hm Hc' Hm' Hlt).
  reflexivity.
Qed.

(** X4.  With template data set, [update] on a stale shoot also flows:
    it returns without a warning, clears both flags, and stores a template
    trajectory of exactly [number_of_time_points] snapshots that starts at
    the initial template data and follows, along the trajectories just
    shot, the Euler scheme [x' = x + dt K(x, cp_i, mom_i)] under the Euler
    policy and Heun's scheme, with the next control points and momenta in
    the corrector, under the RK2 policy. *)
Theorem X4_update_flows_template
    (e : Exponential.t) (k : Kernel) (T : Z) (cps mom td : tensor) :
  Exponential.kernel e = Some k ->
  Exponential.number_of_time_points e = Some T ->
  (2 <= T)%Z ->
  Exponential.initial_control_points e = Some cps ->
  (0 < len cps)%nat ->
  Exponential.initial_momenta e = Some mom ->
  (0 < len mom)%nat ->
  Exponential.initial_template_data e = Some td ->
  Exponential.shoot_is_modified e = true ->
  exists cpt momt tdl,
    outcome_of (Exponential.update e) = Ok tt /\
    warnings_of (Exponential.update e) = [] /\
    Exponential.control_points_t (state_of (Exponential.update e)) = Some cpt /\
    Exponential.momenta_t (state_of (Exponential.update e)) = Some momt /\
    Exponential.template_data_t (state_of (Exponential.update e)) = Some tdl /\
    Exponential.shoot_is_modified (state_of (Exponential.update e)) = false /\
    Exponential.flow_is_modified (state_of (Exponential.update e)) = false /\
    length tdl = Z.to_nat T /\
    nth_error tdl 0 = Some td /\
    (truthy (Exponential.use_rk2 e) = false ->
     euler_flow k (1 / IZR (T - 1)) tdl cpt momt) /\
    (truthy (Exponential.use_rk2 e) = true ->
     heun_flow k (1 / IZR (T - 1)) tdl cpt momt).
Proof.
  intros Hk HT H2 Hicp Hlc Himom Hlm Htd Hsm.
  destruct e as [k0 T0 icp cpt0 imom momt0 itd tdt0 sm fm rk ns ch].
  cbn in Hk, HT, Hicp, Himom, Htd, Hsm. subst k0 T0 icp imom sm itd.
  destruct (update_shoot_run k T cps cpt0 mom momt0 (Some td) tdt0 fm rk ns ch)
    as (w & Hrun & Hw); [lia | assumption | assumption |].
  rewrite (Hw ltac:(discriminate)) in Hrun. clear Hw.
  destruct (shoot_lengths k (truthy rk) T cps mom) as [H1 H2']; [lia|].
  exists (shoot_control_points k (truthy rk) T cps mom),
         (shoot_momenta k (truthy rk) T cps mom),
         (flow_template_data k (truthy rk) T td
            (shoot_control_points k (truthy rk) T cps mom)
            (shoot_momenta k (truthy rk) T cps mom)).
  rewrite Hrun. cbn [outcome_of state_of warnings_of fst snd]. exp_fields.
  repeat (split; [reflexivity|]).
  split; [apply flow_template_data_length; [lia | assumption | assumption]|].
  split; [reflexivity|].
  split; intros Hrk; rewrite Hrk in *.
  - apply flow_template_data_euler; [lia | assumption | assumption].
  - apply flow_template_data_heun; [lia | assumption | assumption].
Qed.

Lemma X4_update_flows_template_witness :
  exists cpt momt tdl,
    outcome_of (Exponential.update exponential_c10) = Ok tt /\
    warnings_of (Exponential.update exponential_c10) = [] /\
    Exponential.control_points_t (state_of (Exponential.update exponential_c10))
    = Some cpt /\
    Exponential.momenta_t (state_of (Exponential.update exponential_c10))
    = Some momt /\
    Exponential.template_data_t (state_of (Exponential.update exponential_c10))
    = Some tdl /\
    Exponential.shoot_is_modified (state_of (Exponential.update exponential_c10))
    = false /\
    Exponential.flow_is_modified (state_of (Exponential.update exponential_c10))
    = false /\
    length tdl = Z.to_nat 2 /\
    nth_error tdl 0 = Some (Mat [[0]]) /\
    (truthy (Exponential.use_rk2 exponential_c10) = false ->
     euler_flow (create_kernel_exact 1) (1 / IZR (2 - 1)) tdl cpt momt) /\
    (truthy (Exponential.use_rk2 exponential_c10) = true ->
     heun_flow (create_kernel_exact 1) (1 / IZR (2 - 1)) tdl cpt momt).
Proof.
  apply (X4_update_flows_template exponential_c10 (create_kernel_exact 1) 2
           origin_1d unit_momentum_1d (Mat [[0]]));
    try reflexivity; try lia; cbn; lia.
Defined.

(* ------------------------------------------------------------------ *)
(** ** Reading the template trajectory *)

Lemma py_index_run (S A : Type) (l : list A) (i : Z) (s : S) :
  let n := Z.of_nat (length l) in
  ((0 <= i < n)%Z ->
   exists x, nth_error l (Z.to_nat i) = Some x /\ py_index l i s = (Ok x, s, [])) /\
  ((- n <= i < 0)%Z ->
   exists x, nth_error l (Z.to_nat (n + i)) = Some x /\
             py_index l i s = (Ok x, s, [])) /\
  ((n <= i \/ i < - n)%Z -> py_index l i s = (Raise IndexError, s, [])).
Proof.
  intros n. unfold py_index. fold n.
  split; [|split].
  - intros Hi.
    destruct (nth_error_in_range l (Z.to_nat i)) as [x Hx]; [lia|].
    exists x. split; [exact Hx|].
    destruct (Z.ltb_spec i 0); [lia|].
    destruct (Z.ltb_spec i 0); [lia|].
    rewrite Hx. reflexivity.
  - intros Hi.
    destruct (nth_error_in_range l (Z.to_nat (n + i))) as [x Hx]; [lia|].
    exists x. split; [exact Hx|].
    destruct (Z.ltb_spec i 0); [|lia].
    destruct (Z.ltb_spec (n + i) 0); [lia|].
    rewrite Hx. reflexivity.
  - intros Hi.
    destruct (Z.ltb_spec i 0).
    + destruct (Z.ltb_spec (n + i) 0); [reflexivity|]. lia.
    + destruct (Z.ltb_spec i 0); [lia|].
      assert (Hn : nth_error l (Z.to_nat i) = None)
        by (apply nth_error_None; lia).
      rewrite Hn. reflexivity.
Qed.

(** X5.  On an exponential whose flow is up to date, [get_template_data]
    indexes the template trajectory as a Python list: an index from [0] to
    [len - 1] counts from the start, one from [-len] to [-1] counts from
    the end, any other raises an [IndexError], and no index at all reads
    the last snapshot.  The object is left as it was and nothing is
    logged. *)
Theorem X5_get_template_data_index
    (e : Exponential.t) (tdl : list tensor) (i : Z) :
  Exponential.flow_is_modified e = false ->
  Exponential.template_data_t e = Some tdl ->
  let n := Z.of_nat (length tdl) in
  ((0 <= i < n)%Z ->
   exists x, nth_error tdl (Z.to_nat i) = Some x /\
             Exponential.get_template_data (Some i) e = (Ok x, e, [])) /\
  ((- n <= i < 0)%Z ->
   exists x, nth_error tdl (Z.to_nat (n + i)) = Some x /\
             Exponential.get_template_data (Some i) e = (Ok x, e, [])) /\
  ((n <= i \/ i < - n)%Z ->
   Exponential.get_template_data (Some i) e = (Raise IndexError, e, [])) /\
  Exponential.get_template_data None e
  = Exponential.get_template_data (Some (-1)%Z) e.
Proof.
  intros Hfm Htd n.
  destruct e as [k T icp cpt imom momt itd tdt sm fm rk ns ch].
  cbn in Hfm, Htd. subst fm tdt.
  set (e := Exponential.Build_t k T icp cpt imom momt itd (Some tdl) sm false
                                rk ns ch).
  assert (Hget : forall j, Exponential.get_template_data (Some j) e
                           = py_index tdl j e).
  { intros j. unfold Exponential.get_template_data, e.
    py_unfold. exp_fields.
    destruct (py_index tdl j _) as [[r s] w]. reflexivity. }
  destruct (py_index_run Exponential.t tensor tdl i e) as (H1 & H2 & H3).
  fold n in H1, H2, H3.
  rewrite Hget.
  split; [exact H1|]. split; [exact H2|]. split; [exact H3|].
  unfold Exponential.get_template_data. reflexivity.
Qed.

Lemma X5_get_template_data_index_witness :
  let e := Exponential.with_template_data_t (Some [Mat [[0]]; Mat [[1]]])
             (Exponential.with_flow_is_modified false Exponential.init) in
  (exists x, nth_error [Mat [[0]]; Mat [[1]]] (Z.to_nat (2 + -1)) = Some x /\
             Exponential.get_template_data (Some (-1)%Z) e = (Ok x, e, [])) /\
  Exponential.get_template_data (Some 2%Z) e = (Raise IndexError, e, []).
Proof.
  intros e.
  destruct (X5_get_template_data_index e [Mat [[0]]; Mat [[1]]] (-1)
              eq_refl eq_refl) as (_ & H2 & _ & _).
  destruct (X5_get_template_data_index e [Mat [[0]]; Mat [[1]]] 2
              eq_refl eq_refl) as (_ & _ & H3 & _).
  split.
  - apply H2. cbn. lia.
  - apply H3. cbn. lia.
Defined.

(* ------------------------------------------------------------------ *)
(** ** Updates that have nothing to do *)

(** X6.  Without template data [update] on a stale shoot shoots only: it
    returns, clears the shoot flag and leaves the flow flag and the template
    trajectory as they were, logging that there is nothing to flow once for
    the shoot and once more when the flow flag is up; the template can then
    not be read while the flow flag is up. *)
Theorem X6_update_without_template
    (e : Exponential.t) (k : Kernel) (T : Z) (cps mom : tensor) :
  Exponential.kernel e = Some k ->
  Exponential.number_of_time_points e = Some T ->
  (2 <= T)%Z ->
  Exponential.initial_control_points e = Some cps ->
  (0 < len cps)%nat ->
  Exponential.initial_momenta e = Some mom ->
  (0 < len mom)%nat ->
  Exponential.initial_template_data e = None ->
  Exponential.shoot_is_modified e = true ->
  let r := Exponential.update e in
  outcome_of r = Ok tt /\
  warnings_of r
  = NothingToFlow
      :: (if Exponential.flow_is_modified e then [NothingToFlow] else []) /\
  Exponential.shoot_is_modified (state_of r) = false /\
  Exponential.flow_is_modified (state_of r) = Exponential.flow_is_modified e /\
  Exponential.template_data_t (state_of r) = Exponential.template_data_t e /\
  (Exponential.flow_is_modified e = true ->
   forall time_index,
     outcome_of (Exponential.get_template_data time_index (state_of r))
     = Raise AssertionError).
Proof.
  intros Hk HT H2 Hicp Hlc Himom Hlm Htd Hsm r. subst r.
  destruct e as [k0 T0 icp cpt0 imom momt0 itd tdt0 sm fm rk ns ch].
  cbn in Hk, HT, Hicp, Himom, Htd, Hsm. subst k0 T0 icp imom sm itd.
  assert (HT0 : (0 <? T)%Z = true) by (apply Z.ltb_lt; lia).
  assert (Hrun :
    Exponential.update
      (Exponential.Build_t (Some k) (Some T) (Some cps) cpt0 (Some mom) momt0
                           None tdt0 true fm rk ns ch)
    = (Ok tt,
       Exponential.Build_t (Some k) (Some T) (Some cps)
         (Some (shoot_control_points k (truthy rk) T cps mom)) (Some mom)
         (Some (shoot_momenta k (truthy rk) T cps mom)) None tdt0 false fm rk
         (Some (dot mom (convolve k cps cps mom))) [],
       NothingToFlow :: (if fm then [NothingToFlow] else []))).
  { unfold Exponential.update, Exponential.time_points,
      Exponential.flow_if_template.
    py_unfold. exp_fields. rewrite HT0. exp_fields.
    rewrite shoot_run by (assumption || lia). exp_fields. cbn [is_some]. cbv iota.
    destruct fm; reflexivity. }
  rewrite Hrun. cbn [outcome_of state_of warnings_of fst snd]. exp_fields.
  repeat (split; [reflexivity|]).
  intros -> time_index. reflexivity.
Qed.

Lemma X6_update_without_template_witness :
  let r := Exponential.update exponential_c7 in
  outcome_of r = Ok tt /\
  warnings_of r = [NothingToFlow; NothingToFlow] /\
  outcome_of (Exponential.get_template_data None (state_of r))
  = Raise AssertionError.
Proof.
  intros r.
  destruct (X6_update_without_template exponential_c7 (create_kernel_exact 1) 2
              (Mat [[0; 0]]) (Mat [[1; 0]]))
    as (H1 & H2 & _ & _ & _ & H6);
    try reflexivity; try lia; try (cbn; lia).
  split; [exact H1|]. split; [exact H2|].
  apply H6. reflexivity.
Defined.

(** X7.  With both flags down and a positive number of time points
    [update] does nothing at all, whatever else was assigned since the last
    shoot: in particular a kernel replaced through [set_kernel], which
    raises no flag, is not taken into account, and the trajectories, the
    norm and the store of factors stay those of the former kernel. *)
Theorem X7_update_ignores_new_kernel
    (e : Exponential.t) (T : Z) (k' : option Kernel) :
  Exponential.number_of_time_points e = Some T -> (0 < T)%Z ->
  Exponential.shoot_is_modified e = false ->
  Exponential.flow_is_modified e = false ->
  Exponential.update e = (Ok tt, e, []) /\
  (Exponential.set_kernel k' ;; Exponential.update) e
  = (Ok tt, Exponential.with_kernel k' e, []).
Proof.
  intros HT Hpos Hsm Hfm.
  destruct e as [k T0 icp cpt0 imom momt0 itd tdt0 sm fm rk ns ch].
  cbn in HT, Hsm, Hfm. subst T0 sm fm.
  assert (HT0 : (0 <? T)%Z = true) by (apply Z.ltb_lt; lia).
  split.
  - unfold Exponential.update, Exponential.time_points.
    py_unfold. exp_fields. rewrite HT0. reflexivity.
  - unfold Exponential.set_kernel, Exponential.update, Exponential.time_points.
    py_unfold. exp_fields. rewrite HT0. reflexivity.
Qed.

Lemma X7_update_ignores_new_kernel_witness :
  let e := snd (run Exponential.update exponential_c10) in
  (Exponential.set_kernel (Some (create_kernel_exact 2)) ;; Exponential.update) e
  = (Ok tt, Exponential.with_kernel (Some (create_kernel_exact 2)) e, []).
Proof.
  cbv zeta. unfold exponential_c10.
  rewrite exponential_with_update; [ | lia | cbn; lia | cbn; lia].
  cbn [snd].
  match goal with
  | |- _ = (_, Exponential.with_kernel _ ?e, _) =>
      exact (proj2 (X7_update_ignores_new_kernel e 2
                      (Some (create_kernel_exact 2)) eq_refl eq_refl
                      eq_refl eq_refl))
  end.
Defined.

(* ------------------------------------------------------------------ *)
(** ** The trajectory of a parallel transport *)

Lemma tangential_loop (sp : R) (pt momt : list tensor) (n : nat) :
  forall (i : nat) (s : Exponential.t) (acc : list tensor),
    Exponential.momenta_t s = Some momt ->
    (i + n <= length pt)%nat ->
    (i + n <= length momt)%nat ->
    run (for_loop (Exponential.add_tangential sp pt) i n acc) s
    = (Ok (acc ++ firstn n (zip_with (fun x m => tadd x (smul sp m))
                                     (skipn i pt) (skipn i momt))),
       s).
Proof.
  induction n as [|n IH]; intros i s acc Hm Hp Hl.
  - cbn [for_loop firstn]. rewrite app_nil_r. reflexivity.
  - destruct (nth_error_in_range pt i) as [x Hx]; [lia|].
    destruct (nth_error_in_range momt i) as [m Hmi]; [lia|].
    cbn [for_loop].
    erewrite run_bind.
    2:{ unfold Exponential.add_tangential.
        erewrite run_bind by (apply run_py_index_nat; exact Hx).
        erewrite run_bind.
        2:{ unfold Exponential.momenta_at.
            erewrite run_bind by reflexivity.
            rewrite Hm.
            erewrite run_bind by reflexivity.
            apply run_py_index_nat. exact Hmi. }
        reflexivity. }
    rewrite IH by (assumption || lia).
    rewrite (skipn_nth_error pt i x Hx), (skipn_nth_error momt i m Hmi).
    cbn [zip_with firstn]. rewrite <- app_assoc. reflexivity.
Qed.

Lemma firstn_zip_with_all {A B C : Type} (f : A -> B -> C) (l1 : list A)
    (l2 : list B) (n : nat) :
  length l1 = n -> length l2 = n -> firstn n (zip_with f l1 l2) = zip_with f l1 l2.
Proof.
  revert l2 n. induction l1 as [|a l1 IH]; intros l2 n H1 H2.
  - cbn. destruct n; reflexivity.
  - destruct l2 as [|b l2]; [cbn in *; subst; discriminate|].
    destruct n as [|n]; [discriminate|].
    cbn [zip_with firstn]. f_equal. apply IH; cbn in *; lia.
Qed.

Lemma zip_with_same_length {A B C : Type} (f : A -> B -> C) (l1 : list A)
    (l2 : list B) :
  length l1 = length l2 -> length (zip_with f l1 l2) = length l1.
Proof.
  revert l2. induction l1 as [|a l1 IH]; intros l2 H; [reflexivity|].
  destruct l2 as [|b l2]; [discriminate|].
  cbn [zip_with length]. f_equal. apply IH. cbn in H. lia.
Qed.

Lemma cache_with_cache (c : list tensor) (s : Exponential.t) :
  Exponential.cholesky_kernel_matrices
    (Exponential.with_cholesky_kernel_matrices c s) = c.
Proof. destruct s. reflexivity. Qed.

Lemma with_cache_twice (c : list tensor) (s : Exponential.t) :
  Exponential.with_cholesky_kernel_matrices c s
  = Exponential.with_cholesky_kernel_matrices
      (Exponential.cholesky_kernel_matrices
         (Exponential.with_cholesky_kernel_matrices c s)) s.
Proof. destruct s. reflexivity. Qed.

Section TransportTrajectory.

Variables (e : Exponential.t) (k : Kernel) (T : Z) (cpt momt : list tensor).
Variables (ns : R) (icp imom v : tensor).

Let exact := create_kernel_exact (kernel_width k).
Let h := 1 / (IZR T - 1).
Let sp := dot v (convolve exact icp icp imom) / ns.
Let vo := tsub v (smul sp imom).
Let initial_norm := dot vo (convolve exact icp icp vo).

Hypothesis Hk : Exponential.kernel e = Some k.
Hypothesis HT : Exponential.number_of_time_points e = Some T.
Hypothesis H1 : (1 < T)%Z.
Hypothesis Hcpt : Exponential.control_points_t e = Some cpt.
Hypothesis Hmomt : Exponential.momenta_t e = Some momt.
Hypothesis Hlc : length cpt = Z.to_nat T.
Hypothesis Hlm : length momt = Z.to_nat T.
Hypothesis Hsm : Exponential.shoot_is_modified e = false.
Hypothesis Hns : Exponential.norm_squared e = Some ns.
Hypothesis Hicp : Exponential.initial_control_points e = Some icp.
Hypothesis Himom : Exponential.initial_momenta e = Some imom.
Hypothesis Hsize : size_eqb (size v) (size imom) = true.
Hypothesis Horth : dot vo (convolve exact icp icp imom) / ns < 1e-5.
Hypothesis Hch : Exponential.cholesky_kernel_matrices e = [].
Hypothesis Hns0 : ns <> 0.
Hypothesis Hfresh :
  fresh_defined k exact h h initial_norm ns (Z.to_nat (T - 1)) vo cpt momt.
Hypothesis Hcached :
  cached_defined k exact h h initial_norm ns (Z.to_nat (T - 1)) vo cpt momt
                 (fresh_factors exact (Z.to_nat (T - 1)) cpt).

Lemma transport_ready_here : transport_ready k T cpt momt ns e.
Proof. repeat split; assumption. Qed.

(** X8.  On an exponential whose shoot is up to date and whose store of
    Cholesky factors is empty, with a kernel of a width other than zero,
    take a [parallel_transport] that passes its two assertions and stays
    within the real numbers: [norm_squared] is not zero, every kernel matrix
    is positive definite, so that [torch.potrf] returns, and no step
    renormalizes a vector of norm zero, with the factors computed as with
    the factors stored.  It returns one vector per
    time point, the first being the input less its component along the
    initial momenta; it changes the object only by storing one factor per
    step, [number_of_time_points - 1] in all, and a second call with the
    same input again returns one vector per time point, the first as
    before, and leaves the object as it found it. *)
Theorem X8_parallel_transport_trajectory :
  kernel_width k <> 0 ->
  exists pt pt' e1,
    run (Exponential.parallel_transport v false) e = (Ok pt, e1) /\
    length pt = Z.to_nat T /\
    nth_error pt 0 = Some vo /\
    e1 = Exponential.with_cholesky_kernel_matrices
           (Exponential.cholesky_kernel_matrices e1) e /\
    length (Exponential.cholesky_kernel_matrices e1) = Z.to_nat (T - 1) /\
    run (Exponential.parallel_transport v false) e1 = (Ok pt', e1) /\
    length pt' = Z.to_nat T /\
    nth_error pt' 0 = Some vo.
Proof.
  intros _.
  pose proof transport_ready_here as Hr.
  assert (Hlf : length (fresh_factors exact (Z.to_nat (T - 1)) cpt)
                = Z.to_nat (T - 1))
    by (apply fresh_factors_length; lia).
  do 3 eexists.
  split.
  { apply (parallel_transport_fresh k T cpt momt ns icp imom v H1 Hlc Hlm
             Hsize Horth Hns0 e Hr Hicp Himom Hch Hfresh). }
  split.
  { cbn [length]. rewrite transport_fresh_length; lia. }
  split; [reflexivity|].
  split; [apply with_cache_twice|].
  split; [rewrite cache_with_cache; exact Hlf|].
  split.
  { apply (parallel_transport_cached k T cpt momt ns icp imom v H1 Hlc Hlm
             Hsize Horth Hns0).
    - apply (ready_with_cache k T cpt momt ns). exact Hr.
    - rewrite <- Hicp. destruct e; reflexivity.
    - rewrite <- Himom. destruct e; reflexivity.
    - rewrite cache_with_cache. unfold exact in *. rewrite Hlf. lia.
    - rewrite cache_with_cache. exact Hcached. }
  split; [|reflexivity].
  cbn [length]. rewrite transport_cached_length; try lia.
  rewrite cache_with_cache. unfold exact in *. rewrite Hlf. lia.
Qed.

(** X9.  Under the same conditions on the first call, with
    [with_tangential_component] the same transport is computed and stored,
    and the initial component is added back to every entry with the momenta
    of the geodesic at that time: entry [i] of the result is entry [i] of
    the transport without tangential component plus [sp * momenta_t[i]]. *)
Theorem X9_parallel_transport_tangential :
  kernel_width k <> 0 ->
  exists pt e1,
    run (Exponential.parallel_transport v false) e = (Ok pt, e1) /\
    run (Exponential.parallel_transport v true) e
    = (Ok (zip_with (fun x m => tadd x (smul sp m)) pt momt), e1) /\
    length (zip_with (fun x m => tadd x (smul sp m)) pt momt) = Z.to_nat T.
Proof.
  intros _.
  pose proof transport_ready_here as Hr.
  set (pt := vo :: transport_fresh k exact h h initial_norm ns (Z.to_nat (T - 1))
                     vo cpt momt).
  assert (Hlp : length pt = Z.to_nat T).
  { unfold pt. cbn [length]. rewrite transport_fresh_length; lia. }
  exists pt,
    (Exponential.with_cholesky_kernel_matrices
       (fresh_factors exact (Z.to_nat (T - 1)) cpt) e).
  split.
  { apply (parallel_transport_fresh k T cpt momt ns icp imom v H1 Hlc Hlm
             Hsize Horth Hns0 e Hr Hicp Himom Hch Hfresh). }
  split.
  - rewrite (transport_prologue k T cpt momt ns icp imom v H1 Hlc Hlm
               Hsize Horth Hns0 e true Hr Hicp Himom).
    unfold for_range.
    erewrite run_bind.
    2:{ apply (transport_loop_fresh k exact T cpt momt h h initial_norm ns
                 (Z.to_nat (T - 1)) 0%nat e [] vo Hr);
          [rewrite Hch; cbn; lia | lia | lia | exact Hfresh]. }
    rewrite Hch. cbn [app skipn]. fold pt.
    erewrite run_bind by reflexivity.
    change (state_of (get ?s)) with s. fold exact. fold sp.
    assert (Hm' : Exponential.momenta_t
                    (Exponential.with_cholesky_kernel_matrices
                       (fresh_factors exact (Z.to_nat (T - 1)) cpt) e)
                  = Some momt) by (destruct e; exact Hmomt).
    rewrite Hm'.
    erewrite run_bind by reflexivity.
    assert (Hl : (length pt =? length momt)%nat = true)
      by (apply Nat.eqb_eq; lia).
    rewrite Hl. erewrite run_bind by reflexivity.
    change (state_of (assert true (state_of (require TypeError (Some momt) ?s))))
      with s.
    rewrite (tangential_loop sp pt momt (Z.to_nat T) 0%nat _ [] Hm')
      by (rewrite ?Hlp, ?Hlm; lia).
    cbn [app skipn].
    rewrite firstn_zip_with_all by assumption. reflexivity.
  - rewrite zip_with_same_length; lia.
Qed.

End TransportTrajectory.

Lemma X8_parallel_transport_trajectory_witness :
  exists pt e1,
    run (Exponential.parallel_transport momenta_to_transport_c2 false)
        (snd (run Exponential.update exponential_c2)) = (Ok pt, e1) /\
    length pt = 2%nat /\
    length (Exponential.cholesky_kernel_matrices e1) = 1%nat.
Proof.
  unfold exponential_c2.
  rewrite exponential_with_update by (cbn; lia). cbn [snd].
  destruct c2_orthogonal as (_ & _ & _ & Horth).
  destruct c2_defined as (Hn0 & Hdf & Hdc).
  match goal with
  | |- context [run _ ?e] =>
      destruct (X8_parallel_transport_trajectory e (create_kernel_exact 1) 2
                  (shoot_control_points (create_kernel_exact 1) false 2
                     control_points_c2 momenta_c2)
                  (shoot_momenta (create_kernel_exact 1) false 2
                     control_points_c2 momenta_c2)
                  (dot momenta_c2
                       (convolve (create_kernel_exact 1) control_points_c2
                                 control_points_c2 momenta_c2))
                  control_points_c2 momenta_c2 momenta_to_transport_c2)
        as (pt & pt' & e1 & Hrun & Hl & _ & _ & Hc & _)
  end;
    try reflexivity; try lia;
    try exact Horth; try exact Hn0; try exact Hdf; try exact Hdc;
    try (cbn; lra).
  exists pt, e1. split; [exact Hrun|]. split; [exact Hl | exact Hc].
Defined.

Lemma X9_parallel_transport_tangential_witness :
  exists pt pt' e1,
    run (Exponential.parallel_transport momenta_to_transport_c2 false)
        (snd (run Exponential.update exponential_c2)) = (Ok pt, e1) /\
    run (Exponential.parallel_transport momenta_to_transport_c2 true)
        (snd (run Exponential.update exponential_c2)) = (Ok pt', e1) /\
    length pt' = 2%nat.
Proof.
  unfold exponential_c2.
  rewrite exponential_with_update by (cbn; lia). cbn [snd].
  destruct c2_orthogonal as (_ & _ & _ & Horth).
  destruct c2_defined as (Hn0 & Hdf & _).
  match goal with
  | |- context [run _ ?e] =>
      destruct (X9_parallel_transport_tangential e (create_kernel_exact 1) 2
                  (shoot_control_points (create_kernel_exact 1) false 2
                     control_points_c2 momenta_c2)
                  (shoot_momenta (create_kernel_exact 1) false 2
                     control_points_c2 momenta_c2)
                  (dot momenta_c2
                       (convolve (create_kernel_exact 1) control_points_c2
                                 control_points_c2 momenta_c2))
                  control_points_c2 momenta_c2 momenta_to_transport_c2)
        as (pt & e1 & Hrun & Hrun' & Hl)
  end;
    try reflexivity; try lia;
    try exact Horth; try exact Hn0; try exact Hdf;
    try (cbn; lra).
  eexists pt, _, e1. split; [exact Hrun|]. split; [exact Hrun' | exact Hl].
Defined.

(* ================================================================== *)
(** * Further properties of the geodesic *)
(* ================================================================== *)

Lemma Rleb_false (x y : R) : y < x -> Rleb x y = false.
Proof.
  intros H. unfold Rleb. destruct (Rle_dec x y); [lra | reflexivity].
Qed.

(** X10.  The geodesic checks its times by assertion: [update] raises an
    [AssertionError] when the reference time lies outside [[tmin, tmax]],
    and [get_template_data] raises one when the time asked for does; in
    both cases the geodesic and its two exponentials are left as they were
    and nothing is logged. *)
Theorem X10_geodesic_time_bounds
    (g : Geodesic.t) (a lo hi time : R) :
  Geodesic.t0 g = Some a ->
  Geodesic.tmin g = Some lo ->
  Geodesic.tmax g = Some hi ->
  (a < lo \/ hi < a -> Geodesic.update g = (Raise AssertionError, g, [])) /\
  (time < lo \/ hi < time ->
   Geodesic.get_template_data time g = (Raise AssertionError, g, [])).
Proof.
  intros Ha Hlo Hhi.
  destruct g as [c a0 hi0 lo0 cps mom td be fe sm fm].
  cbn in Ha, Hlo, Hhi. subst a0 lo0 hi0.
  split; intros H.
  - unfold Geodesic.update. py_unfold.
    cbn [Geodesic.t0 Geodesic.tmin Geodesic.tmax].
    destruct (Rle_dec lo a) as [Hle|Hnle].
    + rewrite (Rleb_true lo a Hle).
      rewrite (Rleb_false a hi) by lra. reflexivity.
    + rewrite (Rleb_false lo a) by lra. reflexivity.
  - unfold Geodesic.get_template_data, Geodesic.get_template_data_with_index.
    py_unfold. cbn [Geodesic.tmin Geodesic.tmax].
    destruct (Rle_dec lo time) as [Hle|Hnle].
    + rewrite (Rleb_true lo time Hle).
      rewrite (Rleb_false time hi) by lra. reflexivity.
    + rewrite (Rleb_false lo time) by lra. reflexivity.
Qed.

Lemma X10_geodesic_time_bounds_witness :
  let g := geodesic_with (create_kernel_exact 1) 1 0 1 2 origin_1d
                         unit_momentum_1d None in
  Geodesic.update g = (Raise AssertionError, g, []) /\
  Geodesic.get_template_data 3 g = (Raise AssertionError, g, []).
Proof.
  intros g.
  destruct (X10_geodesic_time_bounds g 0 1 2 3 eq_refl eq_refl eq_refl)
    as [H1 H2].
  split; [apply H1 | apply H2]; lra.
Defined.

(* ------------------------------------------------------------------ *)
(** ** The spliced trajectories *)

Lemma run_get_times (g : Geodesic.t) (a lo hi : R) (nb nf : Z) :
  Geodesic.t0 g = Some a ->
  Geodesic.tmin g = Some lo ->
  Geodesic.tmax g = Some hi ->
  backward_points g = Some nb ->
  forward_points g = Some nf ->
  run Geodesic._get_times g
  = (Ok (rev (if (1 <? nb)%Z then linspace a lo (Z.to_nat nb) else [])
           ++ tl (if (1 <? nf)%Z then linspace a hi (Z.to_nat nf) else [])),
     g).
Proof.
  intros Ha Hlo Hhi Hb Hf.
  destruct g as [c a0 hi0 lo0 cps mom td be fe sm fm].
  unfold backward_points, forward_points in Hb, Hf.
  cbn in Ha, Hlo, Hhi, Hb, Hf. subst a0 lo0 hi0.
  unfold Geodesic._get_times, Geodesic.more_than_one_point, run.
  py_unfold.
  cbn [Geodesic.t0 Geodesic.tmin Geodesic.tmax Geodesic.backward_exponential
       Geodesic.forward_exponential].
  rewrite Hb, Hf.
  destruct (1 <? nb)%Z; destruct (1 <? nf)%Z; reflexivity.
Qed.

Lemma run_get_template_trajectory (g : Geodesic.t) (nb nf : Z)
    (bt ft : list tensor) :
  backward_points g = Some nb ->
  forward_points g = Some nf ->
  ((1 < nb)%Z ->
   Exponential.template_data_t (Geodesic.backward_exponential g) = Some bt) ->
  ((1 < nf)%Z ->
   Exponential.template_data_t (Geodesic.forward_exponential g) = Some ft) ->
  run Geodesic._get_template_trajectory g
  = (Ok (rev (if (1 <? nb)%Z then bt else [])
           ++ tl (if (1 <? nf)%Z then ft else [])),
     g).
Proof.
  intros Hb Hf Hbt Hft.
  destruct g as [c a0 hi0 lo0 cps mom td be fe sm fm].
  unfold backward_points, forward_points in Hb, Hf.
  cbn in Hb, Hf, Hbt, Hft.
  unfold Geodesic._get_template_trajectory, Geodesic.more_than_one_point, run.
  py_unfold.
  cbn [Geodesic.shoot_is_modified Geodesic.flow_is_modified
       Geodesic.backward_exponential Geodesic.forward_exponential].
  rewrite Hb, Hf.
  destruct (Z.ltb_spec 1 nb) as [H1|H1]; destruct (Z.ltb_spec 1 nf) as [H2|H2];
    rewrite ?(Hbt H1), ?(Hft H2); destruct (sm || fm); reflexivity.
Qed.



(* ------------------------------------------------------------------ *)
(** ** The reference time in the spliced trajectories *)

Lemma argmin_from_keep (l : list R) :
  forall best_i best i,
    (forall x, In x l -> best <= x) ->
    argmin_from best_i best i l = best_i.
Proof.
  induction l as [|x l IH]; intros best_i best i H; [reflexivity|].
  cbn [argmin_from].
  destruct (Rlt_dec x best) as [Hlt|_].
  - pose proof (H x (or_introl eq_refl)). lra.
  - apply IH. intros y Hy. apply H. right. exact Hy.
Qed.

Lemma argmin_from_split (before after : list R) (v : R) :
  (forall x, In x before -> v < x) ->
  (forall x, In x after -> v < x) ->
  forall best_i best i,
    v < best ->
    argmin_from best_i best i (before ++ v :: after) = (i + length before)%nat.
Proof.
  intros Hb Ha.
  induction before as [|x before IH]; intros best_i best i Hv.
  - cbn [app argmin_from length].
    destruct (Rlt_dec v best) as [_|Hn]; [|contradiction].
    rewrite argmin_from_keep; [lia|].
    intros y Hy. apply Rlt_le. apply Ha. exact Hy.
  - cbn [app argmin_from length].
    assert (Hx : v < x) by (apply Hb; left; reflexivity).
    assert (Hb' : forall y, In y before -> v < y)
      by (intros y Hy; apply Hb; right; exact Hy).
    destruct (Rlt_dec x best); rewrite (IH Hb'); try assumption; lia.
Qed.

(** The index [torch.min] selects when one entry is below all others. *)
Lemma argmin_split (before after : list R) (v : R) :
  (forall x, In x before -> v < x) ->
  (forall x, In x after -> v < x) ->
  argmin (before ++ v :: after) = Some (length before).
Proof.
  intros Hb Ha. destruct before as [|x before].
  - cbn [app argmin length]. f_equal. apply argmin_from_keep.
    intros y Hy. apply Rlt_le. apply Ha. exact Hy.
  - cbn [app argmin length]. f_equal.
    rewrite (argmin_from_split before after v).
    + reflexivity.
    + intros y Hy. apply Hb. right. exact Hy.
    + exact Ha.
    + apply Hb. left. reflexivity.
Qed.

(** [linspace] with at least two samples: the start, the inner samples
    and the stop. *)
Lemma linspace_split (start stop : R) (n : nat) :
  linspace start stop (Datatypes.S (Datatypes.S n))
  = (INR 0 * ((stop - start) / INR (Datatypes.S n)) + start)
      :: map (fun i => INR i * ((stop - start) / INR (Datatypes.S n)) + start)
             (seq 1 n)
      ++ [stop].
Proof. reflexivity. Qed.

Lemma linspace_length (start stop : R) (n : nat) :
  length (linspace start stop n) = n.
Proof.
  destruct n as [|[|n]]; [reflexivity | reflexivity |].
  rewrite linspace_split. cbn [length].
  rewrite length_app, length_map, length_seq. cbn [length]. lia.
Qed.

(** Every sample of [linspace] after the first lies strictly on the side
    of the stop. *)
Lemma linspace_tail_away (start stop : R) (n : nat) (x : R) :
  start <> stop ->
  In x (tl (linspace start stop n)) ->
  0 < (x - start) * (x - start).
Proof.
  intros Hne Hin.
  destruct n as [|[|n]]; [contradiction | contradiction |].
  rewrite linspace_split in Hin. cbn [tl] in Hin.
  assert (Hx : x <> start).
  { apply in_app_or in Hin. destruct Hin as [Hin|[<-|[]]].
    - apply in_map_iff in Hin. destruct Hin as (i & <- & Hi).
      apply in_seq in Hi.
      assert (Hi1 : 1 <= INR i) by (apply (le_INR 1); lia).
      assert (Hn : 0 < INR (Datatypes.S n)) by (apply lt_0_INR; lia).
      intros Heq.
      assert (Hz : INR i * ((stop - start) / INR (Datatypes.S n)) = 0) by lra.
      apply Rmult_integral in Hz. destruct Hz as [Hz|Hz]; [lra|].
      unfold Rdiv in Hz. apply Rmult_integral in Hz.
      destruct Hz as [Hz|Hz]; [lra|].
      apply Rinv_neq_0_compat in Hz; [exact Hz | lra].
    - intros Heq. apply Hne. symmetry. exact Heq. }
  assert (Hd : x - start <> 0) by lra.
  destruct (Rtotal_order (x - start) 0) as [H|[H|H]]; [nra | contradiction | nra].
Qed.

(** The times of a geodesic whose backward side has more than one time
    point: the reversed backward samples without the reference time, the
    reference time, and the forward samples without it. *)
Lemma spliced_times (a lo hi : R) (nb : nat) (fwd : list R) :
  rev (linspace a lo (Datatypes.S (Datatypes.S nb))) ++ tl fwd
  = rev (tl (linspace a lo (Datatypes.S (Datatypes.S nb))))
      ++ (INR 0 * ((lo - a) / INR (Datatypes.S nb)) + a) :: tl fwd.
Proof.
  rewrite linspace_split. cbn [tl rev].
  rewrite <- app_assoc. reflexivity.
Qed.

Lemma argmin_spliced_times (a lo hi : R) (nb : nat) (fwd : list R) :
  a <> lo ->
  (forall x, In x (tl fwd) -> 0 < (x - a) * (x - a)) ->
  argmin (map (fun x => (x - a) * (x - a))
              (rev (linspace a lo (Datatypes.S (Datatypes.S nb))) ++ tl fwd))
  = Some (Datatypes.S nb).
Proof.
  intros Hne Hfwd.
  rewrite (spliced_times a lo hi). rewrite map_app. cbn [map].
  set (v := (INR 0 * ((lo - a) / INR (Datatypes.S nb)) + a - a)
            * (INR 0 * ((lo - a) / INR (Datatypes.S nb)) + a - a)).
  assert (Hv : v = 0) by (unfold v; cbn [INR]; ring).
  rewrite argmin_split.
  - rewrite length_map, length_rev.
    f_equal.
    pose proof (linspace_length a lo (Datatypes.S (Datatypes.S nb))) as Hl.
    destruct (linspace a lo (Datatypes.S (Datatypes.S nb))); cbn in *; lia.
  - intros y Hy. rewrite Hv.
    apply in_map_iff in Hy. destruct Hy as (x & <- & Hx).
    apply in_rev in Hx.
    apply (linspace_tail_away a lo (Datatypes.S (Datatypes.S nb)) x Hne Hx).
  - intros y Hy. rewrite Hv.
    apply in_map_iff in Hy. destruct Hy as (x & <- & Hx).
    apply Hfwd. exact Hx.
Qed.

Lemma nth_error_rev_first {A : Type} (x : A) (l l' : list A) :
  nth_error (rev (x :: l) ++ l') (length l) = Some x.
Proof.
  cbn [rev]. rewrite <- app_assoc.
  rewrite nth_error_app2 by (rewrite length_rev; lia).
  rewrite length_rev, Nat.sub_diag. reflexivity.
Qed.

(** More than one time point on a side means that the side spans at least
    half a time step, hence some time. *)
Lemma more_points_span (delta_t c : R) :
  (1 < Geodesic.number_of_points delta_t c)%Z -> 1 / 2 <= delta_t * c.
Proof.
  unfold Geodesic.number_of_points, py_int. intros H.
  destruct (Rle_dec 0 (delta_t * c + 1.5)) as [H0|H0].
  - assert (H2 : (2 <= Zfloor (delta_t * c + 1.5))%Z) by lia.
    pose proof (Zfloor_bound (delta_t * c + 1.5)) as [Hf _].
    apply IZR_le in H2. lra.
  - assert (H2 : (2 <= Zceil (delta_t * c + 1.5))%Z) by lia.
    pose proof (Zceil_bound (delta_t * c + 1.5)) as [Hf _].
    apply IZR_le in H2. lra.
Qed.

Lemma more_points_nonzero (delta_t c : R) :
  (1 < Geodesic.number_of_points delta_t c)%Z -> delta_t <> 0.
Proof.
  intros H Hz. apply more_points_span in H. rewrite Hz in H. lra.
Qed.

Lemma run_geodesic_get_template_data_with_index (g : Geodesic.t) (a lo hi : R)
    (times : list R) (traj : list tensor) (index : nat) (y : tensor) :
  Geodesic.tmin g = Some lo ->
  Geodesic.tmax g = Some hi ->
  lo <= a -> a <= hi ->
  run Geodesic._get_times g = (Ok times, g) ->
  argmin (map (fun x => (x - a) * (x - a)) times) = Some index ->
  run Geodesic._get_template_trajectory g = (Ok traj, g) ->
  nth_error traj index = Some y ->
  run (Geodesic.get_template_data_with_index a) g = (Ok (squeeze y, index), g).
Proof.
  intros Hlo Hhi H1 H2 Htimes Hargmin Htraj Hnth.
  unfold Geodesic.get_template_data_with_index.
  erewrite run_bind by reflexivity.
  change (state_of (get g)) with g.
  rewrite Hlo. erewrite run_bind by reflexivity.
  change (state_of (require TypeError (Some lo) g)) with g.
  rewrite Hhi. erewrite run_bind by reflexivity.
  change (state_of (require TypeError (Some hi) g)) with g.
  rewrite (Rleb_true lo a H1), (Rleb_true a hi H2).
  erewrite run_bind by reflexivity.
  change (state_of (assert (true && true) g)) with g.
  erewrite run_bind by apply run_if_warn.
  erewrite run_bind by exact Htimes.
  rewrite Hargmin. erewrite run_bind by reflexivity.
  change (state_of (require RuntimeError (Some index) g)) with g.
  erewrite run_bind by exact Htraj.
  erewrite run_bind by (apply run_py_index_nat; exact Hnth).
  reflexivity.
Qed.

Lemma run_geodesic_get_template_data (g : Geodesic.t) (a : R) (y : tensor)
    (index : nat) :
  run (Geodesic.get_template_data_with_index a) g = (Ok (y, index), g) ->
  run (Geodesic.get_template_data a) g = (Ok y, g).
Proof.
  intros H. unfold Geodesic.get_template_data.
  erewrite run_bind by exact H. reflexivity.
Qed.

Lemma side_updated_points k e n cps mom td :
  Exponential.number_of_time_points (side_updated k e n cps mom td) = Some n.
Proof. unfold side_updated. destruct (1 <? n)%Z; reflexivity. Qed.

Lemma side_updated_template k e n cps mom x :
  (1 < n)%Z ->
  Exponential.template_data_t (side_updated k e n cps mom (Some x))
  = Some (flow_template_data k (truthy (Exponential.use_rk2 e)) n x
            (shoot_control_points k (truthy (Exponential.use_rk2 e)) n cps mom)
            (shoot_momenta k (truthy (Exponential.use_rk2 e)) n cps mom)).
Proof.
  intros H. apply Z.ltb_lt in H. unfold side_updated. rewrite H. reflexivity.
Qed.

Lemma two_or_more (n : Z) :
  (1 < n)%Z -> exists m, Z.to_nat n = Datatypes.S (Datatypes.S m).
Proof.
  intros H. exists (Z.to_nat n - 2)%nat. lia.
Qed.

(** The read at the reference time on a geodesic whose sides are those
    [update] left, whatever the attributes of the geodesic itself became
    since. *)
Lemma reference_template_read
    (k : Kernel) (c a lo hi : R) (cps mom x : tensor)
    (c' : option R) (cps' mom' td' : option tensor) (sm fm : bool) :
  lo <= a -> a <= hi ->
  (1 < Geodesic.number_of_points (a - lo) c)%Z ->
  let e0 := Exponential.with_use_rk2 (Some false)
              (Exponential.with_kernel (Some k) Exponential.init) in
  let nb := Geodesic.number_of_points (a - lo) c in
  let nf := Geodesic.number_of_points (hi - a) c in
  let be := side_updated k e0 nb cps (muls (tneg mom) (a - lo)) (Some x) in
  let fe := side_updated k e0 nf cps (muls mom (hi - a)) (Some x) in
  let g := Geodesic.Build_t c' (Some a) (Some hi) (Some lo) cps' mom' td'
                            be fe sm fm in
  run (Geodesic.get_template_data_with_index a) g
  = (Ok (squeeze x, Z.to_nat (nb - 1)), g).
Proof.
  intros Hlo Hhi Hnb e0 nb nf be fe g. fold nb in Hnb.
  destruct (two_or_more nb Hnb) as [m Hm2].
  assert (Hne : a <> lo).
  { pose proof (more_points_nonzero (a - lo) c Hnb). lra. }
  set (rest := flow_from k false (1 / IZR (nb - 1)) (Z.to_nat (nb - 1)) x
                 (shoot_control_points k false nb cps (muls (tneg mom) (a - lo)))
                 (shoot_momenta k false nb cps (muls (tneg mom) (a - lo)))).
  set (ft := flow_template_data k false nf x
               (shoot_control_points k false nf cps (muls mom (hi - a)))
               (shoot_momenta k false nf cps (muls mom (hi - a)))).
  assert (Hrest : length rest = Datatypes.S m).
  { unfold rest.
    destruct (shoot_lengths k false nb cps (muls (tneg mom) (a - lo)) Hnb)
      as [L1 L2].
    rewrite flow_from_length; lia. }
  assert (Htimes : run Geodesic._get_times g
                   = (Ok (rev (linspace a lo (Datatypes.S (Datatypes.S m)))
                            ++ tl (if (1 <? nf)%Z
                                   then linspace a hi (Z.to_nat nf) else [])),
                      g)).
  { rewrite (run_get_times g a lo hi nb nf eq_refl eq_refl eq_refl
               (side_updated_points _ _ _ _ _ _)
               (side_updated_points _ _ _ _ _ _)).
    apply Z.ltb_lt in Hnb. rewrite Hnb, Hm2. reflexivity. }
  assert (Htraj : run Geodesic._get_template_trajectory g
                  = (Ok (rev (x :: rest)
                           ++ tl (if (1 <? nf)%Z then ft else [])), g)).
  { rewrite (run_get_template_trajectory g nb nf (x :: rest) ft
               (side_updated_points _ _ _ _ _ _)
               (side_updated_points _ _ _ _ _ _)).
    - apply Z.ltb_lt in Hnb. rewrite Hnb. reflexivity.
    - intros _. apply (side_updated_template k e0 nb cps _ x Hnb).
    - intros H. apply (side_updated_template k e0 nf cps _ x H). }
  assert (Hargmin :
    argmin (map (fun y => (y - a) * (y - a))
                (rev (linspace a lo (Datatypes.S (Datatypes.S m)))
                   ++ tl (if (1 <? nf)%Z
                          then linspace a hi (Z.to_nat nf) else [])))
    = Some (Datatypes.S m)).
  { apply (argmin_spliced_times a lo hi m); [exact Hne|].
    intros y Hy. destruct (Z.ltb_spec 1 nf) as [Hnf|Hnf]; [|contradiction].
    apply (linspace_tail_away a hi (Z.to_nat nf) y); [|exact Hy].
    pose proof (more_points_nonzero (hi - a) c Hnf). lra. }
  assert (Hnth : nth_error (rev (x :: rest)
                              ++ tl (if (1 <? nf)%Z then ft else []))
                           (Datatypes.S m) = Some x).
  { rewrite <- Hrest. apply nth_error_rev_first. }
  replace (Z.to_nat (nb - 1)) with (Datatypes.S m) by lia.
  apply (run_geodesic_get_template_data_with_index g a lo hi _ _
           (Datatypes.S m) x eq_refl eq_refl Hlo Hhi Htimes Hargmin Htraj Hnth).
Qed.

(** X12.  On a geodesic configured through its setters, with template
    data, and updated, whose backward side has more than one time point,
    [get_template_data] at the reference time returns without touching the
    geodesic, and what it returns is the template data given at the
    reference time, squeezed: the index selected is that of the last
    backward sample. *)
Theorem X12_template_at_reference_time
    (k : Kernel) (c a lo hi : R) (cps mom x : tensor) :
  lo <= a -> a <= hi ->
  (0 < len cps)%nat -> (0 < len mom)%nat ->
  (1 < Geodesic.number_of_points (a - lo) c)%Z ->
  let g' := snd (run Geodesic.update
                     (geodesic_with k c a lo hi cps mom (Some x))) in
  run (Geodesic.get_template_data a) g' = (Ok (squeeze x), g') /\
  run (Geodesic.get_template_data_with_index a) g'
  = (Ok (squeeze x,
         Z.to_nat (Geodesic.number_of_points (a - lo) c - 1)), g').
Proof.
  intros Hlo Hhi Hc Hm Hnb g'. subst g'.
  rewrite geodesic_with_update by assumption. cbn [snd].
  pose proof (reference_template_read k c a lo hi cps mom x (Some c)
                (Some cps) (Some mom) (Some x) false false Hlo Hhi Hnb) as Hidx.
  cbv zeta in Hidx.
  split; [|exact Hidx].
  apply (run_geodesic_get_template_data _ a (squeeze x) _ Hidx).
Qed.

Lemma X12_template_at_reference_time_witness :
  let g' := snd (run Geodesic.update
                     (geodesic_with (create_kernel_exact 1) 1 0 (-1) 2
                                    origin_1d unit_momentum_1d
                                    (Some (Mat [[0]; [3]])))) in
  run (Geodesic.get_template_data 0) g' = (Ok (squeeze (Mat [[0]; [3]])), g').
Proof.
  intros g'.
  assert (Hb : Geodesic.number_of_points (0 - -1) 1 = 2%Z)
    by (rewrite (number_of_points_eq _ _ 2); [reflexivity | lra | cbn [IZR]; lra]).
  apply (proj1 (X12_template_at_reference_time (create_kernel_exact 1) 1 0 (-1) 2
                  origin_1d unit_momentum_1d (Mat [[0]; [3]])
                  ltac:(lra) ltac:(lra) ltac:(cbn; lia) ltac:(cbn; lia)
                  ltac:(rewrite Hb; lia))).
Defined.

(** X14.  The geodesic does not fault on a stale read.  After an update as
    in X12, replacing the momenta and the template data through their
    setters raises both flags of the geodesic and touches neither side, and
    [get_template_data] at the reference time still returns: it returns the
    template data of the last [update], not the one just set, and leaves
    the geodesic as the setters left it. *)
Theorem X14_geodesic_stale_read_returns_old_template
    (k : Kernel) (c a lo hi : R) (cps mom x mom' y : tensor) :
  lo <= a -> a <= hi ->
  (0 < len cps)%nat -> (0 < len mom)%nat ->
  (1 < Geodesic.number_of_points (a - lo) c)%Z ->
  let g' := snd (run Geodesic.update
                     (geodesic_with k c a lo hi cps mom (Some x))) in
  let g1 := snd (run (Geodesic.set_momenta_t0 (Some mom') ;;
                      Geodesic.set_template_data_t0 (Some y)) g') in
  Geodesic.shoot_is_modified g1 = true /\
  Geodesic.flow_is_modified g1 = true /\
  Geodesic.template_data_t0 g1 = Some y /\
  Geodesic.backward_exponential g1 = Geodesic.backward_exponential g' /\
  Geodesic.forward_exponential g1 = Geodesic.forward_exponential g' /\
  run (Geodesic.get_template_data a) g1 = (Ok (squeeze x), g1).
Proof.
  intros Hlo Hhi Hc Hm Hnb g' g1. subst g1 g'.
  rewrite geodesic_with_update by assumption. cbn [snd].
  pose proof (reference_template_read k c a lo hi cps mom x (Some c)
                (Some cps) (Some mom') (Some y) true true Hlo Hhi Hnb) as Hidx.
  cbv zeta in Hidx.
  repeat (split; [reflexivity|]).
  apply (run_geodesic_get_template_data _ a (squeeze x) _ Hidx).
Qed.

Lemma X14_geodesic_stale_read_returns_old_template_witness :
  let g' := snd (run Geodesic.update
                     (geodesic_with (create_kernel_exact 1) 1 0 (-1) 2
                                    origin_1d unit_momentum_1d
                                    (Some (Mat [[0]; [3]])))) in
  let g1 := snd (run (Geodesic.set_momenta_t0 (Some (Mat [[5]])) ;;
                      Geodesic.set_template_data_t0 (Some (Mat [[7]; [8]]))) g') in
  Geodesic.template_data_t0 g1 = Some (Mat [[7]; [8]]) /\
  run (Geodesic.get_template_data 0) g1 = (Ok (squeeze (Mat [[0]; [3]])), g1).
Proof.
  intros g' g1.
  assert (Hb : Geodesic.number_of_points (0 - -1) 1 = 2%Z)
    by (rewrite (number_of_points_eq _ _ 2); [reflexivity | lra | cbn [IZR]; lra]).
  destruct (X14_geodesic_stale_read_returns_old_template
              (create_kernel_exact 1) 1 0 (-1) 2 origin_1d unit_momentum_1d
              (Mat [[0]; [3]]) (Mat [[5]]) (Mat [[7]; [8]])
              ltac:(lra) ltac:(lra) ltac:(cbn; lia) ltac:(cbn; lia)
              ltac:(rewrite Hb; lia))
    as (_ & _ & H3 & _ & _ & H6).
  split; [exact H3 | exact H6].
Defined.

Lemma run_get_control_points_trajectory (g : Geodesic.t) (nb nf : Z)
    (bc fc : list tensor) :
  backward_points g = Some nb ->
  forward_points g = Some nf ->
  ((1 < nb)%Z ->
   Exponential.control_points_t (Geodesic.backward_exponential g) = Some bc) ->
  ((1 < nf)%Z ->
   Exponential.control_points_t (Geodesic.forward_exponential g) = Some fc) ->
  run Geodesic._get_control_points_trajectory g
  = (Ok (rev (if (1 <? nb)%Z then bc else [])
           ++ tl (if (1 <? nf)%Z then fc else [])),
     g).
Proof.
  intros Hb Hf Hbc Hfc.
  destruct g as [c a0 hi0 lo0 cps mom td be fe sm fm].
  unfold backward_points, forward_points in Hb, Hf.
  cbn in Hb, Hf, Hbc, Hfc.
  unfold Geodesic._get_control_points_trajectory, Geodesic.more_than_one_point,
    run.
  py_unfold.
  cbn [Geodesic.shoot_is_modified Geodesic.backward_exponential
       Geodesic.forward_exponential].
  rewrite Hb, Hf.
  destruct (Z.ltb_spec 1 nb) as [H1|H1]; destruct (Z.ltb_spec 1 nf) as [H2|H2];
    rewrite ?(Hbc H1), ?(Hfc H2); destruct sm; reflexivity.
Qed.

Lemma run_get_momenta_trajectory (g : Geodesic.t) (a lo hi : R) (nb nf : Z)
    (bm fm' : list tensor) :
  Geodesic.t0 g = Some a ->
  Geodesic.tmin g = Some lo ->
  Geodesic.tmax g = Some hi ->
  backward_points g = Some nb ->
  forward_points g = Some nf ->
  ((1 < nb)%Z ->
   Exponential.momenta_t (Geodesic.backward_exponential g) = Some bm) ->
  ((1 < nf)%Z ->
   Exponential.momenta_t (Geodesic.forward_exponential g) = Some fm') ->
  run Geodesic._get_momenta_trajectory g
  = (Ok (rev (if (1 <? nb)%Z
              then map (fun elt => sdiv elt (a - lo)) bm else [])
           ++ tl (if (1 <? nf)%Z
                  then map (fun elt => sdiv elt (hi - a)) fm' else [])),
     g).
Proof.
  intros Ha Hlo Hhi Hb Hf Hbm Hfm.
  destruct g as [c a0 hi0 lo0 cps mom td be fe sm fm].
  unfold backward_points, forward_points in Hb, Hf.
  cbn in Ha, Hlo, Hhi, Hb, Hf, Hbm, Hfm. subst a0 lo0 hi0.
  unfold Geodesic._get_momenta_trajectory, Geodesic.more_than_one_point, run.
  py_unfold.
  cbn [Geodesic.shoot_is_modified Geodesic.backward_exponential
       Geodesic.forward_exponential Geodesic.t0 Geodesic.tmin Geodesic.tmax].
  rewrite Hb, Hf.
  destruct (Z.ltb_spec 1 nb) as [H1|H1]; destruct (Z.ltb_spec 1 nf) as [H2|H2];
    rewrite ?(Hbm H1), ?(Hfm H2); destruct sm; reflexivity.
Qed.

Lemma side_updated_shot k e n cps mom td :
  (1 < n)%Z ->
  Exponential.control_points_t (side_updated k e n cps mom td)
  = Some (shoot_control_points k (truthy (Exponential.use_rk2 e)) n cps mom) /\
  Exponential.momenta_t (side_updated k e n cps mom td)
  = Some (shoot_momenta k (truthy (Exponential.use_rk2 e)) n cps mom).
Proof.
  intros H. apply Z.ltb_lt in H. unfold side_updated. rewrite H.
  split; reflexivity.
Qed.

Lemma rescaled_back (x : tensor) (d : R) :
  d <> 0 -> sdiv (muls x d) d = x.
Proof.
  intros Hd. unfold sdiv, muls. rewrite tmap_tmap.
  rewrite (tmap_ext _ (fun a => a)) by (intros a; field; exact Hd).
  destruct x as [v|m]; cbn [tmap].
  - rewrite map_id. reflexivity.
  - f_equal. rewrite <- (map_id m) at 2. apply map_ext. intros r.
    apply map_id.
Qed.

Lemma length_spliced {A : Type} (l1 l2 : list A) :
  length (rev l1 ++ tl l2) = (length l1 + (length l2 - 1))%nat.
Proof.
  rewrite length_app, length_rev. destruct l2; cbn [tl length]; lia.
Qed.

(** X13.  On a geodesic configured through its setters and updated, whose
    backward side has more than one time point, the spliced trajectories of
    control points and momenta have one entry per spliced time, that is
    the points of the backward side plus those of the forward side less one
    when the forward side has any; at the index of the reference time the
    control points are those given at the reference time, and the momenta
    are those given at the reference time with the opposite sign: the
    entry comes from the backward side, shot with the negated momenta, and
    is divided by the time the side spans, which undoes the rescaling but
    not the negation. *)
Theorem X13_reference_time_in_shot_trajectories
    (k : Kernel) (c a lo hi : R) (cps mom : tensor) (td : option tensor) :
  lo <= a -> a <= hi ->
  (0 < len cps)%nat -> (0 < len mom)%nat ->
  (1 < Geodesic.number_of_points (a - lo) c)%Z ->
  let nb := Z.to_nat (Geodesic.number_of_points (a - lo) c) in
  let nf := Z.to_nat (Geodesic.number_of_points (hi - a) c) in
  let g' := snd (run Geodesic.update (geodesic_with k c a lo hi cps mom td)) in
  exists times cpl moml,
    run Geodesic._get_times g' = (Ok times, g') /\
    run Geodesic._get_control_points_trajectory g' = (Ok cpl, g') /\
    run Geodesic._get_momenta_trajectory g' = (Ok moml, g') /\
    length times = (nb + (nf - 1))%nat /\
    length cpl = (nb + (nf - 1))%nat /\
    length moml = (nb + (nf - 1))%nat /\
    nth_error cpl (nb - 1) = Some cps /\
    nth_error moml (nb - 1) = Some (tneg mom).
Proof.
  intros Hlo Hhi Hc Hm Hnb nb nf g'. subst g'.
  rewrite geodesic_with_update by assumption. cbn [snd].
  set (e0 := Exponential.with_use_rk2 (Some false)
               (Exponential.with_kernel (Some k) Exponential.init)).
  set (zb := Geodesic.number_of_points (a - lo) c) in *.
  set (zf := Geodesic.number_of_points (hi - a) c) in *.
  set (mb := muls (tneg mom) (a - lo)).
  set (mf := muls mom (hi - a)).
  set (be := side_updated k e0 zb cps mb td).
  set (fe := side_updated k e0 zf cps mf td).
  set (g := Geodesic.Build_t (Some c) (Some a) (Some hi) (Some lo) (Some cps)
                             (Some mom) td be fe false false).
  assert (Hne : a - lo <> 0) by exact (more_points_nonzero (a - lo) c Hnb).
  assert (Hzf : (1 <= zf)%Z) by (unfold zf, Geodesic.number_of_points; lia).
  destruct (shoot_lengths k false zb cps mb Hnb) as [Lbc Lbm].
  pose proof (Z.ltb_lt 1 zb) as [_ Hbt]. specialize (Hbt Hnb).
  exists (rev (linspace a lo (Z.to_nat zb))
            ++ tl (if (1 <? zf)%Z then linspace a hi (Z.to_nat zf) else [])),
         (rev (shoot_control_points k false zb cps mb)
            ++ tl (if (1 <? zf)%Z
                   then shoot_control_points k false zf cps mf else [])),
         (rev (map (fun elt => sdiv elt (a - lo)) (shoot_momenta k false zb cps mb))
            ++ tl (if (1 <? zf)%Z
                   then map (fun elt => sdiv elt (hi - a))
                            (shoot_momenta k false zf cps mf)
                   else [])).
  split.
  { rewrite (run_get_times g a lo hi zb zf eq_refl eq_refl eq_refl
               (side_updated_points _ _ _ _ _ _)
               (side_updated_points _ _ _ _ _ _)).
    rewrite Hbt. reflexivity. }
  split.
  { rewrite (run_get_control_points_trajectory g zb zf
               (shoot_control_points k false zb cps mb)
               (shoot_control_points k false zf cps mf)
               (side_updated_points _ _ _ _ _ _)
               (side_updated_points _ _ _ _ _ _)).
    - rewrite Hbt. reflexivity.
    - intros _. apply (side_updated_shot k e0 zb cps mb td Hnb).
    - intros H. apply (side_updated_shot k e0 zf cps mf td H). }
  split.
  { rewrite (run_get_momenta_trajectory g a lo hi zb zf
               (shoot_momenta k false zb cps mb)
               (shoot_momenta k false zf cps mf)
               eq_refl eq_refl eq_refl
               (side_updated_points _ _ _ _ _ _)
               (side_updated_points _ _ _ _ _ _)).
    - rewrite Hbt. reflexivity.
    - intros _. apply (side_updated_shot k e0 zb cps mb td Hnb).
    - intros H. apply (side_updated_shot k e0 zf cps mf td H). }
  assert (Hfl : forall (A : Type) (l : list A),
             length l = Z.to_nat zf ->
             (length (if (1 <? zf)%Z then l else []) - 1 = nf - 1)%nat).
  { intros A l Hl. destruct (Z.ltb_spec 1 zf); cbn [length]; unfold nf; lia. }
  split.
  { rewrite length_spliced, linspace_length, Hfl by apply linspace_length.
    reflexivity. }
  split.
  { rewrite length_spliced, Lbc.
    destruct (Z.ltb_spec 1 zf) as [Hf|Hf]; [|cbn [length]; unfold nb, nf; lia].
    destruct (shoot_lengths k false zf cps mf Hf) as [Lfc _].
    rewrite Lfc. reflexivity. }
  split.
  { rewrite length_spliced, length_map, Lbm.
    destruct (Z.ltb_spec 1 zf) as [Hf|Hf]; [|cbn [length]; unfold nb, nf; lia].
    destruct (shoot_lengths k false zf cps mf Hf) as [_ Lfm].
    rewrite length_map, Lfm. reflexivity. }
  split.
  - unfold shoot_control_points at 1.
    replace (nb - 1)%nat
      with (length (fst (shoot_from k false (1 / IZR (zb - 1))
                           (Z.to_nat (zb - 1)) cps mb))).
    + apply nth_error_rev_first.
    + destruct (shoot_from_length k (1 / IZR (zb - 1)) false (Z.to_nat (zb - 1))
                  cps mb) as [L _].
      rewrite L. unfold nb. lia.
  - unfold shoot_momenta at 1. cbn [map].
    replace (nb - 1)%nat
      with (length (map (fun elt => sdiv elt (a - lo))
                        (snd (shoot_from k false (1 / IZR (zb - 1))
                                (Z.to_nat (zb - 1)) cps mb)))).
    + rewrite nth_error_rev_first. f_equal. unfold mb.
      apply rescaled_back. exact Hne.
    + destruct (shoot_from_length k (1 / IZR (zb - 1)) false (Z.to_nat (zb - 1))
                  cps mb) as [_ L].
      rewrite length_map, L. unfold nb. lia.
Qed.

Lemma X13_reference_time_in_shot_trajectories_witness :
  let g' := snd (run Geodesic.update geodesic_c4) in
  exists times cpl moml,
    run Geodesic._get_times g' = (Ok times, g') /\
    run Geodesic._get_control_points_trajectory g' = (Ok cpl, g') /\
    run Geodesic._get_momenta_trajectory g' = (Ok moml, g') /\
    length times = 4%nat /\
    length cpl = 4%nat /\
    nth_error moml 1 = Some (tneg unit_momentum_1d).
Proof.
  intros g'.
  assert (Hb : Geodesic.number_of_points (0 - -1) 1 = 2%Z)
    by (rewrite (number_of_points_eq _ _ 2); [reflexivity | lra | cbn [IZR]; lra]).
  assert (Hf : Geodesic.number_of_points (2 - 0) 1 = 3%Z)
    by (rewrite (number_of_points_eq _ _ 3); [reflexivity | lra | cbn [IZR]; lra]).
  destruct (X13_reference_time_in_shot_trajectories (create_kernel_exact 1) 1 0
              (-1) 2 origin_1d unit_momentum_1d None
              ltac:(lra) ltac:(lra) ltac:(cbn; lia) ltac:(cbn; lia)
              ltac:(rewrite Hb; lia))
    as (times & cpl & moml & H1 & H2 & H3 & H4 & H5 & _ & _ & H8).
  rewrite Hb, Hf in H4. rewrite Hb, Hf in H5. rewrite Hb in H8.
  exists times, cpl, moml.
  split; [exact H1|]. split; [exact H2|]. split; [exact H3|].
  split; [exact H4|]. split; [exact H5 | exact H8].
Defined.

(* ------------------------------------------------------------------ *)
(** ** Guards of the parallel transport and one-sided geodesics *)

Lemma size_eqb_false (s1 s2 : list nat) : s1 <> s2 -> size_eqb s1 s2 = false.
Proof.
  intros H. unfold size_eqb.
  destruct (list_eq_dec Nat.eq_dec s1 s2); [contradiction | reflexivity].
Qed.

(** X15.  On an exponential whose shoot is up to date, [parallel_transport]
    refuses a vector whose size is not that of the initial momenta: it
    raises an [AssertionError] before anything is computed, so that the
    object, its store of factors included, is left as it was. *)
Theorem X15_parallel_transport_size_check
    (e : Exponential.t) (imom v : tensor) (flag : bool) :
  Exponential.shoot_is_modified e = false ->
  Exponential.initial_momenta e = Some imom ->
  size v <> size imom ->
  Exponential.parallel_transport v flag e = (Raise AssertionError, e, []).
Proof.
  intros Hsm Himom Hsize.
  destruct e as [k T icp cpt imom0 momt itd tdt sm fm rk ns ch].
  cbn in Hsm, Himom. subst sm imom0.
  unfold Exponential.parallel_transport. py_unfold. exp_fields.
  cbn [negb]. cbv iota.
  rewrite (size_eqb_false _ _ Hsize). reflexivity.
Qed.

Lemma X15_parallel_transport_size_check_witness :
  Exponential.parallel_transport (Mat [[0; 1]; [2; 3]]) true
    (snd (run Exponential.update exponential_c7))
  = (Raise AssertionError, snd (run Exponential.update exponential_c7), []).
Proof.
  unfold exponential_c7.
  rewrite exponential_with_update by (cbn; lia). cbn [snd].
  apply (X15_parallel_transport_size_check _ (Mat [[1; 0]])
           (Mat [[0; 1]; [2; 3]]) true); [reflexivity | reflexivity |].
  cbn. discriminate.
Defined.



(* ------------------------------------------------------------------ *)
(** ** Incremental updates *)

Lemma run_update_shoot k T cps cpt0 mom momt0 itd tdt0 fm rk ns ch :
  (1 < T)%Z -> (0 < len cps)%nat -> (0 < len mom)%nat ->
  let cpt := shoot_control_points k (truthy rk) T cps mom in
  let momt := shoot_momenta k (truthy rk) T cps mom in
  run Exponential.update
      (Exponential.Build_t (Some k) (Some T) (Some cps) cpt0 (Some mom) momt0
                           itd tdt0 true fm rk ns ch)
  = (Ok tt,
     Exponential.Build_t (Some k) (Some T) (Some cps) (Some cpt) (Some mom)
       (Some momt) itd
       (match itd with
        | Some td => Some (flow_template_data k (truthy rk) T td cpt momt)
        | None => tdt0
        end)
       false
       (match itd with Some _ => false | None => fm end) rk
       (Some (dot mom (convolve k cps cps mom))) []).
Proof.
  intros HT Hc Hm cpt momt.
  destruct (update_shoot_run k T cps cpt0 mom momt0 itd tdt0 fm rk ns ch
              HT Hc Hm) as (w & Hrun & _).
  unfold run. rewrite Hrun. reflexivity.
Qed.

Lemma run_update_flow k T icp cpt imom momt td tdt0 rk ns ch :
  (1 < T)%Z -> length cpt = Z.to_nat T -> length momt = Z.to_nat T ->
  run Exponential.update
      (Exponential.Build_t (Some k) (Some T) icp (Some cpt) imom (Some momt)
                           (Some td) tdt0 false true rk ns ch)
  = (Ok tt,
     Exponential.Build_t (Some k) (Some T) icp (Some cpt) imom (Some momt)
       (Some td) (Some (flow_template_data k (truthy rk) T td cpt momt))
       false false rk ns ch).
Proof.
  intros HT Hlc Hlm.
  destruct (update_shot_run k T icp cpt imom momt (Some td) tdt0 true rk ns ch
              HT Hlc Hlm) as (w & Hrun).
  unfold run. rewrite Hrun. reflexivity.
Qed.

Lemma run_set_initial_template_data td e :
  run (Exponential.set_initial_template_data td) e
  = (Ok tt, Exponential.with_flow_is_modified true
              (Exponential.with_initial_template_data td e)).
Proof. reflexivity. Qed.

Lemma run_set_initial_momenta mom e :
  run (Exponential.set_initial_momenta mom) e
  = (Ok tt, Exponential.with_initial_momenta mom
              (Exponential.with_shoot_is_modified true e)).
Proof. reflexivity. Qed.

Lemma run_set_initial_control_points cps e :
  run (Exponential.set_initial_control_points cps) e
  = (Ok tt, Exponential.with_initial_control_points cps
              (Exponential.with_shoot_is_modified true e)).
Proof. reflexivity. Qed.

(** X17.  The flags make [update] incremental without changing what it
    computes.  On an exponential configured through its setters and
    updated, whatever its store of Cholesky factors holds by then:
    replacing the template data and updating gives the object that a
    configuration with the new template data gives from scratch, the store
    being kept; replacing the momenta, or the control points, and updating
    gives the object that a configuration with the new momenta, or control
    points, gives from scratch, the store being emptied. *)
Theorem X17_incremental_update
    (k : Kernel) (rk2 : bool) (T : Z) (cps mom : tensor) (td : option tensor)
    (ch : list tensor) :
  (1 < T)%Z -> (0 < len cps)%nat -> (0 < len mom)%nat ->
  let e := Exponential.with_cholesky_kernel_matrices ch
             (snd (run Exponential.update (exponential_with k rk2 T cps mom td))) in
  (forall y,
      run (Exponential.set_initial_template_data (Some y) ;; Exponential.update) e
      = (Ok tt,
         Exponential.with_cholesky_kernel_matrices ch
           (snd (run Exponential.update
                     (exponential_with k rk2 T cps mom (Some y)))))) /\
  (forall mom',
      (0 < len mom')%nat ->
      run (Exponential.set_initial_momenta (Some mom') ;; Exponential.update) e
      = run Exponential.update (exponential_with k rk2 T cps mom' td)) /\
  (forall cps',
      (0 < len cps')%nat ->
      run (Exponential.set_initial_control_points (Some cps') ;;
           Exponential.update) e
      = run Exponential.update (exponential_with k rk2 T cps' mom td)).
Proof.
  intros HT Hc Hm e. subst e.
  destruct (shoot_lengths k rk2 T cps mom HT) as [Hlc Hlm].
  rewrite exponential_with_update by assumption. cbn [snd].
  split; [|split].
  - intros y.
    rewrite exponential_with_update by assumption. cbn [snd].
    erewrite run_bind by apply run_set_initial_template_data.
    exp_fields.
    rewrite run_update_flow by assumption. reflexivity.
  - intros mom' Hm'.
    rewrite exponential_with_update by assumption.
    erewrite run_bind by apply run_set_initial_momenta.
    exp_fields.
    rewrite run_update_shoot by assumption.
    cbn [truthy]. destruct td; reflexivity.
  - intros cps' Hc'.
    rewrite exponential_with_update by assumption.
    erewrite run_bind by apply run_set_initial_control_points.
    exp_fields.
    rewrite run_update_shoot by assumption.
    cbn [truthy]. destruct td; reflexivity.
Qed.

Lemma X17_incremental_update_witness :
  let e := Exponential.with_cholesky_kernel_matrices [Mat [[1]]]
             (snd (run Exponential.update exponential_c10)) in
  run (Exponential.set_initial_momenta (Some (Mat [[2]])) ;; Exponential.update) e
  = run Exponential.update
        (exponential_with (create_kernel_exact 1) false 2 origin_1d (Mat [[2]])
                          (Some (Mat [[0]]))).
Proof.
  intros e.
  destruct (X17_incremental_update (create_kernel_exact 1) false 2 origin_1d
              unit_momentum_1d (Some (Mat [[0]])) [Mat [[1]]]
              ltac:(lia) ltac:(cbn; lia) ltac:(cbn; lia))
    as (_ & H2 & _).
  apply (H2 (Mat [[2]])). cbn. lia.
Defined.

Lemma side_reflow_run k e n cps mom x y :
  Exponential.kernel e = Some k ->
  run (if (1 <? n)%Z then Exponential.update else ret tt)
      (Exponential.with_flow_is_modified true
         (Exponential.with_initial_template_data (Some y)
            (Exponential.with_number_of_time_points (Some n)
               (side_updated k e n cps mom (Some x)))))
  = (Ok tt, side_updated k e n cps mom (Some y)).
Proof.
  intros Hk. unfold side_updated, side_prepared.
  destruct e as [k0 T0 icp cpt0 imom momt0 itd tdt0 sm fm rk ns ch].
  cbn in Hk. subst k0.
  destruct (1 <? n)%Z eqn:Hn; [|reflexivity].
  apply Z.ltb_lt in Hn. exp_fields.
  destruct (shoot_lengths k (truthy rk) n cps mom Hn) as [Hlc Hlm].
  rewrite run_update_flow by assumption. reflexivity.
Qed.

Lemma geodesic_reflow_run k c a lo hi cps mom x y e
    (c' : option R) (cps' mom' : option tensor) :
  lo <= a -> a <= hi ->
  Exponential.kernel e = Some k ->
  c' = Some c ->
  let nb := Geodesic.number_of_points (a - lo) c in
  let nf := Geodesic.number_of_points (hi - a) c in
  let mb := muls (tneg mom) (a - lo) in
  let mf := muls mom (hi - a) in
  run Geodesic.update
      (Geodesic.Build_t c' (Some a) (Some hi) (Some lo) cps' mom' (Some y)
         (side_updated k e nb cps mb (Some x))
         (side_updated k e nf cps mf (Some x)) false true)
  = (Ok tt,
     Geodesic.Build_t c' (Some a) (Some hi) (Some lo) cps' mom' (Some y)
       (side_updated k e nb cps mb (Some y))
       (side_updated k e nf cps mf (Some y)) false false).
Proof.
  intros Hlo Hhi Hk -> nb nf mb mf.
  set (be := side_updated k e nb cps mb (Some x)).
  set (fe := side_updated k e nf cps mf (Some x)).
  unfold Geodesic.update.
  do 3 run_step.
  rewrite (Rleb_true lo a Hlo). do 2 run_step.
  rewrite (Rleb_true a hi Hhi). do 5 run_step.
  erewrite run_bind.
  2:{ rewrite run_if_on_backward. cbn [Geodesic.backward_exponential].
      change (run (if (1 <? Geodesic.number_of_points (a - lo) c)%Z
                   then Exponential.update else ret tt) _)
        with (run (if (1 <? nb)%Z then Exponential.update else ret tt)
                (Exponential.with_flow_is_modified true
                   (Exponential.with_initial_template_data (Some y)
                      (Exponential.with_number_of_time_points (Some nb) be)))).
      unfold be. rewrite (side_reflow_run k e nb cps mb x y Hk). reflexivity. }
  norm_state. do 3 run_step.
  erewrite run_bind.
  2:{ rewrite run_if_on_forward. cbn [Geodesic.forward_exponential].
      change (run (if (1 <? Geodesic.number_of_points (hi - a) c)%Z
                   then Exponential.update else ret tt) _)
        with (run (if (1 <? nf)%Z then Exponential.update else ret tt)
                (Exponential.with_flow_is_modified true
                   (Exponential.with_initial_template_data (Some y)
                      (Exponential.with_number_of_time_points (Some nf) fe)))).
      unfold fe. rewrite (side_reflow_run k e nf cps mf x y Hk). reflexivity. }
  norm_state. reflexivity.
Qed.

Lemma run_set_template_data_t0 td g :
  run (Geodesic.set_template_data_t0 td) g
  = (Ok tt, Geodesic.with_flow_is_modified true
              (Geodesic.with_template_data_t0 td g)).
Proof. reflexivity. Qed.

(** X18.  The same holds for the geodesic and its template data: on a
    geodesic configured through its setters, with template data, and
    updated, replacing the template data through its setter and updating
    again gives the geodesic, exponentials included, that a configuration
    with the new template data gives from scratch; when the backward side
    has more than one time point, the read at the reference time then
    returns the new template data, squeezed. *)
Theorem X18_geodesic_incremental_template
    (k : Kernel) (c a lo hi : R) (cps mom x y : tensor) :
  lo <= a -> a <= hi ->
  (0 < len cps)%nat -> (0 < len mom)%nat ->
  let g' := snd (run Geodesic.update
                     (geodesic_with k c a lo hi cps mom (Some x))) in
  let r := run (Geodesic.set_template_data_t0 (Some y) ;; Geodesic.update) g' in
  r = run Geodesic.update (geodesic_with k c a lo hi cps mom (Some y)) /\
  fst r = Ok tt /\
  ((1 < Geodesic.number_of_points (a - lo) c)%Z ->
   run (Geodesic.get_template_data a) (snd r) = (Ok (squeeze y), snd r)).
Proof.
  intros Hlo Hhi Hc Hm g' r. subst r g'.
  rewrite !geodesic_with_update by assumption. cbn [snd].
  erewrite run_bind by apply run_set_template_data_t0.
  cbv [Geodesic.with_flow_is_modified Geodesic.with_template_data_t0
       Geodesic.concentration_of_time_points Geodesic.t0 Geodesic.tmax
       Geodesic.tmin Geodesic.control_points_t0 Geodesic.momenta_t0
       Geodesic.template_data_t0 Geodesic.backward_exponential
       Geodesic.forward_exponential Geodesic.shoot_is_modified
       Geodesic.flow_is_modified].
  rewrite (geodesic_reflow_run k c a lo hi cps mom x y
             (Exponential.with_use_rk2 (Some false)
                (Exponential.with_kernel (Some k) Exponential.init))
             (Some c) (Some cps) (Some mom) Hlo Hhi eq_refl eq_refl).
  split; [reflexivity|]. split; [reflexivity|].
  intros Hnb. cbn [snd].
  pose proof (reference_template_read k c a lo hi cps mom y (Some c)
                (Some cps) (Some mom) (Some y) false false Hlo Hhi Hnb) as Hidx.
  cbv zeta in Hidx.
  apply (run_geodesic_get_template_data _ a (squeeze y) _ Hidx).
Qed.

Lemma X18_geodesic_incremental_template_witness :
  let g' := snd (run Geodesic.update
                     (geodesic_with (create_kernel_exact 1) 1 0 (-1) 2
                                    origin_1d unit_momentum_1d
                                    (Some (Mat [[0]; [3]])))) in
  let r := run (Geodesic.set_template_data_t0 (Some (Mat [[7]; [8]])) ;;
                Geodesic.update) g' in
  fst r = Ok tt /\
  run (Geodesic.get_template_data 0) (snd r)
  = (Ok (squeeze (Mat [[7]; [8]])), snd r).
Proof.
  intros g' r.
  assert (Hb : Geodesic.number_of_points (0 - -1) 1 = 2%Z)
    by (rewrite (number_of_points_eq _ _ 2); [reflexivity | lra | cbn [IZR]; lra]).
  destruct (X18_geodesic_incremental_template (create_kernel_exact 1) 1 0 (-1) 2
              origin_1d unit_momentum_1d (Mat [[0]; [3]]) (Mat [[7]; [8]])
              ltac:(lra) ltac:(lra) ltac:(cbn; lia) ltac:(cbn; lia))
    as (_ & H2 & H3).
  split; [exact H2|]. apply H3. rewrite Hb. lia.
Defined.

Lemma side_rerun k e n cps mom td (k' : option Kernel) :
  (0 < len cps)%nat -> (0 < len mom)%nat ->
  k' <> None ->
  run (if (1 <? n)%Z then Exponential.update else ret tt)
      (Exponential.with_number_of_time_points (Some n)
         (Exponential.with_kernel k' (side_updated k e n cps mom td)))
  = (Ok tt, Exponential.with_kernel k' (side_updated k e n cps mom td)).
Proof.
  intros Hc Hm Hk'. destruct k' as [k1|]; [clear Hk'|contradiction].
  unfold side_updated, side_prepared.
  destruct e as [k0 T0 icp cpt0 imom momt0 itd tdt0 sm fm rk ns ch].
  destruct (1 <? n)%Z eqn:Hn; [|reflexivity].
  apply Z.ltb_lt in Hn. exp_fields.
  destruct (shoot_lengths k (truthy rk) n cps mom Hn) as [Hlc Hlm].
  destruct td as [x|].
  - destruct (update_shot_run k1 n (Some cps)
                (shoot_control_points k (truthy rk) n cps mom) (Some mom)
                (shoot_momenta k (truthy rk) n cps mom) (Some x)
                (Some (flow_template_data k (truthy rk) n x
                         (shoot_control_points k (truthy rk) n cps mom)
                         (shoot_momenta k (truthy rk) n cps mom)))
                false rk (Some (dot mom (convolve k cps cps mom))) []
                Hn Hlc Hlm) as (w & Hrun).
    unfold run. rewrite Hrun. reflexivity.
  - destruct (update_shot_run k1 n (Some cps)
                (shoot_control_points k (truthy rk) n cps mom) (Some mom)
                (shoot_momenta k (truthy rk) n cps mom) None tdt0
                true rk (Some (dot mom (convolve k cps cps mom))) []
                Hn Hlc Hlm) as (w & Hrun).
    unfold run. rewrite Hrun. reflexivity.
Qed.

Lemma run_geodesic_set_kernel k' g :
  run (Geodesic.set_kernel k') g
  = (Ok tt,
     Geodesic.with_forward_exponential
       (Exponential.with_kernel k' (Geodesic.forward_exponential g))
       (Geodesic.with_backward_exponential
          (Exponential.with_kernel k' (Geodesic.backward_exponential g)) g)).
Proof. destruct g. reflexivity. Qed.

(** X19.  [Geodesic.set_kernel] assigns the kernel of the two exponentials
    and raises no flag, neither theirs nor the geodesic's.  On a geodesic
    configured through its setters and updated, replacing the kernel and
    updating again therefore returns without recomputing anything: the
    geodesic is the one [set_kernel] left, with the trajectories and norms
    of both sides still those of the former kernel. *)
Theorem X19_geodesic_update_ignores_new_kernel
    (k k' : Kernel) (c a lo hi : R) (cps mom : tensor) (td : option tensor) :
  lo <= a -> a <= hi ->
  (0 < len cps)%nat -> (0 < len mom)%nat ->
  let g' := snd (run Geodesic.update (geodesic_with k c a lo hi cps mom td)) in
  let g1 := snd (run (Geodesic.set_kernel (Some k')) g') in
  run (Geodesic.set_kernel (Some k') ;; Geodesic.update) g' = (Ok tt, g1) /\
  Geodesic.shoot_is_modified g1 = false /\
  Exponential.kernel (Geodesic.forward_exponential g1) = Some k' /\
  Exponential.control_points_t (Geodesic.forward_exponential g1)
  = Exponential.control_points_t (Geodesic.forward_exponential g') /\
  Exponential.norm_squared (Geodesic.forward_exponential g1)
  = Exponential.norm_squared (Geodesic.forward_exponential g').
Proof.
  intros Hlo Hhi Hc Hm g' g1. subst g1 g'.
  rewrite geodesic_with_update by assumption. cbn [snd].
  set (e0 := Exponential.with_use_rk2 (Some false)
               (Exponential.with_kernel (Some k) Exponential.init)).
  set (nb := Geodesic.number_of_points (a - lo) c).
  set (nf := Geodesic.number_of_points (hi - a) c).
  set (mb := muls (tneg mom) (a - lo)).
  set (mf := muls mom (hi - a)).
  set (be := side_updated k e0 nb cps mb td).
  set (fe := side_updated k e0 nf cps mf td).
  rewrite run_geodesic_set_kernel.
  cbv [Geodesic.with_forward_exponential Geodesic.with_backward_exponential
       Geodesic.concentration_of_time_points Geodesic.t0 Geodesic.tmax
       Geodesic.tmin Geodesic.control_points_t0 Geodesic.momenta_t0
       Geodesic.template_data_t0 Geodesic.backward_exponential
       Geodesic.forward_exponential Geodesic.shoot_is_modified
       Geodesic.flow_is_modified snd].
  assert (Hlmb : (0 < len mb)%nat)
    by (unfold mb, muls, tneg; rewrite !len_tmap; assumption).
  assert (Hlmf : (0 < len mf)%nat)
    by (unfold mf, muls; rewrite !len_tmap; assumption).
  split.
  - erewrite run_bind by apply run_geodesic_set_kernel.
    cbv [Geodesic.with_forward_exponential Geodesic.with_backward_exponential
         Geodesic.concentration_of_time_points Geodesic.t0 Geodesic.tmax
         Geodesic.tmin Geodesic.control_points_t0 Geodesic.momenta_t0
         Geodesic.template_data_t0 Geodesic.backward_exponential
         Geodesic.forward_exponential Geodesic.shoot_is_modified
         Geodesic.flow_is_modified].
    unfold Geodesic.update.
    do 3 run_step.
    rewrite (Rleb_true lo a Hlo). do 2 run_step.
    rewrite (Rleb_true a hi Hhi). do 5 run_step.
    erewrite run_bind.
    2:{ rewrite run_if_on_backward. cbn [Geodesic.backward_exponential].
        change (run (if (1 <? Geodesic.number_of_points (a - lo) c)%Z
                     then Exponential.update else ret tt) _)
          with (run (if (1 <? nb)%Z then Exponential.update else ret tt)
                  (Exponential.with_number_of_time_points (Some nb)
                     (Exponential.with_kernel (Some k') be))).
        unfold be.
        rewrite (side_rerun k e0 nb cps mb td (Some k') Hc Hlmb
                   ltac:(discriminate)).
        reflexivity. }
    norm_state. do 3 run_step.
    erewrite run_bind.
    2:{ rewrite run_if_on_forward. cbn [Geodesic.forward_exponential].
        change (run (if (1 <? Geodesic.number_of_points (hi - a) c)%Z
                     then Exponential.update else ret tt) _)
          with (run (if (1 <? nf)%Z then Exponential.update else ret tt)
                  (Exponential.with_number_of_time_points (Some nf)
                     (Exponential.with_kernel (Some k') fe))).
        unfold fe.
        rewrite (side_rerun k e0 nf cps mf td (Some k') Hc Hlmf
                   ltac:(discriminate)).
        reflexivity. }
    norm_state. reflexivity.
  - split; [reflexivity|]. destruct fe. split; [reflexivity|].
    split; reflexivity.
Qed.

Lemma X19_geodesic_update_ignores_new_kernel_witness :
  let g' := snd (run Geodesic.update geodesic_c4) in
  run (Geodesic.set_kernel (Some (create_kernel_exact 2)) ;; Geodesic.update) g'
  = (Ok tt, snd (run (Geodesic.set_kernel (Some (create_kernel_exact 2))) g')).
Proof.
  intros g'.
  apply (proj1 (X19_geodesic_update_ignores_new_kernel
                  (create_kernel_exact 1) (create_kernel_exact 2) 1 0 (-1) 2
                  origin_1d unit_momentum_1d None
                  ltac:(lra) ltac:(lra) ltac:(cbn; lia) ltac:(cbn; lia))).
Defined.

(* ------------------------------------------------------------------ *)
(** ** The transport along both sides of a geodesic *)

Lemma run_more_than_one_point (e : Exponential.t) (n : Z) (g : Geodesic.t) :
  Exponential.number_of_time_points e = Some n ->
  run (Geodesic.more_than_one_point e) g = (Ok (1 <? n)%Z, g).
Proof.
  intros H. unfold Geodesic.more_than_one_point. rewrite H. reflexivity.
Qed.

Lemma geodesic_transport_splice (g : Geodesic.t) (v : tensor) (flag : bool)
    (nb nf : Z) (bpt fpt : list tensor) (be' fe' : Exponential.t) :
  Geodesic.shoot_is_modified g = false ->
  backward_points g = Some nb -> forward_points g = Some nf ->
  (1 < nb)%Z -> (1 < nf)%Z ->
  run (Exponential.parallel_transport v flag) (Geodesic.backward_exponential g)
  = (Ok bpt, be') ->
  run (Exponential.parallel_transport v flag) (Geodesic.forward_exponential g)
  = (Ok fpt, fe') ->
  run (Geodesic.parallel_transport v flag) g
  = (Ok (rev bpt ++ tl fpt),
     Geodesic.with_forward_exponential fe'
       (Geodesic.with_backward_exponential be' g)).
Proof.
  intros Hsm Hb Hf Hnb Hnf Hrb Hrf.
  destruct g as [c a0 hi0 lo0 cps mom td be fe sm fm].
  unfold backward_points, forward_points in Hb, Hf.
  cbn in Hsm, Hb, Hf, Hrb, Hrf. subst sm.
  unfold Geodesic.parallel_transport.
  erewrite run_bind by reflexivity.
  change (state_of (get ?s)) with s. change (outcome_of (get ?s)) with (Ok s).
  cbv beta iota.
  cbn [Geodesic.shoot_is_modified Geodesic.backward_exponential
       Geodesic.forward_exponential].
  erewrite run_bind by reflexivity.
  change (state_of (ret tt ?s)) with s.
  erewrite run_bind by (apply run_more_than_one_point; exact Hb).
  apply Z.ltb_lt in Hnb. rewrite Hnb.
  erewrite run_bind.
  2:{ rewrite run_on_backward. cbn [Geodesic.backward_exponential].
      rewrite Hrb. reflexivity. }
  cbn [Geodesic.with_backward_exponential].
  erewrite run_bind by reflexivity.
  change (state_of (get ?s)) with s.
  cbn [Geodesic.forward_exponential].
  erewrite run_bind by (apply run_more_than_one_point; exact Hf).
  apply Z.ltb_lt in Hnf. rewrite Hnf.
  erewrite run_bind.
  2:{ rewrite run_on_forward.
      cbv [Geodesic.forward_exponential Geodesic.with_backward_exponential].
      rewrite Hrf. reflexivity. }
  reflexivity.
Qed.

(** X20.  [Geodesic.parallel_transport] splices the transports of its two
    exponentials as [_get_times] splices their times.  On a geodesic
    configured through its setters and updated, both sides having more than
    one time point, take a transport without tangential component that goes
    through on each side: the vector has the size of the momenta, the
    assertions pass, and the run stays within the real numbers.  It returns
    one vector per time of the geodesic; the vector at the index of the
    reference time is the first of the backward side, the input less its
    component along the backward momenta, the first of the forward side
    being dropped; and the call changes the geodesic only by storing the
    Cholesky factors of each side, one per step. *)
Theorem X20_geodesic_parallel_transport
    (k : Kernel) (c a lo hi : R) (cps mom v : tensor) (td : option tensor) :
  lo <= a -> a <= hi -> (0 < len cps)%nat -> (0 < len mom)%nat ->
  let nb := Geodesic.number_of_points (a - lo) c in
  let nf := Geodesic.number_of_points (hi - a) c in
  let mb := muls (tneg mom) (a - lo) in
  let mf := muls mom (hi - a) in
  let exact := create_kernel_exact (kernel_width k) in
  let part m :=
    tsub v (smul (dot v (convolve exact cps cps m) / dot m (convolve k cps cps m))
                 m) in
  (1 < nb)%Z -> (1 < nf)%Z ->
  transport_goes_through k nb cps mb v ->
  transport_goes_through k nf cps mf v ->
  let g' := snd (run Geodesic.update (geodesic_with k c a lo hi cps mom td)) in
  exists pt times g1,
    run (Geodesic.parallel_transport v false) g' = (Ok pt, g1) /\
    run Geodesic._get_times g' = (Ok times, g') /\
    length pt = length times /\
    length pt = Z.to_nat (nb + nf - 1) /\
    nth_error pt (Z.to_nat (nb - 1)) = Some (part mb) /\
    g1 = Geodesic.with_forward_exponential
           (Exponential.with_cholesky_kernel_matrices
              (Exponential.cholesky_kernel_matrices
                 (Geodesic.forward_exponential g1))
              (Geodesic.forward_exponential g'))
           (Geodesic.with_backward_exponential
              (Exponential.with_cholesky_kernel_matrices
                 (Exponential.cholesky_kernel_matrices
                    (Geodesic.backward_exponential g1))
                 (Geodesic.backward_exponential g'))
              g') /\
    length (Exponential.cholesky_kernel_matrices
              (Geodesic.backward_exponential g1)) = Z.to_nat (nb - 1) /\
    length (Exponential.cholesky_kernel_matrices
              (Geodesic.forward_exponential g1)) = Z.to_nat (nf - 1).
Proof.
  intros Hlo Hhi Hc Hm nb nf mb mf exact part Hnb Hnf Hgb Hgf g'.
  subst g'. rewrite geodesic_with_update by assumption. cbn [snd].
  destruct Hgb as (_ & Hsb & Hnb0 & Hob & Hdb).
  destruct Hgf as (_ & Hsf & Hnf0 & Hof & Hdf).
  fold nb nf mb mf.
  unfold side_updated.
  rewrite (proj2 (Z.ltb_lt 1 nb) Hnb), (proj2 (Z.ltb_lt 1 nf) Hnf).
  cbv [Exponential.use_rk2 Exponential.with_use_rk2 Exponential.with_kernel
       Exponential.init Exponential.template_data_t truthy].
  destruct (shoot_lengths k false nb cps mb Hnb) as [Hlcb Hlmtb].
  destruct (shoot_lengths k false nf cps mf Hnf) as [Hlcf Hlmtf].
  set (cptb := shoot_control_points k false nb cps mb) in *.
  set (momtb := shoot_momenta k false nb cps mb) in *.
  set (cptf := shoot_control_points k false nf cps mf) in *.
  set (momtf := shoot_momenta k false nf cps mf) in *.
  set (nsb := dot mb (convolve k cps cps mb)) in *.
  set (nsf := dot mf (convolve k cps cps mf)) in *.
  assert (Hfb : length (fresh_factors exact (Z.to_nat (nb - 1)) cptb)
                = Z.to_nat (nb - 1))
    by (apply fresh_factors_length; lia).
  assert (Hff : length (fresh_factors exact (Z.to_nat (nf - 1)) cptf)
                = Z.to_nat (nf - 1))
    by (apply fresh_factors_length; lia).
  do 3 eexists.
  split.
  { eapply (geodesic_transport_splice _ v false nb nf);
      [reflexivity | reflexivity | reflexivity | exact Hnb | exact Hnf | | ].
    - apply (parallel_transport_fresh k nb cptb momtb nsb cps mb v
               Hnb Hlcb Hlmtb Hsb Hob Hnb0);
        [repeat split; reflexivity | reflexivity | reflexivity | reflexivity
         | exact Hdb].
    - apply (parallel_transport_fresh k nf cptf momtf nsf cps mf v
               Hnf Hlcf Hlmtf Hsf Hof Hnf0);
        [repeat split; reflexivity | reflexivity | reflexivity | reflexivity
         | exact Hdf]. }
  split.
  { apply (run_get_times _ a lo hi nb nf); reflexivity. }
  rewrite (proj2 (Z.ltb_lt 1 nb) Hnb), (proj2 (Z.ltb_lt 1 nf) Hnf).
  assert (Hlen : forall (A : Type) (x : A) (l l' : list A) (y : A),
             length (rev (x :: l) ++ tl (y :: l'))
             = (Datatypes.S (length l) + length l')%nat).
  { intros A x l l' y. rewrite length_app, length_rev. reflexivity. }
  split.
  { rewrite Hlen, !transport_fresh_length by lia.
    rewrite length_app, length_rev, linspace_length.
    pose proof (linspace_length a hi (Z.to_nat nf)) as Hl.
    destruct (linspace a hi (Z.to_nat nf)); cbn [length tl] in *; lia. }
  split.
  { rewrite Hlen, !transport_fresh_length by lia. lia. }
  split.
  { match goal with
    | |- nth_error (rev (?x :: ?l) ++ ?l') _ = _ =>
        assert (Hl : length l = Z.to_nat (nb - 1))
          by (apply transport_fresh_length; lia);
        rewrite <- Hl at 2; apply (nth_error_rev_first x l l')
    end. }
  split; [reflexivity|].
  split; [exact Hfb | exact Hff].
Qed.

(* ------------------------------------------------------------------ *)
(** ** Two points pushed across the line that joins them *)

Lemma translation_velocity (q : R) :
  convolve (create_kernel_exact 1) control_points_c2 control_points_c2
           (Mat [[0; q]; [0; q]])
  = Mat [[0; q * (1 + kernel_value_c2)]; [0; q * (1 + kernel_value_c2)]].
Proof. unfold control_points_c2. tensor_eval. c2_values. Qed.

Lemma translation_push :
  convolve (create_kernel_exact 1) control_points_c2 control_points_c2
           momenta_to_transport_x20
  = Mat [[1 + kernel_value_c2; 0]; [1 + kernel_value_c2; 0]].
Proof.
  unfold control_points_c2, momenta_to_transport_x20. tensor_eval. c2_values.
Qed.

Lemma translation_shoot (q : R) :
  shoot_next (create_kernel_exact 1) false (1 / 1) control_points_c2
             (Mat [[0; q]; [0; q]])
  = (Mat [[- (1 / 2); q * (1 + kernel_value_c2)];
          [1 / 2; q * (1 + kernel_value_c2)]],
     Mat [[- (4 * q * q * kernel_value_c2); q];
          [4 * q * q * kernel_value_c2; q]]).
Proof.
  unfold control_points_c2. transport_eval.
  c2_gaussians. f_equal; apply mat22_eq; c2_field.
Qed.

Lemma translation_approx_velocity (q : R) :
  transport_velocity (create_kernel_exact 1) (1 / (2 - 1)) (1 / (2 - 1))
    control_points_c2 (Mat [[0; q]; [0; q]]) momenta_to_transport_x20
  = Mat [[1 + kernel_value_c2; 0]; [1 + kernel_value_c2; 0]].
Proof.
  unfold control_points_c2, momenta_to_transport_x20. transport_eval.
  c2_gaussians. apply mat22_eq; c2_field.
Qed.

Lemma translation_kernel_matrix (y : R) :
  get_kernel_matrix (create_kernel_exact 1) (Mat [[- (1 / 2); y]; [1 / 2; y]])
  = Mat [[1; kernel_value_c2]; [kernel_value_c2; 1]].
Proof. tensor_eval. c2_gaussians. reflexivity. Qed.

Lemma translation_cotangent :
  cholesky_solve (Mat [[1 + kernel_value_c2; 0]; [1 + kernel_value_c2; 0]])
    (cholesky_factor (Mat [[1; kernel_value_c2]; [kernel_value_c2; 1]]))
  = Mat [[1; 0]; [1; 0]].
Proof.
  rewrite cholesky_solve_gram_two_points by exact kernel_value_c2_bounds.
  pose proof kernel_value_c2_bounds.
  apply mat22_eq; field; nra.
Qed.

Lemma translation_finish_defined (y c q ns : R) :
  ns <> 0 ->
  finish_defined (create_kernel_exact 1) ns
    (Mat [[- (1 / 2); y]; [1 / 2; y]]) (Mat [[- c; q]; [c; q]])
    (Mat [[1; 0]; [1; 0]]).
Proof.
  intros Hns. unfold finish_defined.
  assert (Hs : dot (Mat [[1; 0]; [1; 0]])
                   (convolve (create_kernel_exact 1)
                      (Mat [[- (1 / 2); y]; [1 / 2; y]])
                      (Mat [[- (1 / 2); y]; [1 / 2; y]])
                      (Mat [[- c; q]; [c; q]])) = 0).
  { tensor_eval. c2_gaussians. ring. }
  rewrite Hs.
  replace (0 / ns) with 0 by (unfold Rdiv; ring).
  assert (Hi : isub (Mat [[1; 0]; [1; 0]]) (smul 0 (Mat [[- c; q]; [c; q]]))
               = Mat [[1; 0]; [1; 0]])
    by (tensor_eval; apply mat22_eq; ring).
  rewrite Hi.
  assert (Hn : dot (Mat [[1; 0]; [1; 0]])
                   (convolve (create_kernel_exact 1)
                      (Mat [[- (1 / 2); y]; [1 / 2; y]])
                      (Mat [[- (1 / 2); y]; [1 / 2; y]])
                      (Mat [[1; 0]; [1; 0]]))
               = 2 * (1 + kernel_value_c2)).
  { tensor_eval. c2_gaussians. ring. }
  rewrite Hn. split; [exact Hns|].
  pose proof kernel_value_c2_bounds. lra.
Qed.

(** The transport of the push along the line goes through on either side
    of such a geodesic. *)
Lemma translation_goes_through (q : R) :
  q <> 0 ->
  transport_goes_through (create_kernel_exact 1) 2 control_points_c2
                         (Mat [[0; q]; [0; q]]) momenta_to_transport_x20.
Proof.
  intros Hq. unfold transport_goes_through.
  cbn [kernel_width create_kernel_exact].
  rewrite translation_velocity.
  pose proof kernel_value_c2_bounds as HE.
  assert (Hns : dot (Mat [[0; q]; [0; q]])
                    (Mat [[0; q * (1 + kernel_value_c2)];
                          [0; q * (1 + kernel_value_c2)]])
                = 2 * q * q * (1 + kernel_value_c2))
    by (tensor_eval; ring).
  assert (Hsp : dot momenta_to_transport_x20
                    (Mat [[0; q * (1 + kernel_value_c2)];
                          [0; q * (1 + kernel_value_c2)]]) = 0)
    by (unfold momenta_to_transport_x20; tensor_eval; ring).
  rewrite Hns, Hsp.
  assert (Hns0 : 2 * q * q * (1 + kernel_value_c2) <> 0).
  { assert (0 < q * q) by nra. nra. }
  replace (0 / (2 * q * q * (1 + kernel_value_c2))) with 0
    by (unfold Rdiv; ring).
  assert (Hvo : tsub momenta_to_transport_x20 (smul 0 (Mat [[0; q]; [0; q]]))
                = momenta_to_transport_x20)
    by (unfold momenta_to_transport_x20; tensor_eval; apply mat22_eq; ring).
  rewrite Hvo, Hsp.
  replace (0 / (2 * q * q * (1 + kernel_value_c2))) with 0
    by (unfold Rdiv; ring).
  split; [lra|].
  split; [reflexivity|]. split; [exact Hns0|]. split; [lra|].
  destruct (shoot_two_points (create_kernel_exact 1) false control_points_c2
              (Mat [[0; q]; [0; q]])) as [Hc Hm].
  rewrite Hc, Hm, translation_shoot. clear Hc Hm.
  change (Z.to_nat (2 - 1)) with 1%nat.
  cbn [fresh_defined hd fst snd].
  rewrite translation_approx_velocity, translation_kernel_matrix,
    translation_cotangent.
  destruct (gram_two_points_defined kernel_value_c2 HE) as [Hpd Hnz].
  split; [exact Hpd|]. split; [exact Hnz|].
  split; [|exact I].
  change (squeeze (Mat [[1; 0]; [1; 0]])) with (Mat [[1; 0]; [1; 0]]).
  apply translation_finish_defined. exact Hns0.
Qed.

Lemma X20_geodesic_parallel_transport_witness :
  let g' := snd (run Geodesic.update geodesic_x20) in
  exists pt g1,
    run (Geodesic.parallel_transport momenta_to_transport_x20 false) g'
    = (Ok pt, g1) /\
    length pt = 3%nat.
Proof.
  intros g'.
  assert (Hb : Geodesic.number_of_points (0 - -1) 1 = 2%Z)
    by (rewrite (number_of_points_eq _ _ 2); [reflexivity | lra | cbn [IZR]; lra]).
  assert (Hf : Geodesic.number_of_points (1 - 0) 1 = 2%Z)
    by (rewrite (number_of_points_eq _ _ 2); [reflexivity | lra | cbn [IZR]; lra]).
  assert (Hmb : muls (tneg momenta_x20) (0 - -1) = Mat [[0; - (1)]; [0; - (1)]])
    by (unfold momenta_x20; tensor_eval; apply mat22_eq; ring).
  assert (Hmf : muls momenta_x20 (1 - 0) = Mat [[0; 1]; [0; 1]])
    by (unfold momenta_x20; tensor_eval; apply mat22_eq; ring).
  assert (Hgb : transport_goes_through (create_kernel_exact 1)
                  (Geodesic.number_of_points (0 - -1) 1) control_points_c2
                  (muls (tneg momenta_x20) (0 - -1)) momenta_to_transport_x20).
  { rewrite Hb, Hmb. apply translation_goes_through. lra. }
  assert (Hgf : transport_goes_through (create_kernel_exact 1)
                  (Geodesic.number_of_points (1 - 0) 1) control_points_c2
                  (muls momenta_x20 (1 - 0)) momenta_to_transport_x20).
  { rewrite Hf, Hmf. apply translation_goes_through. lra. }
  destruct (X20_geodesic_parallel_transport (create_kernel_exact 1) 1 0
              (-1) 1 control_points_c2 momenta_x20 momenta_to_transport_x20 None
              ltac:(lra) ltac:(lra) ltac:(cbn; lia) ltac:(cbn; lia)
              ltac:(rewrite Hb; lia) ltac:(rewrite Hf; lia) Hgb Hgf)
    as (pt & times & g1 & H1 & _ & _ & H4 & _).
  rewrite Hb, Hf in H4.
  exists pt, g1. split; [exact H1 | exact H4].
Defined.

(* ================================================================== *)
(** * Where the parallel transport fails *)
(* ================================================================== *)

Lemma run_bind_raise {S A B : Type} (m : M S A) (k : A -> M S B) (s s1 : S)
    (x : exn) :
  run m s = (Raise x, s1) -> run (bind m k) s = (Raise x, s1).
Proof.
  unfold run. intros H. injection H as Ho Hs.
  rewrite outcome_of_bind, state_of_bind, Ho, Hs. reflexivity.
Qed.

Lemma divide_nan : divide 0 0 = NaN.
Proof.
  unfold divide. destruct (Req_dec_T 0 0); [reflexivity | contradiction].
Qed.

(** X21.  A [norm_squared] of zero fails the orthogonality assertion.  On
    an exponential whose shoot is up to date and whose stored norm is zero,
    as it is after an [update] with momenta zero, and whose kernel has a
    width other than zero, the scalar product of a
    vector with the velocity is divided by zero; where that scalar product
    is zero too, the quotient is a NaN, the projected vector and
    [sp_for_assert] are NaN, and [parallel_transport] raises an
    [AssertionError], leaving the object as it is. *)
Theorem X21_parallel_transport_zero_norm
    (e : Exponential.t) (k : Kernel) (T : Z) (icp imom v : tensor) (ns : R)
    (flag : bool) :
  Exponential.shoot_is_modified e = false ->
  Exponential.initial_momenta e = Some imom ->
  size_eqb (size v) (size imom) = true ->
  Exponential.kernel e = Some k ->
  kernel_width k <> 0 ->
  Exponential.number_of_time_points e = Some T ->
  T <> 1%Z ->
  Exponential.initial_control_points e = Some icp ->
  Exponential.norm_squared e = Some ns ->
  ns = 0 ->
  dot v (convolve (create_kernel_exact (kernel_width k)) icp icp imom) = 0 ->
  Exponential.parallel_transport v flag e = (Raise AssertionError, e, []).
Proof.
  intros Hsm Himom Hsize Hk _ HT HT1 Hicp Hns Hns0 Hsp.
  destruct e as [k0 T0 icp0 cpt imom0 momt itd tdt sm fm rk ns0 ch].
  cbn in Hsm, Himom, Hk, HT, Hicp, Hns. subst sm imom0 k0 T0 icp0 ns0 ns.
  unfold Exponential.parallel_transport, Exponential.the_kernel,
    Exponential.time_points, Exponential.norm_squared_value,
    Exponential.get_norm_squared, float_div.
  py_unfold. exp_fields. cbn [negb]. cbv iota.
  rewrite Hsize.
  destruct (Req_dec_T (IZR T - 1) 0) as [H0|_].
  { exfalso. apply HT1. apply eq_IZR. lra. }
  cbv beta iota. rewrite Hsp, divide_nan. reflexivity.
Qed.

Lemma X21_parallel_transport_zero_norm_witness :
  outcome_of (Exponential.update exponential_at_rest) = Ok tt /\
  Exponential.parallel_transport unit_momentum_1d true
    (snd (run Exponential.update exponential_at_rest))
  = (Raise AssertionError, snd (run Exponential.update exponential_at_rest), []).
Proof.
  change (outcome_of (Exponential.update exponential_at_rest))
    with (fst (run Exponential.update exponential_at_rest)).
  unfold exponential_at_rest.
  rewrite exponential_with_update by (cbn; lia). cbn [fst snd].
  split; [reflexivity|].
  apply (X21_parallel_transport_zero_norm _ (create_kernel_exact 1) 2
           origin_1d (Mat [[0]]) unit_momentum_1d
           (dot (Mat [[0]])
                (convolve (create_kernel_exact 1) origin_1d origin_1d
                          (Mat [[0]])))
           true);
    try reflexivity; try lia.
  - cbn. lra.
  - tensor_eval. ring.
  - tensor_eval. ring.
Defined.

(** X22.  A kernel matrix that is not positive definite stops the
    transport.  On an exponential whose shoot is up to date, whose kernel
    has a width other than zero and whose store of Cholesky factors is
    empty, a [parallel_transport] that passes its two
    assertions factors the kernel matrix of the control points of the second
    time point first; where that matrix is not positive definite,
    [torch.potrf] raises, and the call ends with a [RuntimeError], leaving
    the object as it is, nothing stored. *)
Theorem X22_parallel_transport_singular_gram
    (e : Exponential.t) (k : Kernel) (T : Z) (cpt momt : list tensor) (ns : R)
    (icp imom v cp1 : tensor) (flag : bool) :
  let exact := create_kernel_exact (kernel_width k) in
  let sp := dot v (convolve exact icp icp imom) / ns in
  let vo := tsub v (smul sp imom) in
  transport_ready k T cpt momt ns e ->
  kernel_width k <> 0 ->
  (1 < T)%Z ->
  length cpt = Z.to_nat T ->
  length momt = Z.to_nat T ->
  Exponential.initial_control_points e = Some icp ->
  Exponential.initial_momenta e = Some imom ->
  size_eqb (size v) (size imom) = true ->
  ns <> 0 ->
  dot vo (convolve exact icp icp imom) / ns < 1e-5 ->
  Exponential.cholesky_kernel_matrices e = [] ->
  nth_error cpt 1 = Some cp1 ->
  positive_definite (get_kernel_matrix exact cp1) = false ->
  run (Exponential.parallel_transport v flag) e = (Raise RuntimeError, e).
Proof.
  intros exact sp vo Hr _ HT Hlc Hlm Hicp Himom Hsize Hns0 Horth Hch Hcp1 Hpd.
  rewrite (transport_prologue k T cpt momt ns icp imom v HT Hlc Hlm Hsize
             Horth Hns0 e flag Hr Hicp Himom).
  unfold for_range.
  destruct (Z.to_nat (T - 1)) as [|n] eqn:Hn; [lia|].
  cbn [for_loop].
  destruct (nth_error cpt 0) as [cp|] eqn:Hcp.
  2:{ apply nth_error_None in Hcp. lia. }
  destruct (nth_error momt 0) as [mom|] eqn:Hmom.
  2:{ apply nth_error_None in Hmom. lia. }
  apply run_bind_raise. apply run_bind_raise.
  unfold Exponential.transport_step.
  erewrite run_bind
    by (apply (run_control_points_at k T cpt momt ns); eassumption).
  erewrite run_bind by (apply (run_momenta_at k T cpt momt ns); eassumption).
  erewrite run_bind by (apply (run_py_index_last [])).
  erewrite run_bind by (apply (run_the_kernel k T cpt momt ns); exact Hr).
  apply run_bind_raise.
  unfold Exponential.cotangent.
  erewrite run_bind by reflexivity.
  erewrite run_bind by (apply (run_time_points k T cpt momt ns); exact Hr).
  change (outcome_of (get e)) with (Ok e). cbv beta iota.
  rewrite Hch. cbn [length].
  assert (Hne : (Z.of_nat 0 =? T - 1)%Z = false) by (apply Z.eqb_neq; lia).
  rewrite Hne.
  erewrite run_bind
    by (apply (run_control_points_at k T cpt momt ns); eassumption).
  apply run_bind_raise.
  unfold potrf. fold exact. rewrite Hpd. reflexivity.
Qed.

Lemma together_velocity :
  convolve (create_kernel_exact 1) control_points_together
           control_points_together momenta_together
  = Mat [[1; 0]; [1; 0]].
Proof.
  unfold control_points_together, momenta_together. tensor_eval.
  rewrite !gaussian_self. apply mat22_eq; ring.
Qed.

Lemma together_next :
  fst (shoot_next (create_kernel_exact 1) false (1 / 1) control_points_together
                  momenta_together)
  = Mat [[1; 0]; [1; 0]].
Proof.
  unfold control_points_together, momenta_together. transport_eval.
  rewrite !gaussian_self. apply mat22_eq; field.
Qed.

Lemma together_not_positive_definite :
  positive_definite
    (get_kernel_matrix (create_kernel_exact 1) (Mat [[1; 0]; [1; 0]])) = false.
Proof.
  tensor_eval. rewrite !gaussian_self.
  cbv [positive_definite chol_pivots rows chol_offdiag chol_next nth length
       dotv zip_with sum_list fold_right forallb andb app last].
  replace (1 - 0) with 1 by ring. rewrite sqrt_1.
  rewrite Rltb_true by lra.
  unfold Rltb.
  match goal with
  | |- context [Rlt_dec 0 ?x] =>
      destruct (Rlt_dec 0 x) as [H|_]; [|reflexivity];
      assert (Hx : x = 0) by field; lra
  end.
Qed.

Lemma X22_parallel_transport_singular_gram_witness :
  outcome_of (Exponential.update exponential_together) = Ok tt /\
  run (Exponential.parallel_transport momenta_to_transport_together false)
      (snd (run Exponential.update exponential_together))
  = (Raise RuntimeError, snd (run Exponential.update exponential_together)).
Proof.
  change (outcome_of (Exponential.update exponential_together))
    with (fst (run Exponential.update exponential_together)).
  unfold exponential_together.
  rewrite exponential_with_update by (cbn; lia). cbn [fst snd].
  split; [reflexivity|].
  assert (Hns : dot momenta_together
                    (convolve (create_kernel_exact 1) control_points_together
                              control_points_together momenta_together) = 1).
  { rewrite together_velocity. unfold momenta_together. tensor_eval. ring. }
  assert (Hsp : dot momenta_to_transport_together
                    (convolve (create_kernel_exact 1) control_points_together
                              control_points_together momenta_together) = 0).
  { rewrite together_velocity. unfold momenta_to_transport_together.
    tensor_eval. ring. }
  assert (Hvo : tsub momenta_to_transport_together (smul (0 / 1) momenta_together)
                = momenta_to_transport_together).
  { unfold momenta_to_transport_together, momenta_together. tensor_eval.
    apply mat22_eq; field. }
  destruct (shoot_lengths (create_kernel_exact 1) false 2
              control_points_together momenta_together ltac:(lia))
    as [Hlc Hlm].
  apply (X22_parallel_transport_singular_gram _ (create_kernel_exact 1) 2
           (shoot_control_points (create_kernel_exact 1) false 2
              control_points_together momenta_together)
           (shoot_momenta (create_kernel_exact 1) false 2
              control_points_together momenta_together)
           (dot momenta_together
                (convolve (create_kernel_exact 1) control_points_together
                          control_points_together momenta_together))
           control_points_together momenta_together
           momenta_to_transport_together (Mat [[1; 0]; [1; 0]]) false).
  - repeat split.
  - cbn. lra.
  - lia.
  - exact Hlc.
  - exact Hlm.
  - reflexivity.
  - reflexivity.
  - reflexivity.
  - rewrite Hns. lra.
  - cbn [kernel_width create_kernel_exact].
    rewrite Hns, Hsp, Hvo, Hsp. lra.
  - reflexivity.
  - destruct (shoot_two_points (create_kernel_exact 1) false
                control_points_together momenta_together) as [Hc _].
    rewrite Hc. cbn [nth_error]. rewrite together_next. reflexivity.
  - exact together_not_positive_definite.
Defined.
